(** * scatter.py: the per-event sky-map pipeline

    A shallow embedding of [scripts/scatter.py]: the RA rotation with its
    wraparound and roll loop, the credible-region search, the interpolation
    cache and the event loop that ties them together.

    Conventions of the embedding.
    - A numpy [float64] is an exact rational ([Q]).  The rounding of
      arithmetic is not modelled; what numpy does at a zero divisor
      ([inf], [nan]) is, and the literals [0.95] and [0.99] the search is
      given are the doubles they denote.
    - A two dimensional array is a list of rows ([grid]).
    - The script's module-level variables and the outside world it touches
      (files, console, figure) form the record [world], threaded through a
      state-and-exception monad [M].
    - Code the script imports but does not define ([skyutils], [healpy],
      [Basemap], [matplotlib], [float]) is a field of the record
      [externals]. *)

From Stdlib Require Import QArith Qround Lqa ZArith Lia.
From Stdlib Require Import String Ascii.
From stdpp Require Import gmap strings list fin_maps.

Local Open Scope string_scope.
Local Open Scope list_scope.

(** ** Numbers *)

Module Np.

(** Comparison of two doubles, as a boolean. *)
Definition ltb (x y : Q) : bool :=
  (Qnum x * QDen y <? Qnum y * QDen x)%Z.

Definition eqb (x y : Q) : bool := Qeq_bool x y.

(** The value of a scalar division [x / y] of two [numpy.float64]:
    a zero divisor gives an infinity or a nan (with a warning), never an
    exception. *)
Inductive float64 : Type :=
| Finite (q : Q)
| PosInf
| NegInf
| NaN.

Definition div (x y : Q) : float64 :=
  if eqb y 0 then
    if ltb 0 x then PosInf
    else if ltb x 0 then NegInf
    else NaN
  else Finite (x / y).

(** [v > 0]; every comparison with a nan is false. *)
Definition gt0 (v : float64) : bool :=
  match v with
  | Finite q => ltb 0 q
  | PosInf => true
  | NegInf => false
  | NaN => false
  end.

(** [np.pi], the double nearest to pi: 0x400921FB54442D18. *)
Definition pi : Q := 884279719003555 # 281474976710656.

(** The doubles the literals [0.95] and [0.99] denote, 0x3FEE666666666666
    and 0x3FEFAE147AE147AE: each lies below the decimal fraction it is
    written as.  The double of [0.68], 0x3FE5C28F5C28F5C3, lies above
    [68 / 100] with no double between the two ([lit_0_68_among_doubles]
    below), so that a comparison of a double with either has the same
    result; the model compares with [68 # 100]. *)
Definition lit_0_68 : Q := 6124895493223875 # 9007199254740992.
Definition lit_0_95 : Q := 4278419646001971 # 4503599627370496.
Definition lit_0_99 : Q := 4458563631096791 # 4503599627370496.

(** [np.mod(x, m)] for a positive [m]: the remainder has the sign of [m]. *)
Definition mod_ (x m : Q) : Q := x - m * inject_Z (Qfloor (x / m)).

(** [np.where(c, a, b)] applied to one element. *)
Definition where_ (c : bool) (a b : Q) : Q := if c then a else b.

End Np.

(** ** Strings, as Python handles them *)

Module Py.

(** [s.split(sep)] for a one character separator: never empty. *)
Fixpoint split (sep : ascii) (s : string) : list string :=
  match s with
  | EmptyString => [EmptyString]
  | String c s' =>
      if Ascii.eqb c sep then EmptyString :: split sep s'
      else match split sep s' with
           | w :: ws => String c w :: ws
           | [] => [String c EmptyString]
           end
  end.

(** [sep.join(l)] *)
Fixpoint join (sep : string) (l : list string) : string :=
  match l with
  | [] => EmptyString
  | [w] => w
  | w :: ws => w ++ sep ++ join sep ws
  end.

(** The characters [str.strip] removes. *)
Definition is_space (c : ascii) : bool :=
  let n := nat_of_ascii c in
  (n =? 32)%nat || ((9 <=? n)%nat && (n <=? 13)%nat).

Fixpoint lstrip (s : string) : string :=
  match s with
  | EmptyString => EmptyString
  | String c s' => if is_space c then lstrip s' else s
  end.

Fixpoint rstrip (s : string) : string :=
  match s with
  | EmptyString => EmptyString
  | String c s' =>
      match rstrip s' with
      | EmptyString => if is_space c then EmptyString else String c EmptyString
      | r => String c r
      end
  end.

Definition strip (s : string) : string := rstrip (lstrip s).

(** [s.endswith(suf)] *)
Fixpoint endswith (suf s : string) : bool :=
  String.eqb s suf ||
  match s with
  | EmptyString => false
  | String _ s' => endswith suf s'
  end.

(** [s.replace(old, new)] for a non-empty [old]: every occurrence, left
    to right, without overlap.  [skip] counts the characters of a
    matched occurrence still to be dropped. *)
Fixpoint replace_from (old new : string) (skip : nat) (s : string) : string :=
  match s with
  | EmptyString => EmptyString
  | String c s' =>
      match skip with
      | S k => replace_from old new k s'
      | O =>
          if String.prefix old s
          then new ++ replace_from old new (String.length old - 1) s'
          else String c (replace_from old new 0 s')
      end
  end.

Definition replace (old new s : string) : string := replace_from old new 0 s.

Definition is_digit (c : ascii) : bool :=
  let n := nat_of_ascii c in (48 <=? n)%nat && (n <=? 57)%nat.

(** [re.findall("([0-9]+)", s)], each run already converted by [int]:
    [cur] is the run being read, [done_] the runs read so far, last
    first. *)
Fixpoint digit_runs (cur : option nat) (done_ : list nat) (s : string) : list nat :=
  match s with
  | EmptyString =>
      match cur with Some n => n :: done_ | None => done_ end
  | String c s' =>
      if is_digit c then
        let d := (nat_of_ascii c - 48)%nat in
        digit_runs (Some (match cur with Some n => 10 * n + d | None => d end)%nat)
                   done_ s'
      else
        digit_runs None (match cur with Some n => n :: done_ | None => done_ end) s'
  end.

End Py.

(** ** Arrays *)

(** A two dimensional [ndarray], row by row. *)
Definition grid : Type := list (list Q).

Definition map_grid (f : Q -> Q) (g : grid) : grid := map (map f) g.

(** [g[0, 0]] and [g[0, -1]]; [None] stands for an [IndexError]. *)
Definition first_corner (g : grid) : option Q :=
  match g with
  | row :: _ => head row
  | [] => None
  end.

Definition last_corner (g : grid) : option Q :=
  match g with
  | row :: _ => last row
  | [] => None
  end.

(** [np.roll(row, -1)]: the first entry moves to the end. *)
Definition roll_row (row : list Q) : list Q :=
  match row with
  | [] => []
  | x :: t => t ++ [x]
  end.

(** [np.roll(g, -1, axis=1)] *)
Definition roll (g : grid) : grid := map roll_row g.

(** The number of columns, [g.shape[1]]. *)
Definition grid_width (g : grid) : nat :=
  match g with
  | row :: _ => length row
  | [] => 0
  end.

(** [np.argmax] of a flattened array: the first position of the largest
    entry.  [best] and [besti] are the largest entry so far and its
    position, [i] the position of the head of [l]. *)
Fixpoint argmax_from (best : Q) (besti i : nat) (l : list Q) : nat :=
  match l with
  | [] => besti
  | x :: t =>
      if Np.ltb best x then argmax_from x i (S i) t
      else argmax_from best besti (S i) t
  end.

Definition argmax (g : grid) : option nat :=
  match concat g with
  | [] => None
  | x :: t => Some (argmax_from x 0 1 t)
  end.

(** [np.unravel_index(k, g.shape)] for a two dimensional shape. *)
Definition unravel_index (k : nat) (g : grid) : nat * nat :=
  (k / grid_width g, k mod grid_width g)%nat.

(** [g[(i, j)]] *)
Definition at_index (g : grid) (ij : nat * nat) : option Q :=
  match g !! fst ij with
  | Some row => row !! snd ij
  | None => None
  end.

(** ** The credible-region search *)

(** The loop of numpy's left binary search: [min_idx] and [max_idx] close
    in on the insertion point.  The interval shrinks at every turn, so
    [fuel] turns suffice when [max_idx - min_idx <= fuel]. *)
Fixpoint binsearch_left (fuel : nat) (arr : list Q) (key : Q)
    (min_idx max_idx : nat) : nat :=
  match fuel with
  | O => min_idx
  | S fuel' =>
      if (min_idx <? max_idx)%nat then
        let mid_idx := (min_idx + (max_idx - min_idx) / 2)%nat in
        if Np.ltb (nth mid_idx arr 0%Q) key
        then binsearch_left fuel' arr key (S mid_idx) max_idx
        else binsearch_left fuel' arr key min_idx mid_idx
      else min_idx
  end.

(** [np.searchsorted(arr, key)], [side='left']. *)
Definition searchsorted (arr : list Q) (key : Q) : nat :=
  binsearch_left (length arr) arr key 0 (length arr).

(** The input the search expects: a non-decreasing sequence. *)
Definition nondecreasing (arr : list Q) : Prop :=
  forall i j, (i <= j < length arr)%nat -> (nth i arr 0 <= nth j arr 0)%Q.

(** The area of the region holding the first [rank] pixels. *)
Definition region_area (rank : nat) (pix_size : Q) : Q :=
  inject_Z (Z.of_nat rank) * pix_size.

(** ** healpy *)

Module Healpy.

(** [healpy.npix2nside]: a [ValueError] unless [npix = 12 * nside**2]. *)
Definition npix2nside (npix : nat) : option nat :=
  let nside := Nat.sqrt (npix / 12) in
  if (12 * nside * nside =? npix)%nat then Some nside else None.

Definition nside2npix (nside : nat) : nat := (12 * nside * nside)%nat.

Definition rad2deg (x : Q) : Q := x * 180 / Np.pi.

(** [healpy.nside2pixarea(nside, degrees=True)], where the division is
    defined. *)
Definition nside2pixarea (nside : nat) : Q :=
  rad2deg (rad2deg (4 * Np.pi / inject_Z (Z.of_nat (nside2npix nside)))).

(** The division [4 * np.pi / nside2npix(nside)] of a Python float by a
    Python integer raises [ZeroDivisionError] when there is no pixel. *)
Definition nside2pixarea_defined (nside : nat) : bool :=
  negb (nside2npix nside =? 0)%nat.

End Healpy.

(** ** The world of the script *)

Inductive exn : Type :=
| IOError (path : string)
| ValueError (what : string)
| KeyError (key : string)
| IndexError (what : string)
| NameError (name : string)
| TypeError (what : string)
| ZeroDivisionError (what : string).

(** What a path of the file system holds. *)
Inductive file : Type :=
| TextFile (lines : list string)
| NpzFile (arr_0 : list grid)
| MapFile.

(** A colour handed to matplotlib: a name, or a colormap applied to a
    normalised value. *)
Inductive colour : Type :=
| ColourName (name : string)
| ColourOf (cmap : string) (level : Q).

(** One row of [config_information[label]]:
    [[prb68 * pix_size, snrs["Network"], antenna_pattern]]. *)
Record aggregate : Type := Aggregate {
  area_68 : Q;
  network_snr : Q;
  antenna_response : Q
}.

(** One call of [m.contour]. *)
Record contour_call : Type := Contour {
  contour_ra : grid;
  contour_dec : grid;
  contour_prob : grid;
  contour_level : Q;
  contour_colour : colour
}.

(** The lines the event loop prints. *)
Inductive console : Type :=
| ProcessingEvent (enum : nat)
| PrintArea (area : Q)
| SkippingEvent (enum : nat)
| PrintSnrs (snrs : gmap string Q)
| PrintNetwork (snr : Q)
| LoadingCached (cache_fname : string)
| PrintLabel (label globpat : string)
| Globbed (n : nat) (globpat : string).

Record world : Type := World {
  files : gmap string file;
  (** the module-level name [linecolor]: unbound until first assigned *)
  linecolor : option colour;
  (** [defaultdict(list)] *)
  config_information : gmap string (list aggregate);
  stdout : list console;
  contours : list contour_call;
  (** the calls of [interpolate_healpix_map], by map file *)
  kernel_calls : list string;
  (** the figures [plt.savefig] has written *)
  saved_figures : list string
}.

Definition set_files (f : gmap string file -> gmap string file) (w : world) : world :=
  World (f (files w)) (linecolor w) (config_information w) (stdout w)
        (contours w) (kernel_calls w) (saved_figures w).

Definition set_linecolor (c : colour) (w : world) : world :=
  World (files w) (Some c) (config_information w) (stdout w)
        (contours w) (kernel_calls w) (saved_figures w).

Definition append_record (label : string) (r : aggregate) (w : world) : world :=
  World (files w) (linecolor w)
        (<[label := default [] (config_information w !! label) ++ [r]]>
           (config_information w))
        (stdout w) (contours w) (kernel_calls w) (saved_figures w).

Definition print_line (l : console) (w : world) : world :=
  World (files w) (linecolor w) (config_information w) (stdout w ++ [l])
        (contours w) (kernel_calls w) (saved_figures w).

Definition add_contour (c : contour_call) (w : world) : world :=
  World (files w) (linecolor w) (config_information w) (stdout w)
        (contours w ++ [c]) (kernel_calls w) (saved_figures w).

Definition log_kernel_call (f : string) (w : world) : world :=
  World (files w) (linecolor w) (config_information w) (stdout w)
        (contours w) (kernel_calls w ++ [f]) (saved_figures w).

Definition add_figure (f : string) (w : world) : world :=
  World (files w) (linecolor w) (config_information w) (stdout w)
        (contours w) (kernel_calls w) (saved_figures w ++ [f]).

(** ** The monad of the script: state, exceptions, and a loop that may
    still be running when its fuel is spent *)

Inductive outcome (A : Type) : Type :=
| Done (a : A) (w : world)
| Raise (e : exn) (w : world)
| Spin.

Arguments Done {A} a w.
Arguments Raise {A} e w.
Arguments Spin {A}.

Definition M (A : Type) : Type := world -> outcome A.

Definition ret {A} (a : A) : M A := fun w => Done a w.

Definition bind {A B} (m : M A) (k : A -> M B) : M B :=
  fun w =>
    match m w with
    | Done a w' => k a w'
    | Raise e w' => Raise e w'
    | Spin => Spin
    end.

Definition raise {A} (e : exn) : M A := fun w => Raise e w.

Definition get : M world := fun w => Done w w.

Definition modify (f : world -> world) : M unit := fun w => Done tt (f w).

(** An optional value, or the exception its absence stands for. *)
Definition expect {A} (o : option A) (e : exn) : M A :=
  match o with
  | Some a => ret a
  | None => raise e
  end.

Definition print (l : console) : M unit := modify (print_line l).

Declare Scope script_scope.
Delimit Scope script_scope with script.
Notation "'do' x <- m ; k" := (bind m (fun x => k))
  (at level 10, x name, m at level 100, k at level 200) : script_scope.
Notation "'do' ' p <- m ; k" := (bind m (fun x => match x with p => k end))
  (at level 10, p pattern, m at level 100, k at level 200) : script_scope.
Notation "m ;; k" := (bind m (fun _ => k))
  (at level 100, k at level 200, right associativity) : script_scope.
Local Open Scope script_scope.

(** [for x in l: body x] *)
Fixpoint for_each {A} (l : list A) (body : A -> M unit) : M unit :=
  match l with
  | [] => ret tt
  | x :: rest => body x ;; for_each rest body
  end.

(** ** What the script imports *)

(** The columns of [sky_data] the script reads. *)
Record sky_table : Type := SkyTable {
  cumul : list Q;
  prob : list Q;
  ra : list Q;
  dec : list Q
}.

Record externals : Type := Externals {
  (** [skyutils.create_table]: the table and the HEALPix map of a file *)
  create_table : string -> exn + sky_table * list Q;
  (** [skyutils.interpolate_healpix_map(ra, dec, smap, npts=500)] *)
  interpolate_healpix_map : list Q -> list Q -> list Q -> grid * grid * grid;
  (** [skyutils.net_antenna_pattern_point(t, network, ra, dec, norm=True)[3]] *)
  net_antenna_pattern_point : Q -> list string -> Q -> Q -> Q;
  (** the [Basemap] instance [m], called on two coordinate arrays *)
  basemap : grid -> grid -> grid * grid;
  (** [float(s)]; [None] stands for its [ValueError] *)
  float_of_string : string -> option Q;
  (** whether [plt.get_cmap(name)] knows the name *)
  is_cmap : string -> bool;
  (** [glob.glob] *)
  glob : string -> list string;
  (** whether [plt.savefig(fname)] can write its file *)
  can_save : string -> bool
}.

(** ** Colour specifications *)

Inductive colors_t : Type :=
| ColorStr (name : string)
| Colormap (name : string).

Record Plottable : Type := MkPlottable {
  colors : colors_t;
  quant : option string;
  _norm : option (Q * Q)
}.

(** [Plottable._scales]: [vmin] and [vmax] by quantity. *)
Definition _scales (quant : option string) : option (Q * Q) :=
  match quant with
  | None => Some (0, 64)%Q
  | Some q =>
      if String.eqb q "snr" then Some (10, 20)%Q
      else if String.eqb q "error_region" then Some (0, 64)%Q
      else None
  end.

(** [Plottable.__init__] with [_init_cmaps]: an unknown colormap name is
    kept as a plain colour; an unknown quantity under a known colormap is
    a [KeyError] that nothing catches. *)
Definition new_Plottable (ext : externals) (colors : string)
    (quant : option string) : exn + Plottable :=
  if is_cmap ext colors then
    match _scales quant with
    | Some scale => inr (MkPlottable (Colormap colors) quant (Some scale))
    | None => inl (KeyError (default "" quant))
    end
  else inr (MkPlottable (ColorStr colors) quant None).

(** [Plottable.__call__] *)
Definition call_Plottable (p : Plottable) (val : Q) : exn + colour :=
  match colors p with
  | ColorStr name => inr (ColourName name)
  | Colormap name =>
      match _norm p with
      | Some (vmin, vmax) => inr (ColourOf name ((val - vmin) / (vmax - vmin)))
      | None => inl (TypeError "_norm")
      end
  end.

(** [parse_colorspecs]: the dictionary built so far is [out]. *)
Fixpoint parse_colorspecs_from (ext : externals) (out : gmap string Plottable)
    (pspecs : list string) : exn + gmap string Plottable :=
  match pspecs with
  | [] => inr out
  | ps :: rest =>
      match Py.split "=" ps with
      | [label; cmap] =>
          let made :=
            match Py.split "," cmap with
            | [quant; cmap'] => new_Plottable ext cmap' (Some quant)
            | _ => new_Plottable ext cmap None
            end in
          match made with
          | inr p => parse_colorspecs_from ext (<[label := p]> out) rest
          | inl e => inl e
          end
      | _ => inl (ValueError "unpack")
      end
  end.

Definition parse_colorspecs (ext : externals) (pspecs : list string)
    : exn + gmap string Plottable :=
  parse_colorspecs_from ext ∅ pspecs.

(** ** The rotation of the RA grid *)

(** [ra_int = (-gmst + ra_int) * np.pi / 12] and then
    [ra_int = ra_int * 180 / np.pi].  The operations are those of exact
    arithmetic: numpy rounds each of them, so that the double it computes
    can differ from the value here in its last places.  The general
    properties of the wraparound and of the roll loop below are stated
    for the degrees as given, whatever their value. *)
Definition to_radians (gmst : Q) (x : Q) : Q := (- gmst + x) * Np.pi / 12.
Definition to_degrees (x : Q) : Q := x * 180 / Np.pi.

(** [np.where(ra_int < -180, ra_int + 360, ra_int)] and
    [np.where(ra_int > 180, ra_int - 360, ra_int)], on one entry. *)
Definition wrap_low (x : Q) : Q := Np.where_ (Np.ltb x (-180)) (x + 360) x.
Definition wrap_high (x : Q) : Q := Np.where_ (Np.ltb 180 x) (x - 360) x.
Definition wraparound (x : Q) : Q := wrap_high (wrap_low x).

(** The four assignments before the loop. *)
Definition shift_and_wrap (gmst : Q) (ra_int : grid) : grid :=
  map_grid wrap_high
    (map_grid wrap_low
       (map_grid to_degrees (map_grid (to_radians gmst) ra_int))).

(** How a run of the roll loop on [fuel] tests of its condition ends. *)
Inductive loop_result : Type :=
| Exits (ra_int prob_int : grid)
| Fails (e : exn)
| Running.

(** The test [ra_int[0,0]/ra_int[0,-1] > 0]. *)
Definition roll_test (ra_int : grid) : exn + bool :=
  match first_corner ra_int, last_corner ra_int with
  | Some a, Some b => inr (Np.gt0 (Np.div a b))
  | _, _ => inl (IndexError "ra_int[0,0]")
  end.

(** [while ra_int[0,0]/ra_int[0,-1] > 0:] roll [ra_int] and [prob_int]. *)
Fixpoint roll_loop (fuel : nat) (ra_int prob_int : grid) : loop_result :=
  match fuel with
  | O => Running
  | S fuel' =>
      match roll_test ra_int with
      | inl e => Fails e
      | inr true => roll_loop fuel' (roll ra_int) (roll prob_int)
      | inr false => Exits ra_int prob_int
      end
  end.

(** [ra_int *= -1] *)
Definition flip_sign (x : Q) : Q := x * -1.

(** ** The stages of one event *)

(** [get_event_num]: the last run of digits of the name. *)
Definition get_event_num (fname : string) : option nat :=
  head (Py.digit_runs None [] fname).

(** What the first lines of the loop body compute for a file. *)
Record event : Type := Event {
  enum : nat;
  gmst : Q;
  sky_data : sky_table;
  smap : list Q;
  pix_size : Q;
  prb68 : nat;
  prb95 : nat;
  prb99 : nat
}.

Definition lift {A} (r : exn + A) : M A :=
  match r with
  | inl e => raise e
  | inr a => ret a
  end.

(** Lines 220 to 235. [inj] is [None] when no injection file was given. *)
Definition vital_statistics (ext : externals) (inj : option (list Q))
    (filename : string) : M event :=
  do enum <- expect (get_event_num filename) (IndexError "m[-1]");
  print (ProcessingEvent enum);;
  do table <- expect inj (NameError "inj");
  do t <- expect (table !! enum) (IndexError "inj[enum]");
  let gmst := Np.mod_ (t / 3600) 24 in
  do '(sky_data, smap) <- lift (create_table ext filename);
  do ns <- expect (Healpy.npix2nside (length smap)) (ValueError "npix2nside");
  if Healpy.nside2pixarea_defined ns then
    let pix_size := Healpy.nside2pixarea ns in
    ret (Event enum gmst sky_data smap pix_size
           (searchsorted (cumul sky_data) (68 # 100))
           (searchsorted (cumul sky_data) Np.lit_0_95)
           (searchsorted (cumul sky_data) Np.lit_0_99))
  else raise (ZeroDivisionError "nside2pixarea").

(** [prb68 * pix_size] *)
Definition area68 (ev : event) : Q := region_area (prb68 ev) (pix_size ev).

(** Lines 237 to 241: the [continue] is commented out. *)
Definition nonconvergence_check (ev : event) : M unit :=
  if Np.ltb 64 (area68 ev) then
    print (PrintArea (area68 ev));;
    print (SkippingEvent (enum ev))
  else ret tt.

(** ["/".join(filename.split("/")[:-2]) + "/snr.txt"] *)
Definition snr_path (filename : string) : string :=
  let parts := Py.split "/" filename in
  Py.join "/" (take (length parts - 2) parts) ++ "/snr.txt".

(** One line of the SNR file, split at [":"] and stripped; [dict] accepts
    it only when it has two parts. *)
Definition snr_item (l : string) : option (string * string) :=
  match map Py.strip (Py.split ":" l) with
  | [k; v] => Some (k, v)
  | _ => None
  end.

(** [dict(...)] of the items: a later line overrides an earlier one. *)
Fixpoint snr_dict (d : gmap string string) (lines : list string)
    : option (gmap string string) :=
  match lines with
  | [] => Some d
  | l :: rest =>
      match snr_item l with
      | Some (k, v) => snr_dict (<[k := v]> d) rest
      | None => None
      end
  end.

(** [for k in snrs: snrs[k] = float(snrs[k])] *)
Definition float_values (ext : externals) (d : gmap string string)
    : option (gmap string Q) :=
  if bool_decide (map_Forall (fun _ v => is_Some (float_of_string ext v)) d)
  then Some (omap (float_of_string ext) d)
  else None.

(** Lines 242 to 248.  The path is expected to hold a text file. *)
Definition read_snr (ext : externals) (filename : string) : M (gmap string Q) :=
  do w <- get;
  match files w !! snr_path filename with
  | Some (TextFile lines) =>
      do strs <- expect (snr_dict ∅ lines) (ValueError "dict");
      do snrs <- expect (float_values ext strs) (ValueError "float");
      print (PrintSnrs snrs);;
      do network_snr <- expect (snrs !! "Network") (KeyError "Network");
      print (PrintNetwork network_snr);;
      ret snrs
  | Some _ => raise (ValueError "dict")
  | None => raise (IOError (snr_path filename))
  end.

(** Lines 251 to 255: [linecolor] is assigned under two quantities only;
    otherwise the module-level name keeps whatever it held. *)
Definition select_linecolor (cspecs : gmap string Plottable) (label : string)
    (ev : event) (snrs : gmap string Q) : M unit :=
  do cmap <- expect (cspecs !! label) (KeyError label);
  if bool_decide (quant cmap = Some "error_region") then
    do c <- lift (call_Plottable cmap (area68 ev));
    modify (set_linecolor c)
  else if bool_decide (quant cmap = Some "snr") then
    do network_snr <- expect (snrs !! "Network") (KeyError "Network");
    do c <- lift (call_Plottable cmap network_snr);
    modify (set_linecolor c)
  else ret tt.

(** [filename.replace("fits.gz", "intrp.npz")] *)
Definition cache_fname (filename : string) : string :=
  Py.replace "fits.gz" "intrp.npz" filename.

(** Where [np.savez(file, ...)] writes: it appends [".npz"] to a name that
    lacks it. *)
Definition savez_target (file : string) : string :=
  if Py.endswith ".npz" file then file else file ++ ".npz".

(** [np.savez(file, [ra_int, dec_int, prob_int])].  The write is taken to
    succeed: the directory of [file] exists and can be written. *)
Definition savez (file : string) (arr_0 : list grid) : M unit :=
  modify (set_files (insert (savez_target file) (NpzFile arr_0))).

(** [ra_int, dec_int, prob_int = dict(np.load(file))["arr_0"]] *)
Definition load_triple (file : string) : M (grid * grid * grid) :=
  do w <- get;
  match files w !! file with
  | Some (NpzFile [a; b; c]) => ret (a, b, c)
  | Some (NpzFile _) => raise (ValueError "unpack")
  | _ => raise (IOError file)
  end.

(** Lines 257 to 264, the interpolation cache. *)
Definition interpolated_map (ext : externals) (filename : string)
    (sky_data : sky_table) (smap : list Q) : M (grid * grid * grid) :=
  do w <- get;
  if bool_decide (is_Some (files w !! cache_fname filename)) then
    print (LoadingCached (cache_fname filename));;
    load_triple (cache_fname filename)
  else
    modify (log_kernel_call filename);;
    let '(ra_int, dec_int, prob_int) :=
      interpolate_healpix_map ext (ra sky_data) (dec sky_data) smap in
    savez (cache_fname filename) [ra_int; dec_int; prob_int];;
    ret (ra_int, dec_int, prob_int).

(** Lines 268 to 279: shift, wrap, roll, flip. *)
Definition rotate (fuel : nat) (gmst : Q) (ra_int prob_int : grid)
    : M (grid * grid) :=
  match roll_loop fuel (shift_and_wrap gmst ra_int) prob_int with
  | Exits ra_int' prob_int' => ret (map_grid flip_sign ra_int', prob_int')
  | Fails e => raise e
  | Running => fun _ => Spin
  end.

(** Line 283: the arguments are evaluated left to right, the level before
    the colour. *)
Definition draw_contour (ev : event) (ra_int dec_int prob_int : grid) : M unit :=
  do level <- expect (prob (sky_data ev) !! prb68 ev) (IndexError "prob[prb68]");
  do w <- get;
  do c <- expect (linecolor w) (NameError "linecolor");
  modify (add_contour (Contour ra_int dec_int prob_int level c)).

(** Lines 286 to 290 *)
Definition locate_peak (ra_int dec_int prob_int : grid) : M (Q * Q) :=
  do k <- expect (argmax prob_int) (ValueError "argmax");
  let max_indices := unravel_index k prob_int in
  do ra_max <- expect (at_index ra_int max_indices) (IndexError "ra_int");
  do dec_max <- expect (at_index dec_int max_indices) (IndexError "dec_int");
  ret (ra_max, dec_max).

(** Lines 303 and 304 *)
Definition emit (ext : externals) (network : list string) (label : string)
    (ev : event) (snrs : gmap string Q) (ra_max dec_max : Q) : M unit :=
  let antenna_pattern :=
    net_antenna_pattern_point ext (gmst ev) network ra_max dec_max in
  do network_snr <- expect (snrs !! "Network") (KeyError "Network");
  modify (append_record label (Aggregate (area68 ev) network_snr antenna_pattern)).

(** Line 310: [plt.savefig(fname)], an [IOError] when the file cannot be
    written. *)
Definition savefig (ext : externals) (fname : string) : M unit :=
  if can_save ext fname then modify (add_figure fname)
  else raise (IOError fname).

(** The body of the loop over the files of a label, lines 220 to 310. *)
Definition process_event (ext : externals) (network : list string)
    (inj : option (list Q)) (cspecs : gmap string Plottable) (fuel : nat)
    (label filename : string) : M unit :=
  do ev <- vital_statistics ext inj filename;
  nonconvergence_check ev;;
  do snrs <- read_snr ext filename;
  select_linecolor cspecs label ev snrs;;
  do '(ra_int, dec_int, prob_int) <-
    interpolated_map ext filename (sky_data ev) (smap ev);
  do '(ra_int, prob_int) <- rotate fuel (gmst ev) ra_int prob_int;
  let '(ra_int, dec_int) := basemap ext ra_int dec_int in
  draw_contour ev ra_int dec_int prob_int;;
  do '(ra_max, dec_max) <- locate_peak ra_int dec_int prob_int;
  emit ext network label ev snrs ra_max dec_max;;
  savefig ext "test_map.png".

(** The loop over the path specifications, lines 211 to 310; [pspecs]
    lists the items of the dictionary in the order the loop meets them. *)
Definition event_loop (ext : externals) (network : list string)
    (inj : option (list Q)) (cspecs : gmap string Plottable) (fuel : nat)
    (pspecs : list (string * string)) : M unit :=
  for_each pspecs (fun '(label, globpat) =>
    print (PrintLabel label globpat);;
    let found := glob ext globpat in
    print (Globbed (length found) globpat);;
    for_each found (process_event ext network inj cspecs fuel label)).

(** ** A small concrete run, for the examples below *)

Module Toy.

(** Decimal digits only. *)
Definition float_of_digits (s : string) : option Q :=
  match s with
  | EmptyString => None
  | _ =>
      if forallb Py.is_digit (list_ascii_of_string s)
      then (fun n => inject_Z (Z.of_nat n)) <$> head (Py.digit_runs None [] s)
      else None
  end.

(** A map of twelve pixels; the first pixel holds half of the mass. *)
Definition wide : sky_table :=
  SkyTable [5 # 10; 9 # 10; 1; 1; 1; 1; 1; 1; 1; 1; 1; 1]%Q
           [5 # 10; 4 # 10; 1 # 10; 0; 0; 0; 0; 0; 0; 0; 0; 0]%Q
           [0; 6; 12; 18; 0; 6; 12; 18; 0; 6; 12; 18]%Q
           [-45; -45; -45; -45; 0; 0; 0; 0; 45; 45; 45; 45]%Q.

Definition smap12 : list Q :=
  [5 # 10; 4 # 10; 1 # 10; 0; 0; 0; 0; 0; 0; 0; 0; 0]%Q.

(** The interpolated grid: two rows of four columns, RA in hours. *)
Definition ra_grid : grid := [[0; 6; 12; 18]; [0; 6; 12; 18]]%Q.
Definition dec_grid : grid := [[-45; -45; -45; -45]; [45; 45; 45; 45]]%Q.
Definition prob_grid : grid :=
  [[1 # 10; 2 # 10; 5 # 100; 5 # 100]; [1 # 10; 3 # 10; 1 # 10; 1 # 10]]%Q.

(** A projection that is not the identity: degrees to map units, with
    the origin in the lower left corner. *)
Definition project (ra_int dec_int : grid) : grid * grid :=
  (map_grid (fun x => (x + 180) * 1000)%Q ra_int,
   map_grid (fun y => (y + 90) * 1000)%Q dec_int).

Definition ext : externals := {|
  create_table := fun _ => inr (wide, smap12);
  interpolate_healpix_map := fun _ _ _ => (ra_grid, dec_grid, prob_grid);
  net_antenna_pattern_point := fun t _ x y => (t + x / 1000 + y / 1000000)%Q;
  basemap := project;
  float_of_string := float_of_digits;
  is_cmap := fun name => String.eqb name "viridis";
  glob := fun globpat =>
    if String.eqb globpat "hlv/*/post/*.fits.gz"
    then ["hlv/0/post/0.fits.gz"; "hlv/1/post/1.fits.gz"]
    else if String.eqb globpat "hklv/*/post/*.fits.gz"
    then ["hklv/1/post/1.fits.gz"]
    else [];
  can_save := fun _ => true
|}.

Definition network : list string := ["H1"; "K1"; "L1"; "V1"].

(** Geocentric end times of the injections 0 and 1: three and nine
    hours. *)
Definition inj : option (list Q) := Some [10800; 32400]%Q.

Definition snr_file : file := TextFile ["H1: 9"; "L1: 8"; "Network: 12"].

Definition empty_world (fs : gmap string file) : world :=
  World fs None ∅ [] [] [] [].

(** Both events of [hlv] have their SNR file. *)
Definition disk : gmap string file :=
  <["hlv/0/snr.txt" := snr_file]>
  (<["hlv/1/snr.txt" := snr_file]>
  (<["hklv/1/snr.txt" := snr_file]>
  (<["hlv/0/post/0.fits.gz" := MapFile]>
  (<["hlv/1/post/1.fits.gz" := MapFile]>
  (<["hklv/1/post/1.fits.gz" := MapFile]> ∅))))).

(** The SNR file of event 0 is missing. *)
Definition disk_without_snr0 : gmap string file := delete "hlv/0/snr.txt" disk.

Definition cspecs_of (specs : list string) : gmap string Plottable :=
  match parse_colorspecs ext specs with
  | inr d => d
  | inl _ => ∅
  end.

(** [hlv] is coloured by SNR, [hklv] has a bare colour. *)
Definition cspecs : gmap string Plottable :=
  cspecs_of ["hlv=snr,viridis"; "hklv=yellow"].

Definition pspecs : list (string * string) :=
  [("hlv", "hlv/*/post/*.fits.gz"); ("hklv", "hklv/*/post/*.fits.gz")].

(** What the first lines of the loop body make of event 0. *)
Definition event0 : event :=
  Event 0 (Np.mod_ (10800 / 3600) 24) wide smap12 (Healpy.nside2pixarea 1) 1 2 2.

(** The world an outcome ends in. *)
Definition final_world {A} (o : outcome A) : world :=
  match o with
  | Done _ w => w
  | Raise _ w => w
  | Spin => empty_world ∅
  end.

Definition raised {A} (o : outcome A) : option exn :=
  match o with
  | Raise e _ => Some e
  | _ => None
  end.

(** The value an outcome returns, the two grids a run of the roll loop
    exits with. *)
Definition result {A} (otherwise : A) (o : outcome A) : A :=
  match o with
  | Done a _ => a
  | _ => otherwise
  end.

Definition rolled_ra (r : loop_result) : grid :=
  match r with
  | Exits ra_int _ => ra_int
  | _ => []
  end.

Definition rolled_prob (r : loop_result) : grid :=
  match r with
  | Exits _ prob_int => prob_int
  | _ => []
  end.

(** Event 0 of [hlv], processed first, on a full disk. *)
Definition run_event0 : outcome unit :=
  process_event ext network inj cspecs 8 "hlv" "hlv/0/post/0.fits.gz"
    (empty_world disk).

(** The event of [hklv], processed first: no event has assigned
    [linecolor] yet. *)
Definition run_hklv_first : outcome unit :=
  process_event ext network inj cspecs 8 "hklv" "hklv/1/post/1.fits.gz"
    (empty_world disk).

(** The whole loop on a full disk, and on the disk without the SNR file
    of event 0. *)
Definition run_all : outcome unit :=
  event_loop ext network inj cspecs 8 pspecs (empty_world disk).

Definition run_without_snr0 : outcome unit :=
  event_loop ext network inj cspecs 8 pspecs (empty_world disk_without_snr0).

End Toy.

(** ** Rows the rotation claims speak of *)

(** A row with an entry that is not positive and one that is not negative:
    after the wraparound, a row that reaches both sides of zero. *)
Definition straddles_zero (row : list Q) : Prop :=
  (exists x, In x row /\ (x <= 0)%Q) /\ (exists y, In y row /\ (0 <= y)%Q).

(** A row that mirrors itself with the sign changed. *)
Definition antisymmetric (row : list Q) : Prop :=
  Forall2 Qeq row (map Qopp (rev row)).

(** [n] evenly spaced values from -180 up to, not including, 180, moved
    by [offset] and wrapped. *)
Definition ramp (n : nat) (offset : Q) : list Q :=
  map (fun j => wraparound (-180 + 360 * inject_Z (Z.of_nat j) / inject_Z (Z.of_nat n) + offset))
      (seq 0 n).

(** ** What the credible-region claims speak of *)

(** The check that a sequence is non-decreasing, pair by pair. *)
Fixpoint is_nondecreasing (arr : list Q) : bool :=
  match arr with
  | [] => true
  | x :: t =>
      match t with
      | [] => true
      | y :: _ => Qle_bool x y && is_nondecreasing t
      end
  end.

(** The areas of the three credible regions of an event, and the area of
    all its pixels. *)
Definition area95 (ev : event) : Q := region_area (prb95 ev) (pix_size ev).
Definition area99 (ev : event) : Q := region_area (prb99 ev) (pix_size ev).
Definition total_sky_area (ev : event) : Q :=
  region_area (length (smap ev)) (pix_size ev).

(** ** Path specifications *)

(** [parse_pathspecs]: the dictionary built so far is [out].  The colormap
    lookup of the source is tried and its result dropped; what is stored
    is the text after the ["="]. *)
Fixpoint parse_pathspecs_from (out : gmap string string) (pspecs : list string)
    : exn + gmap string string :=
  match pspecs with
  | [] => inr out
  | ps :: rest =>
      match Py.split "=" ps with
      | [label; cmap] => parse_pathspecs_from (<[label := cmap]> out) rest
      | _ => inl (ValueError "unpack")
      end
  end.

Definition parse_pathspecs (pspecs : list string) : exn + gmap string string :=
  parse_pathspecs_from ∅ pspecs.

(** ** What the further properties speak of *)

(** [s.count(c)] for one character. *)
Fixpoint count_char (c : ascii) (s : string) : nat :=
  match s with
  | EmptyString => 0
  | String a s' => (if Ascii.eqb a c then 1 else 0) + count_char c s'
  end.

(** [old in s] *)
Fixpoint contains (old s : string) : bool :=
  String.prefix old s ||
  match s with
  | EmptyString => false
  | String _ s' => contains old s'
  end.

(** Whether a name has a decimal digit. *)
Fixpoint has_digit (s : string) : bool :=
  match s with
  | EmptyString => false
  | String c s' => Py.is_digit c || has_digit s'
  end.

(** A step of the script that relates the world it ends in to the world it
    started from, however it ends. *)
Definition preserves {A} (R : world -> world -> Prop) (m : M A) : Prop :=
  forall w,
    match m w with
    | Done _ w' => R w w'
    | Raise _ w' => R w w'
    | Spin => True
    end.

(** The records are the same. *)
Definition same_records (w w' : world) : Prop :=
  config_information w' = config_information w.

(** A bound [linecolor] stays bound. *)
Definition linecolor_stays_bound (w w' : world) : Prop :=
  is_Some (linecolor w) -> is_Some (linecolor w').

(** A step that, started with [linecolor] bound, leaves it bound when it
    ends well and does not fail on the unbound name. *)
Definition never_unbound {A} (m : M A) : Prop :=
  forall w, is_Some (linecolor w) ->
    match m w with
    | Done _ w' => is_Some (linecolor w')
    | Raise e _ => e <> NameError "linecolor"
    | Spin => True
    end.

(** The toy run where the figure cannot be written. *)
Definition ext_without_savefig : externals :=
  Externals (create_table Toy.ext) (interpolate_healpix_map Toy.ext)
            (net_antenna_pattern_point Toy.ext) (basemap Toy.ext)
            (float_of_string Toy.ext) (is_cmap Toy.ext) (glob Toy.ext)
            (fun _ => false).

(** A second event of the toy run, for the examples: the first pixel holds
    seven tenths of the mass. *)
Definition narrow : sky_table :=
  SkyTable [7 # 10; 9 # 10; 1; 1; 1; 1; 1; 1; 1; 1; 1; 1]%Q
           [7 # 10; 2 # 10; 1 # 10; 0; 0; 0; 0; 0; 0; 0; 0; 0]%Q
           [0; 6; 12; 18; 0; 6; 12; 18; 0; 6; 12; 18]%Q
           [-45; -45; -45; -45; 0; 0; 0; 0; 45; 45; 45; 45]%Q.

(** * Properties *)

(** ** Numbers *)

Lemma ltb_spec (x y : Q) : Np.ltb x y = true <-> (x < y)%Q.
Proof. unfold Np.ltb, Qlt. apply Z.ltb_lt. Qed.

Lemma ltb_false (x y : Q) : Np.ltb x y = false <-> (y <= x)%Q.
Proof. unfold Np.ltb, Qle. apply Z.ltb_ge. Qed.

Lemma eqb_spec (x y : Q) : Np.eqb x y = true <-> (x == y)%Q.
Proof. apply Qeq_bool_iff. Qed.

Lemma eqb_false (x y : Q) : Np.eqb x y = false <-> ~ (x == y)%Q.
Proof.
  unfold Np.eqb. split.
  - intros H E. apply Qeq_bool_iff in E. congruence.
  - intros H. destruct (Qeq_bool x y) eqn:E; [|reflexivity].
    apply Qeq_bool_iff in E. contradiction.
Qed.

(** The loop test [x / y > 0] in terms of the signs of [x] and [y]. *)
Lemma ratio_positive_iff (x y : Q) :
  Np.gt0 (Np.div x y) = true <->
  ((0 < x /\ 0 <= y) \/ (x < 0 /\ y < 0))%Q.
Proof.
  unfold Np.div.
  destruct (Np.eqb y 0) eqn:Ey.
  - apply eqb_spec in Ey.
    destruct (Np.ltb 0 x) eqn:E1; simpl.
    + apply ltb_spec in E1. split; [intros _; left; split; lra | trivial].
    + apply ltb_false in E1.
      destruct (Np.ltb x 0) eqn:E2; simpl; split; try discriminate;
        intros [[? ?]|[? ?]]; lra.
  - apply eqb_false in Ey. simpl. rewrite ltb_spec.
    split.
    + intros H.
      destruct (Qlt_le_dec 0 y) as [Hy|Hy].
      * left. split; [|lra].
        assert (0 < (x / y) * y)%Q by (apply Qmult_lt_0_compat; assumption).
        assert (((x / y) * y) == x)%Q by (field; assumption).
        lra.
      * right. assert (Hy' : (y < 0)%Q) by (apply Qle_lteq in Hy; tauto).
        split; [|assumption].
        assert (0 < (x / y) * (- y))%Q by (apply Qmult_lt_0_compat; lra).
        assert (((x / y) * (- y)) == - x)%Q by (field; assumption).
        lra.
    + intros [[Hx Hy]|[Hx Hy]].
      * apply Qlt_shift_div_l; lra.
      * assert (x / y == (- x) / (- y))%Q by (field; lra).
        rewrite H. apply Qlt_shift_div_l; lra.
Qed.

(** The doubles from one half on are multiples of 2^-53, and none of them
    lies between [68 / 100] and the double [0.68]: below one half, and
    from one on, a number is on the same side of both. *)
Lemma lit_0_68_among_doubles (m : Z) :
  (m # 9007199254740992 < 68 # 100)%Q <-> (m # 9007199254740992 < Np.lit_0_68)%Q.
Proof. unfold Np.lit_0_68, Qlt. simpl. lia. Qed.

(** The doubles [0.95] and [0.99] lie below the fractions: a cumulative
    probability that is the double [0.95] itself has reached the target
    of the 95% search. *)
Lemma literals_below_their_fractions :
  (Np.lit_0_95 < 95 # 100)%Q /\ (Np.lit_0_99 < 99 # 100)%Q /\
  searchsorted [1 # 2; Np.lit_0_95; 1]%Q Np.lit_0_95 = 1%nat /\
  searchsorted [1 # 2; Np.lit_0_95; 1]%Q (95 # 100) = 2%nat.
Proof. repeat split; reflexivity. Qed.

(** ** The wraparound *)

Lemma wraparound_below (x : Q) : (x < -180)%Q -> wraparound x = (x + 360)%Q.
Proof.
  intros H. unfold wraparound, wrap_low, wrap_high, Np.where_.
  assert (E1 : Np.ltb x (-180) = true) by (apply ltb_spec; exact H).
  rewrite E1.
  assert (E2 : Np.ltb 180 (x + 360) = false) by (apply ltb_false; lra).
  rewrite E2. reflexivity.
Qed.

Lemma wraparound_above (x : Q) : (180 < x)%Q -> wraparound x = (x - 360)%Q.
Proof.
  intros H. unfold wraparound, wrap_low, wrap_high, Np.where_.
  assert (E1 : Np.ltb x (-180) = false) by (apply ltb_false; lra).
  rewrite E1.
  assert (E2 : Np.ltb 180 x = true) by (apply ltb_spec; exact H).
  rewrite E2. reflexivity.
Qed.

Lemma wraparound_inside (x : Q) : (-180 <= x <= 180)%Q -> wraparound x = x.
Proof.
  intros [H1 H2]. unfold wraparound, wrap_low, wrap_high, Np.where_.
  assert (E1 : Np.ltb x (-180) = false) by (apply ltb_false; lra).
  rewrite E1.
  assert (E2 : Np.ltb 180 x = false) by (apply ltb_false; lra).
  rewrite E2. reflexivity.
Qed.

(** The three cases of [wraparound], by the position of its argument. *)
Lemma wraparound_cases (x : Q) :
  ((x < -180)%Q /\ wraparound x = (x + 360)%Q) \/
  ((-180 <= x <= 180)%Q /\ wraparound x = x) \/
  ((180 < x)%Q /\ wraparound x = (x - 360)%Q).
Proof.
  destruct (Qlt_le_dec x (-180)) as [H|H].
  - left. split; [exact H | apply wraparound_below; exact H].
  - destruct (Qlt_le_dec 180 x) as [H'|H'].
    + right; right. split; [exact H' | apply wraparound_above; exact H'].
    + right; left. split; [split; assumption | apply wraparound_inside; split; assumption].
Qed.

Lemma map_grid_map_grid (f g : Q -> Q) (a : grid) :
  map_grid f (map_grid g a) = map_grid (fun x => f (g x)) a.
Proof.
  unfold map_grid. rewrite List.map_map.
  apply List.map_ext. intros row. apply List.map_map.
Qed.

Lemma shift_and_wrap_entrywise (gmst : Q) (ra_int : grid) :
  shift_and_wrap gmst ra_int =
  map_grid (fun x => wraparound (to_degrees (to_radians gmst x))) ra_int.
Proof.
  unfold shift_and_wrap. rewrite !map_grid_map_grid. reflexivity.
Qed.

(** C8, as the specification words it, fails at -180 itself: the value is
    within a turn of the range, is below neither bound, and stays -180,
    which the half-open range (-180, 180] leaves out. *)
Lemma wraparound_keeps_minus_180 :
  (-540 < -180 <= 540)%Q /\
  wraparound (-180) = (-180)%Q /\
  ~ (-180 < wraparound (-180) <= 180)%Q.
Proof.
  split; [lra|].
  split; [reflexivity|].
  intros [H _]. vm_compute in H. discriminate.
Qed.

(** C8, amended: every entry of the shifted grid goes through
    [wraparound]; a value below -180 degrees is moved up by 360, a value
    above 180 degrees is moved down by 360, a value in between is kept;
    a value within one turn of the range lands in the closed range
    [-180, 180], and in (-180, 180] unless it is -180 itself. *)
Theorem wraparound_normalizes (gmst : Q) (ra_int : grid) (x : Q) :
  shift_and_wrap gmst ra_int =
    map_grid (fun r => wraparound (to_degrees (to_radians gmst r))) ra_int /\
  ((x < -180)%Q -> wraparound x = (x + 360)%Q) /\
  ((180 < x)%Q -> wraparound x = (x - 360)%Q) /\
  ((-180 <= x <= 180)%Q -> wraparound x = x) /\
  ((-540 <= x <= 540)%Q -> (-180 <= wraparound x <= 180)%Q) /\
  ((-540 < x <= 540)%Q -> ~ (x == -180)%Q -> (-180 < wraparound x <= 180)%Q).
Proof.
  split; [apply shift_and_wrap_entrywise|].
  split; [apply wraparound_below|].
  split; [apply wraparound_above|].
  split; [apply wraparound_inside|].
  split.
  - intros [H1 H2].
    destruct (wraparound_cases x) as [[H E]|[[H E]|[H E]]]; rewrite E; lra.
  - intros [H1 H2] Hne.
    destruct (wraparound_cases x) as [[H E]|[[H E]|[H E]]]; rewrite E; lra.
Qed.

(** The amended C8 at a grid of one entry and at 190 degrees. *)
Lemma wraparound_normalizes_witness :
  wraparound 190 = (190 - 360)%Q /\ (-180 < wraparound 190 <= 180)%Q.
Proof.
  destruct (wraparound_normalizes 3 [[16%Q]] 190) as (_ & _ & Habove & _ & _ & Hin).
  split.
  - apply Habove. reflexivity.
  - apply Hin.
    + split; [reflexivity | discriminate].
    + discriminate.
Defined.

(** ** The roll loop *)

Lemma length_roll_row (row : list Q) : length (roll_row row) = length row.
Proof.
  destruct row as [|x t]; [reflexivity|].
  simpl. rewrite length_app. simpl. lia.
Qed.

Lemma length_iter_roll_row (k : nat) (row : list Q) :
  length (Nat.iter k roll_row row) = length row.
Proof.
  induction k as [|k IH]; [reflexivity|].
  simpl. rewrite length_roll_row. exact IH.
Qed.

(** Rolling as often as the prefix is long brings the suffix to the
    front. *)
Lemma iter_roll_row_app (a b : list Q) :
  Nat.iter (length a) roll_row (a ++ b) = b ++ a.
Proof.
  revert b. induction a as [|x a IH]; intros b.
  - simpl. rewrite app_nil_r. reflexivity.
  - change (length (x :: a)) with (S (length a)).
    rewrite Nat.iter_succ_r. simpl.
    rewrite <- app_assoc. rewrite IH. rewrite <- app_assoc. reflexivity.
Qed.

(** A full turn of rolls gives the row back. *)
Lemma iter_roll_row_full (row : list Q) :
  Nat.iter (length row) roll_row row = row.
Proof.
  pose proof (iter_roll_row_app row []) as H.
  rewrite app_nil_r in H. exact H.
Qed.

Lemma iter_roll_cons (k : nat) (row : list Q) (rest : grid) :
  Nat.iter k roll (row :: rest) =
  Nat.iter k roll_row row :: Nat.iter k roll rest.
Proof.
  induction k as [|k IH]; [reflexivity|].
  simpl. rewrite IH. reflexivity.
Qed.

(** The test reads the first row only. *)
Lemma roll_test_first_row (row : list Q) (rest : grid) :
  roll_test (row :: rest) = roll_test [row].
Proof. reflexivity. Qed.

Lemma roll_test_defined (row : list Q) (rest : grid) :
  row <> [] -> exists b, roll_test (row :: rest) = inr b.
Proof.
  intros Hne. unfold roll_test. simpl.
  destruct row as [|x t]; [contradiction|]. simpl.
  destruct (last (x :: t)) as [y|] eqn:E.
  - eexists. reflexivity.
  - apply last_None in E. discriminate.
Qed.

Lemma roll_test_iter_defined (k : nat) (row : list Q) (rest : grid) :
  row <> [] -> exists b, roll_test (Nat.iter k roll (row :: rest)) = inr b.
Proof.
  intros Hne. rewrite iter_roll_cons. apply roll_test_defined.
  intros E. apply (f_equal (@length Q)) in E.
  rewrite length_iter_roll_row in E. destruct row; [contradiction | discriminate].
Qed.

(** What the test says of the two corners. *)
Lemma roll_test_corners (row : list Q) (rest : grid) (a b : Q) :
  head row = Some a -> last row = Some b ->
  roll_test (row :: rest) = inr (Np.gt0 (Np.div a b)).
Proof. intros Ha Hb. unfold roll_test. simpl. rewrite Ha, Hb. reflexivity. Qed.

(** If the test fails after [k0] rolls, the loop exits after at most [k0]
    rolls, at the first roll count at which the test fails. *)
Lemma roll_loop_exits_within (k0 : nat) :
  forall ra_int prob_int,
    (forall j, (j <= k0)%nat -> exists b, roll_test (Nat.iter j roll ra_int) = inr b) ->
    roll_test (Nat.iter k0 roll ra_int) = inr false ->
    exists k, (k <= k0)%nat /\
      roll_test (Nat.iter k roll ra_int) = inr false /\
      forall fuel, (k < fuel)%nat ->
        roll_loop fuel ra_int prob_int =
        Exits (Nat.iter k roll ra_int) (Nat.iter k roll prob_int).
Proof.
  induction k0 as [|k0 IH]; intros ra_int prob_int Hdef Hexit.
  - exists 0%nat. split; [lia|]. split; [exact Hexit|].
    intros fuel Hfuel. destruct fuel as [|fuel]; [lia|].
    simpl in *. rewrite Hexit. reflexivity.
  - destruct (Hdef 0%nat ltac:(lia)) as [b Hb]. simpl in Hb.
    destruct b.
    + destruct (IH (roll ra_int) (roll prob_int)) as (k & Hk & Htest & Hloop).
      * intros j Hj. rewrite <- Nat.iter_succ_r. apply Hdef. lia.
      * rewrite <- Nat.iter_succ_r. exact Hexit.
      * exists (S k). split; [lia|].
        rewrite !Nat.iter_succ_r. split; [exact Htest|].
        intros fuel Hfuel. destruct fuel as [|fuel]; [lia|].
        simpl. rewrite Hb. apply Hloop. lia.
    + exists 0%nat. split; [lia|]. split; [exact Hb|].
      intros fuel Hfuel. destruct fuel as [|fuel]; [lia|].
      simpl. rewrite Hb. reflexivity.
Qed.

(** A loop whose test never fails is still running, whatever the fuel. *)
Lemma roll_loop_running (fuel : nat) :
  forall ra_int prob_int,
    (forall j, roll_test (Nat.iter j roll ra_int) = inr true) ->
    roll_loop fuel ra_int prob_int = Running.
Proof.
  induction fuel as [|fuel IH]; intros ra_int prob_int Hall; [reflexivity|].
  pose proof (Hall 0%nat) as H0. simpl in H0.
  simpl. rewrite H0. apply IH.
  intros j. rewrite <- Nat.iter_succ_r. apply Hall.
Qed.

(** The test has the period of the row. *)
Lemma roll_test_periodic (j : nat) (row : list Q) (rest : grid) :
  roll_test (Nat.iter (j + length row) roll (row :: rest)) =
  roll_test (Nat.iter j roll (row :: rest)).
Proof.
  rewrite !iter_roll_cons, roll_test_first_row.
  rewrite (roll_test_first_row (Nat.iter j roll_row row)).
  rewrite Nat.iter_add, iter_roll_row_full. reflexivity.
Qed.

Lemma roll_test_always (row : list Q) (rest : grid) :
  row <> [] ->
  (forall j, (j < length row)%nat ->
     roll_test (Nat.iter j roll (row :: rest)) = inr true) ->
  forall j, roll_test (Nat.iter j roll (row :: rest)) = inr true.
Proof.
  intros Hne Hfirst j.
  induction j as [j IH] using lt_wf_ind.
  destruct (Nat.lt_ge_cases j (length row)) as [Hlt|Hge].
  - apply Hfirst. exact Hlt.
  - replace j with ((j - length row) + length row)%nat by lia.
    rewrite roll_test_periodic. apply IH.
    destruct row; [contradiction|]. simpl in *. lia.
Qed.

(** In a row that starts outside a class [p] and has an entry inside it,
    some entry outside [p] is followed by one inside. *)
Lemma first_switch (p : Q -> bool) :
  forall (t : list Q) (x : Q),
    p x = false -> (exists e, In e t /\ p e = true) ->
    exists a y e b,
      x :: t = (a ++ [y]) ++ e :: b /\ p y = false /\ p e = true.
Proof.
  induction t as [|e1 t IH]; intros x Hx [e [Hin He]].
  - destruct Hin.
  - destruct (p e1) eqn:E1.
    + exists [], x, e1, t. simpl. auto.
    + destruct (IH e1 E1) as (a & y & e' & b & Heq & Hy & He').
      * destruct Hin as [->|Hin]; [congruence|]. exists e. auto.
      * exists (x :: a), y, e', b. simpl. rewrite Heq. auto.
Qed.

(** A row that straddles zero has a rotation at which the test fails. *)
Lemma straddling_row_has_exit (row : list Q) (rest : grid) :
  straddles_zero row ->
  exists k, (k < length row)%nat /\
    roll_test (Nat.iter k roll (row :: rest)) = inr false.
Proof.
  intros [[lo [Hlo Hlo0]] [hi [Hhi Hhi0]]].
  destruct row as [|x t]; [destruct Hlo|].
  assert (Hsplit : forall a y e b,
    x :: t = (a ++ [y]) ++ e :: b ->
    Np.gt0 (Np.div e y) = false ->
    exists k, (k < length (x :: t))%nat /\
      roll_test (Nat.iter k roll ((x :: t) :: rest)) = inr false).
  { intros a y e b Heq Hfalse.
    exists (length (a ++ [y])). split.
    - rewrite Heq, !length_app. simpl. lia.
    - rewrite iter_roll_cons, Heq, iter_roll_row_app.
      erewrite roll_test_corners; [rewrite Hfalse; reflexivity | reflexivity |].
      change (e :: b) with ([e] ++ b). rewrite !app_assoc. apply last_snoc. }
  destruct (Qlt_le_dec 0 x) as [Hpos|Hnonpos].
  - (* the row starts positive: take the first entry that is not *)
    destruct (first_switch (fun e => negb (Np.ltb 0 e)) t x) as (a & y & e & b & Heq & Hy & He).
    + apply negb_false_iff, ltb_spec. exact Hpos.
    + exists lo. split.
      * destruct Hlo as [->|Hlo]; [lra | exact Hlo].
      * apply negb_true_iff, ltb_false. exact Hlo0.
    + apply (Hsplit a y e b Heq).
      apply negb_false_iff, ltb_spec in Hy. apply negb_true_iff, ltb_false in He.
      destruct (Np.gt0 (Np.div e y)) eqn:E; [|reflexivity].
      apply ratio_positive_iff in E. lra.
  - destruct (Qlt_le_dec x 0) as [Hneg|Hnonneg].
    + (* the row starts negative: take the first entry that is not *)
      destruct (first_switch (fun e => negb (Np.ltb e 0)) t x) as (a & y & e & b & Heq & Hy & He).
      * apply negb_false_iff, ltb_spec. exact Hneg.
      * exists hi. split.
        -- destruct Hhi as [->|Hhi]; [lra | exact Hhi].
        -- apply negb_true_iff, ltb_false. exact Hhi0.
      * apply (Hsplit a y e b Heq).
        apply negb_false_iff, ltb_spec in Hy. apply negb_true_iff, ltb_false in He.
        destruct (Np.gt0 (Np.div e y)) eqn:E; [|reflexivity].
        apply ratio_positive_iff in E. lra.
    + (* the row starts at zero: the test fails at once *)
      exists 0%nat. split; [simpl; lia|]. simpl.
      destruct (last (x :: t)) as [y|] eqn:E.
      * erewrite roll_test_corners; [|reflexivity|exact E].
        destruct (Np.gt0 (Np.div x y)) eqn:E'; [|reflexivity].
        apply ratio_positive_iff in E'. lra.
      * apply last_None in E. discriminate.
Qed.

(** The corners of a state in which the test fails. *)
Lemma failed_test_corners (ra_int : grid) :
  roll_test ra_int = inr false ->
  exists a b, first_corner ra_int = Some a /\ last_corner ra_int = Some b /\
    ((a == 0)%Q \/ (a < 0 /\ 0 <= b)%Q \/ (0 < a /\ b < 0)%Q).
Proof.
  unfold roll_test.
  destruct (first_corner ra_int) as [a|]; [|discriminate].
  destruct (last_corner ra_int) as [b|]; [|discriminate].
  intros H. exists a, b. split; [reflexivity|]. split; [reflexivity|].
  assert (Hn : ~ ((0 < a /\ 0 <= b) \/ (a < 0 /\ b < 0))%Q).
  { intros Hp. apply ratio_positive_iff in Hp. congruence. }
  destruct (Qlt_le_dec 0 a) as [Ha|Ha].
  - right; right. split; [exact Ha|].
    destruct (Qlt_le_dec b 0); [assumption|]. exfalso. apply Hn. left. split; assumption.
  - destruct (Qlt_le_dec a 0) as [Ha'|Ha'].
    + right; left. split; [exact Ha'|].
      destruct (Qlt_le_dec b 0); [|assumption]. exfalso. apply Hn. right. split; assumption.
    + left. lra.
Qed.

(** ** Ramps *)

Section Steps.

(** A sequence that climbs by a fixed positive step. *)
Variable u : nat -> Q.
Variable s : Q.
Hypothesis s_pos : (0 < s)%Q.
Hypothesis u_step : forall j, (u (S j) == u j + s)%Q.

(** It cannot jump over a half-open window as wide as the step. *)
Lemma lands_in_window_left (c : Q) (m : nat) :
  (u 0%nat <= c)%Q -> (c <= u m)%Q ->
  exists j, (j <= m)%nat /\ (c <= u j)%Q /\ (u j < c + s)%Q.
Proof.
  intros H0. induction m as [|m IH]; intros Hm.
  - exists 0%nat. split; [lia|]. split; lra.
  - destruct (Qlt_le_dec (u m) c) as [Hlt|Hge].
    + exists (S m). split; [lia|]. pose proof (u_step m). split; lra.
    + destruct (IH Hge) as (j & Hj & H1 & H2).
      exists j. split; [lia|]. split; assumption.
Qed.

Lemma lands_in_window_right (c : Q) (m : nat) :
  (u 0%nat <= c)%Q -> (c < u m)%Q ->
  exists j, (j <= m)%nat /\ (c < u j)%Q /\ (u j <= c + s)%Q.
Proof.
  intros H0. induction m as [|m IH]; intros Hm.
  - lra.
  - destruct (Qlt_le_dec c (u m)) as [Hlt|Hge].
    + destruct (IH Hlt) as (j & Hj & H1 & H2).
      exists j. split; [lia|]. split; assumption.
    + exists (S m). split; [lia|]. pose proof (u_step m). split; lra.
Qed.

Lemma climbs (m : nat) : (u m == u 0%nat + inject_Z (Z.of_nat m) * s)%Q.
Proof.
  induction m as [|m IH].
  - simpl. unfold inject_Z. ring.
  - rewrite u_step, IH, Nat2Z.inj_succ. unfold Z.succ.
    rewrite inject_Z_plus. ring.
Qed.

End Steps.

Lemma ramp_step (N J offset : Q) :
  ~ (N == 0)%Q ->
  (-180 + 360 * (J + 1) / N + offset == -180 + 360 * J / N + offset + 360 / N)%Q.
Proof. intros HN. field. exact HN. Qed.

Lemma ramp_start (N offset : Q) :
  ~ (N == 0)%Q -> (-180 + 360 * 0 / N + offset == offset - 180)%Q.
Proof. intros HN. field. exact HN. Qed.

Lemma ramp_end (N offset : Q) :
  ~ (N == 0)%Q ->
  (offset - 180 + (N + -1) * (360 / N) == offset + 180 - 360 / N)%Q.
Proof. intros HN. field. exact HN. Qed.

(** The value the ramp wraps at position [j]. *)
Lemma ramp_entry (n : nat) (offset : Q) (j : nat) :
  (j < n)%nat ->
  In (wraparound (-180 + 360 * inject_Z (Z.of_nat j) / inject_Z (Z.of_nat n) + offset))
     (ramp n offset).
Proof.
  intros Hj. unfold ramp.
  apply (List.in_map (fun j => wraparound (-180 + 360 * inject_Z (Z.of_nat j) / inject_Z (Z.of_nat n) + offset))).
  apply List.in_seq. lia.
Qed.

(** A ramp of two values or more, moved by at most a turn, reaches both
    sides of zero. *)
Lemma ramp_straddles_zero (n : nat) (offset : Q) :
  (2 <= n)%nat -> (-360 <= offset <= 360)%Q -> straddles_zero (ramp n offset).
Proof.
  intros Hn [Hlo Hhi].
  set (N := inject_Z (Z.of_nat n)).
  set (u := fun j : nat => (-180 + 360 * inject_Z (Z.of_nat j) / N + offset)%Q).
  set (s := (360 / N)%Q).
  assert (HN : (2 <= N)%Q).
  { unfold N. change 2%Q with (inject_Z 2). rewrite <- Zle_Qle. lia. }
  assert (Hs : (0 < s)%Q) by (unfold s; apply Qlt_shift_div_l; lra).
  assert (Hs' : (s <= 180)%Q) by (unfold s; apply Qle_shift_div_r; lra).
  assert (Hstep : forall j, (u (S j) == u j + s)%Q).
  { intros j. unfold u, s. rewrite Nat2Z.inj_succ. unfold Z.succ.
    rewrite inject_Z_plus. apply ramp_step. lra. }
  assert (H0 : (u 0%nat == offset - 180)%Q).
  { unfold u. apply ramp_start. lra. }
  assert (Hlast : (u (n - 1)%nat == offset + 180 - s)%Q).
  { rewrite (climbs u s Hstep), H0.
    replace (Z.of_nat (n - 1)) with (Z.of_nat n - 1)%Z by lia.
    unfold Z.sub. rewrite inject_Z_plus. fold N. unfold s.
    apply ramp_end. lra. }
  assert (Hin : forall j, (j <= n - 1)%nat -> In (wraparound (u j)) (ramp n offset)).
  { intros j Hj. apply ramp_entry. lia. }
  assert (Hfirst : In (wraparound (u 0%nat)) (ramp n offset)) by (apply Hin; lia).
  split.
  - (* an entry that is not positive *)
    destruct (Qlt_le_dec (-360) (u 0%nat)) as [Ha|Ha].
    + destruct (Qlt_le_dec (u 0%nat) (-180)) as [Hb|Hb].
      * destruct (lands_in_window_left u s Hs Hstep (-180) (n - 1)) as (j & Hj & H1 & H2);
          [lra | lra |].
        exists (wraparound (u j)). split; [apply Hin; exact Hj|].
        rewrite wraparound_inside; lra.
      * destruct (Qlt_le_dec 0 (u 0%nat)) as [Hc|Hc].
        -- destruct (lands_in_window_right u s Hstep 180 (n - 1)) as (j & Hj & H1 & H2);
             [lra | lra |].
           exists (wraparound (u j)). split; [apply Hin; exact Hj|].
           rewrite wraparound_above; lra.
        -- exists (wraparound (u 0%nat)). split; [exact Hfirst|].
           rewrite wraparound_inside; lra.
    + exists (wraparound (u 0%nat)). split; [exact Hfirst|].
      rewrite wraparound_below; lra.
  - (* an entry that is not negative *)
    destruct (Qlt_le_dec (u 0%nat) (-360)) as [Ha|Ha].
    + destruct (lands_in_window_left u s Hs Hstep (-360) (n - 1)) as (j & Hj & H1 & H2);
        [lra | lra |].
      exists (wraparound (u j)). split; [apply Hin; exact Hj|].
      rewrite wraparound_below; lra.
    + destruct (Qlt_le_dec (u 0%nat) (-180)) as [Hb|Hb].
      * exists (wraparound (u 0%nat)). split; [exact Hfirst|].
        rewrite wraparound_below; lra.
      * destruct (Qlt_le_dec (u 0%nat) 0) as [Hc|Hc].
        -- destruct (lands_in_window_left u s Hs Hstep 0 (n - 1)) as (j & Hj & H1 & H2);
             [lra | lra |].
           exists (wraparound (u j)). split; [apply Hin; exact Hj|].
           rewrite wraparound_inside; lra.
        -- exists (wraparound (u 0%nat)). split; [exact Hfirst|].
           rewrite wraparound_inside; lra.
Qed.

(** ** The claims on the roll loop *)

(** C1, as the specification words it, fails twice.  On the ramp of four
    values moved by 190 degrees the loop exits at once, in the state
    10, 100, -170, -80: the first corner is above zero and the last one
    below, and no divisor is zero.  And on the monotonic row 10, 20 the
    loop is still rolling after any number of tests: nothing counts the
    rolls and nothing is raised. *)
Lemma roll_loop_exit_state_reversed :
  let ra_int := [ramp 4 190] in
  let prob_int := [[1; 2; 3; 4]%Q] in
  (forall fuel, roll_loop (S fuel) ra_int prob_int = Exits ra_int prob_int) /\
  (exists a b,
     first_corner ra_int = Some a /\ last_corner ra_int = Some b /\
     (a == 10)%Q /\ (b == -80)%Q /\ ~ (a <= 0 /\ 0 <= b)%Q /\ ~ (b == 0)%Q) /\
  (forall fuel, roll_loop fuel [[10; 20]%Q] [[1; 2]%Q] = Running).
Proof.
  intros ra_int prob_int. split; [|split].
  - intros fuel. cbn [roll_loop].
    replace (roll_test ra_int) with (@inr exn bool false) by (vm_compute; reflexivity).
    reflexivity.
  - eexists. eexists.
    split; [vm_compute; reflexivity|].
    split; [vm_compute; reflexivity|].
    split; [reflexivity|]. split; [reflexivity|].
    split.
    + intros [H _]. vm_compute in H. apply H. reflexivity.
    + intros H. vm_compute in H. discriminate.
  - intros fuel. apply roll_loop_running.
    apply roll_test_always; [discriminate|].
    intros j Hj. simpl in Hj.
    destruct j as [|[|j]]; [vm_compute; reflexivity | vm_compute; reflexivity | lia].
Qed.

(** C1, amended.  The loop has no cap on its rolls and raises nothing.
    - If the first row of the RA grid has an entry that is not positive
      and one that is not negative, the loop exits after fewer rolls than
      the grid is wide, in a state where the test fails: the first corner
      is zero, or it is negative and the last is not, or it is positive and
      the last is negative.
    - A ramp of two or more values over [-180, 180), moved by an offset of
      at most a turn and wrapped, is such a row.
    - If the test holds for the first [grid_width] roll counts, it holds
      for ever: the loop never exits. *)
Theorem roll_loop_exits_or_never (row : list Q) (rest prob_int : grid) :
  (straddles_zero row ->
   exists k, (k < grid_width (row :: rest))%nat /\
     (forall fuel, (k < fuel)%nat ->
        roll_loop fuel (row :: rest) prob_int =
        Exits (Nat.iter k roll (row :: rest)) (Nat.iter k roll prob_int)) /\
     exists a b,
       first_corner (Nat.iter k roll (row :: rest)) = Some a /\
       last_corner (Nat.iter k roll (row :: rest)) = Some b /\
       ((a == 0)%Q \/ (a < 0 /\ 0 <= b)%Q \/ (0 < a /\ b < 0)%Q)) /\
  (forall n offset, (2 <= n)%nat -> (-360 <= offset <= 360)%Q ->
     straddles_zero (ramp n offset)) /\
  (row <> [] ->
   (forall j, (j < grid_width (row :: rest))%nat ->
      roll_test (Nat.iter j roll (row :: rest)) = inr true) ->
   forall fuel, roll_loop fuel (row :: rest) prob_int = Running).
Proof.
  split; [|split].
  - intros Hrow.
    assert (Hne : row <> []).
    { destruct Hrow as [[x [Hx _]] _]. intros ->. destruct Hx. }
    destruct (straddling_row_has_exit row rest Hrow) as (k0 & Hk0 & Hexit).
    destruct (roll_loop_exits_within k0 (row :: rest) prob_int) as (k & Hk & Htest & Hloop).
    + intros j _. apply roll_test_iter_defined. exact Hne.
    + exact Hexit.
    + exists k. split; [simpl; lia|]. split; [exact Hloop|].
      apply failed_test_corners. exact Htest.
  - intros n offset Hn Hoff. apply ramp_straddles_zero; assumption.
  - intros Hne Hfirst fuel. apply roll_loop_running.
    apply roll_test_always; assumption.
Qed.

(** The amended C1 on the row 100, -170, -80, 10: one roll. *)
Lemma roll_loop_exits_or_never_witness :
  exists k, (k < 4)%nat /\
    (forall fuel, (k < fuel)%nat ->
       roll_loop fuel [[100; -170; -80; 10]%Q] [[1; 2; 3; 4]%Q] =
       Exits (Nat.iter k roll [[100; -170; -80; 10]%Q])
             (Nat.iter k roll [[1; 2; 3; 4]%Q])) /\
    exists a b,
      first_corner (Nat.iter k roll [[100; -170; -80; 10]%Q]) = Some a /\
      last_corner (Nat.iter k roll [[100; -170; -80; 10]%Q]) = Some b /\
      ((a == 0)%Q \/ (a < 0 /\ 0 <= b)%Q \/ (0 < a /\ b < 0)%Q).
Proof.
  apply (roll_loop_exits_or_never [100; -170; -80; 10]%Q [] [[1; 2; 3; 4]%Q]).
  split.
  - exists (-170)%Q. split; [simpl; tauto | discriminate].
  - exists 100%Q. split; [simpl; tauto | discriminate].
Defined.

(** In an antisymmetric row the first entry is the opposite of the last. *)
Lemma antisymmetric_corners (row : list Q) (a b : Q) :
  antisymmetric row -> head row = Some a -> last row = Some b -> (a == - b)%Q.
Proof.
  unfold antisymmetric. intros H Ha Hb.
  apply last_Some in Hb. destruct Hb as [l' ->].
  rewrite rev_app_distr in H. simpl in H.
  destruct l' as [|x l']; simpl in *.
  - inversion Ha; subst. inversion H; subst. assumption.
  - inversion Ha; subst. inversion H; subst. assumption.
Qed.

(** C9: on a grid whose first row is antisymmetric about zero the loop
    exits at its first test, without a roll, whatever the fuel; when the
    divisor is zero the dividend is zero too, the ratio is a nan and the
    comparison with zero is false. *)
Theorem antisymmetric_row_exits_at_once
    (row : list Q) (rest prob_int : grid) (fuel : nat) :
  row <> [] -> antisymmetric row ->
  roll_loop (S fuel) (row :: rest) prob_int = Exits (row :: rest) prob_int /\
  (forall a b, first_corner (row :: rest) = Some a ->
     last_corner (row :: rest) = Some b -> (b == 0)%Q ->
     Np.div a b = Np.NaN /\ Np.gt0 (Np.div a b) = false).
Proof.
  intros Hne Hanti.
  destruct row as [|x t]; [contradiction|].
  destruct (last (x :: t)) as [y|] eqn:Hy; [|apply last_None in Hy; discriminate].
  assert (Hxy : (x == - y)%Q) by (apply (antisymmetric_corners (x :: t)); auto).
  split.
  - simpl. erewrite roll_test_corners; [|reflexivity|exact Hy].
    destruct (Np.gt0 (Np.div x y)) eqn:E; [|reflexivity].
    apply ratio_positive_iff in E. lra.
  - intros a b Ha Hb Hb0. simpl in Ha, Hb. inversion Ha; subst a.
    rewrite Hy in Hb. inversion Hb; subst b.
    assert (E : Np.div x y = Np.NaN).
    { unfold Np.div.
      assert (E0 : Np.eqb y 0 = true) by (apply eqb_spec; exact Hb0). rewrite E0.
      assert (E1 : Np.ltb 0 x = false) by (apply ltb_false; lra). rewrite E1.
      assert (E2 : Np.ltb x 0 = false) by (apply ltb_false; lra). rewrite E2.
      reflexivity. }
    rewrite E. split; reflexivity.
Qed.

(** C9 on the row -90, 0, 90 and on the row 0, 5, -5, 0, whose divisor is
    zero. *)
Lemma antisymmetric_row_exits_at_once_witness :
  roll_loop 1 [[-90; 0; 90]%Q] [[1; 2; 3]%Q] = Exits [[-90; 0; 90]%Q] [[1; 2; 3]%Q] /\
  roll_loop 1 [[0; 5; -5; 0]%Q] [[1; 2; 3; 4]%Q] =
    Exits [[0; 5; -5; 0]%Q] [[1; 2; 3; 4]%Q].
Proof.
  split.
  - apply (antisymmetric_row_exits_at_once [-90; 0; 90]%Q [] [[1; 2; 3]%Q] 0).
    + discriminate.
    + repeat constructor.
  - apply (antisymmetric_row_exits_at_once [0; 5; -5; 0]%Q [] [[1; 2; 3; 4]%Q] 0).
    + discriminate.
    + repeat constructor.
Defined.

(** ** The credible-region search *)

Lemma binsearch_left_step (fuel : nat) (arr : list Q) (key : Q) (lo hi : nat) :
  binsearch_left (S fuel) arr key lo hi =
  if (lo <? hi)%nat then
    if Np.ltb (nth (lo + (hi - lo) / 2) arr 0%Q) key
    then binsearch_left fuel arr key (S (lo + (hi - lo) / 2)) hi
    else binsearch_left fuel arr key lo (lo + (hi - lo) / 2)
  else lo.
Proof. reflexivity. Qed.

(** The invariant of the binary search: everything left of [min_idx] is
    below the key, everything from [max_idx] on is not. *)
Lemma binsearch_left_spec (arr : list Q) (key : Q) :
  nondecreasing arr ->
  forall fuel min_idx max_idx,
    (min_idx <= max_idx <= length arr)%nat ->
    (max_idx - min_idx <= fuel)%nat ->
    (forall j, (j < min_idx)%nat -> (nth j arr 0 < key)%Q) ->
    (forall j, (max_idx <= j < length arr)%nat -> (key <= nth j arr 0)%Q) ->
    let i := binsearch_left fuel arr key min_idx max_idx in
    (min_idx <= i <= max_idx)%nat /\
    (forall j, (j < i)%nat -> (nth j arr 0 < key)%Q) /\
    (forall j, (i <= j < length arr)%nat -> (key <= nth j arr 0)%Q).
Proof.
  intros Hsorted. induction fuel as [|fuel IH]; intros lo hi Hrange Hfuel Hbelow Habove.
  - simpl. assert (lo = hi) by lia. subst hi.
    split; [lia|]. split; assumption.
  - cbv zeta. rewrite binsearch_left_step.
    destruct (lo <? hi)%nat eqn:Hlt.
    + apply Nat.ltb_lt in Hlt.
      set (mid := (lo + (hi - lo) / 2)%nat).
      assert (Hmid : (lo <= mid < hi)%nat).
      { unfold mid. pose proof (Nat.div_lt (hi - lo) 2). lia. }
      destruct (Np.ltb (nth mid arr 0%Q) key) eqn:Hcmp.
      * apply ltb_spec in Hcmp.
        destruct (IH (S mid) hi) as (H1 & H2 & H3); [lia | lia | | exact Habove |].
        -- intros j Hj.
           apply Qle_lt_trans with (nth mid arr 0%Q); [|exact Hcmp].
           apply Hsorted. lia.
        -- split; [lia|]. split; assumption.
      * apply ltb_false in Hcmp.
        destruct (IH lo mid) as (H1 & H2 & H3); [lia | lia | exact Hbelow | |].
        -- intros j Hj.
           apply Qle_trans with (nth mid arr 0%Q); [exact Hcmp|].
           apply Hsorted. lia.
        -- split; [lia|]. split; assumption.
    + apply Nat.ltb_ge in Hlt. assert (lo = hi) by lia. subst hi.
      split; [lia|]. split; assumption.
Qed.

(** [searchsorted] finds the leftmost insertion point. *)
Lemma searchsorted_spec (arr : list Q) (key : Q) :
  nondecreasing arr ->
  (searchsorted arr key <= length arr)%nat /\
  (forall j, (j < searchsorted arr key)%nat -> (nth j arr 0 < key)%Q) /\
  (forall j, (searchsorted arr key <= j < length arr)%nat -> (key <= nth j arr 0)%Q).
Proof.
  intros Hsorted. unfold searchsorted.
  destruct (binsearch_left_spec arr key Hsorted (length arr) 0 (length arr))
    as (H1 & H2 & H3); try (intros; lia).
  split; [lia|]. split; assumption.
Qed.

(** The search never leaves the array, sorted or not. *)
Lemma binsearch_left_range (arr : list Q) (key : Q) :
  forall fuel min_idx max_idx,
    (min_idx <= max_idx)%nat ->
    (min_idx <= binsearch_left fuel arr key min_idx max_idx <= max_idx)%nat.
Proof.
  induction fuel as [|fuel IH]; intros lo hi Hrange; [simpl; lia|].
  rewrite binsearch_left_step.
  destruct (lo <? hi)%nat eqn:Hlt; [|lia].
  apply Nat.ltb_lt in Hlt.
  assert (Hmid : (lo <= lo + (hi - lo) / 2 < hi)%nat).
  { pose proof (Nat.div_lt (hi - lo) 2). lia. }
  destruct (Np.ltb _ key).
  - specialize (IH (S (lo + (hi - lo) / 2)) hi). lia.
  - specialize (IH lo (lo + (hi - lo) / 2)%nat). lia.
Qed.

Lemma searchsorted_range (arr : list Q) (key : Q) :
  (searchsorted arr key <= length arr)%nat.
Proof.
  unfold searchsorted.
  pose proof (binsearch_left_range arr key (length arr) 0 (length arr)). lia.
Qed.

(** A larger key is inserted no further left. *)
Lemma searchsorted_monotone (arr : list Q) (v w : Q) :
  nondecreasing arr -> (v <= w)%Q ->
  (searchsorted arr v <= searchsorted arr w)%nat.
Proof.
  intros Hsorted Hvw.
  destruct (searchsorted_spec arr v Hsorted) as (_ & Hv & _).
  destruct (searchsorted_spec arr w Hsorted) as (Hw1 & _ & Hw).
  destruct (Nat.le_gt_cases (searchsorted arr v) (searchsorted arr w)) as [H|H];
    [exact H|].
  exfalso.
  specialize (Hv (searchsorted arr w) H).
  specialize (Hw (searchsorted arr w)).
  assert (w <= nth (searchsorted arr w) arr 0)%Q.
  { apply Hw. pose proof (searchsorted_range arr v). lia. }
  lra.
Qed.

Lemma region_area_monotone (r1 r2 : nat) (pix : Q) :
  (0 <= pix)%Q -> (r1 <= r2)%nat -> (region_area r1 pix <= region_area r2 pix)%Q.
Proof.
  intros Hpix Hr. unfold region_area.
  apply Qmult_le_compat_r; [|exact Hpix].
  rewrite <- Zle_Qle. lia.
Qed.

Lemma region_area_nonneg (r : nat) (pix : Q) :
  (0 <= pix)%Q -> (0 <= region_area r pix)%Q.
Proof.
  intros Hpix. unfold region_area. apply Qmult_le_0_compat; [|exact Hpix].
  change 0%Q with (inject_Z 0). rewrite <- Zle_Qle. lia.
Qed.

Lemma nside2pixarea_nonneg (nside : nat) : (0 <= Healpy.nside2pixarea nside)%Q.
Proof.
  unfold Healpy.nside2pixarea, Healpy.rad2deg.
  assert (Hpi : (0 < Np.pi)%Q) by reflexivity.
  assert (Hinv : (0 <= / Np.pi)%Q) by (apply Qinv_le_0_compat; lra).
  assert (Hn : (0 <= / inject_Z (Z.of_nat (Healpy.nside2npix nside)))%Q).
  { apply Qinv_le_0_compat. change 0%Q with (inject_Z 0). rewrite <- Zle_Qle. lia. }
  unfold Qdiv.
  repeat (apply Qmult_le_0_compat; try assumption; try lra).
Qed.

Lemma is_nondecreasing_sound (arr : list Q) :
  is_nondecreasing arr = true -> nondecreasing arr.
Proof.
  induction arr as [|x t IH]; intros Hchk i j Hij; [simpl in Hij; lia|].
  destruct t as [|y t'].
  - simpl in Hij. assert (i = 0 /\ j = 0)%nat as [-> ->] by lia. apply Qle_refl.
  - simpl in Hchk. apply andb_true_iff in Hchk. destruct Hchk as [Hxy Hrest].
    apply Qle_bool_iff in Hxy. specialize (IH Hrest).
    destruct i as [|i]; destruct j as [|j].
    + apply Qle_refl.
    + change (nth 0 (x :: y :: t') 0%Q) with x.
      change (nth (S j) (x :: y :: t') 0%Q) with (nth j (y :: t') 0%Q).
      apply Qle_trans with y; [exact Hxy|].
      apply (IH 0%nat j). simpl in *. lia.
    + lia.
    + change (nth (S i) (x :: y :: t') 0%Q) with (nth i (y :: t') 0%Q).
      change (nth (S j) (x :: y :: t') 0%Q) with (nth j (y :: t') 0%Q).
      apply IH. simpl in *. lia.
Qed.

(** ** The monad *)

Lemma bind_Done_inv {A B} (m : M A) (k : A -> M B) (w w2 : world) (b : B) :
  bind m k w = Done b w2 ->
  exists a w1, m w = Done a w1 /\ k a w1 = Done b w2.
Proof.
  unfold bind. destruct (m w) as [a w1| |]; try discriminate.
  intros H. exists a, w1. split; [reflexivity | exact H].
Qed.

Lemma bind_Done {A B} (m : M A) (k : A -> M B) (w w1 : world) (a : A) :
  m w = Done a w1 -> bind m k w = k a w1.
Proof. unfold bind. intros ->. reflexivity. Qed.

Lemma bind_Raise {A B} (m : M A) (k : A -> M B) (w w1 : world) (e : exn) :
  m w = Raise e w1 -> bind m k w = Raise e w1.
Proof. unfold bind. intros ->. reflexivity. Qed.

Lemma expect_Done_inv {A} (o : option A) (e : exn) (w w1 : world) (a : A) :
  expect o e w = Done a w1 -> o = Some a /\ w1 = w.
Proof.
  destruct o as [a'|]; simpl; unfold ret, raise; intros H; inversion H; auto.
Qed.

Lemma lift_Done_inv {A} (r : exn + A) (w w1 : world) (a : A) :
  lift r w = Done a w1 -> r = inr a /\ w1 = w.
Proof.
  destruct r as [e|a']; simpl; unfold ret, raise; intros H; inversion H; auto.
Qed.

Lemma get_Done_inv (w w1 a : world) : get w = Done a w1 -> a = w /\ w1 = w.
Proof. unfold get. intros H. inversion H. auto. Qed.

Lemma modify_Done_inv (f : world -> world) (w w1 : world) (u : unit) :
  modify f w = Done u w1 -> w1 = f w.
Proof. unfold modify. intros H. inversion H. auto. Qed.

(** Take a successful sequence of steps apart, one step at a time. *)
Tactic Notation "step_inv" hyp(H) "as" simple_intropattern(a) ident(H1) :=
  let w := fresh "w" in
  apply bind_Done_inv in H; destruct H as (a & w & H1 & H).

(** ** The first lines of the loop body *)

Lemma print_Done (l : console) (w : world) : print l w = Done tt (print_line l w).
Proof. reflexivity. Qed.

(** The check prints and goes on: it never raises and never skips. *)
Lemma nonconvergence_check_Done (ev : event) (w : world) :
  nonconvergence_check ev w =
  Done tt (if Np.ltb 64 (area68 ev)
           then print_line (SkippingEvent (enum ev)) (print_line (PrintArea (area68 ev)) w)
           else w).
Proof.
  unfold nonconvergence_check. destruct (Np.ltb 64 (area68 ev)); reflexivity.
Qed.

Lemma vital_statistics_Done_inv (ext : externals) (inj : option (list Q))
    (filename : string) (w w' : world) (ev : event) :
  vital_statistics ext inj filename w = Done ev w' ->
  exists table t ns,
    get_event_num filename = Some (enum ev) /\
    inj = Some table /\ table !! enum ev = Some t /\
    create_table ext filename = inr (sky_data ev, smap ev) /\
    Healpy.npix2nside (length (smap ev)) = Some ns /\
    gmst ev = Np.mod_ (t / 3600) 24 /\
    pix_size ev = Healpy.nside2pixarea ns /\
    prb68 ev = searchsorted (cumul (sky_data ev)) (68 # 100) /\
    prb95 ev = searchsorted (cumul (sky_data ev)) Np.lit_0_95 /\
    prb99 ev = searchsorted (cumul (sky_data ev)) Np.lit_0_99 /\
    w' = print_line (ProcessingEvent (enum ev)) w.
Proof.
  unfold vital_statistics. intros H.
  step_inv H as en Hstep. apply expect_Done_inv in Hstep as [Henum ->].
  step_inv H as u Hstep. apply modify_Done_inv in Hstep as ->.
  step_inv H as table Hstep. apply expect_Done_inv in Hstep as [Hinj ->].
  step_inv H as t Hstep. apply expect_Done_inv in Hstep as [Ht ->].
  step_inv H as [tbl sm] Hstep. apply lift_Done_inv in Hstep as [Htab ->].
  step_inv H as ns Hstep. apply expect_Done_inv in Hstep as [Hns ->].
  destruct (Healpy.nside2pixarea_defined ns); [|discriminate].
  unfold ret in H. inversion H; subst; clear H. simpl.
  exists table, t, ns. repeat split; assumption.
Qed.

(** ** The claims on the credible regions *)




(** C7: when the cumulative sequence of an event is non-decreasing and has
    one entry per pixel, the areas of its 68%, 95% and 99% regions grow
    with the mass, and each lies between zero and the area of all
    pixels. *)
Theorem credible_areas_monotone (ext : externals) (inj : option (list Q))
    (filename : string) (w w' : world) (ev : event) :
  vital_statistics ext inj filename w = Done ev w' ->
  nondecreasing (cumul (sky_data ev)) ->
  length (cumul (sky_data ev)) = length (smap ev) ->
  (area68 ev <= area95 ev)%Q /\ (area95 ev <= area99 ev)%Q /\
  (0 <= area68 ev <= total_sky_area ev)%Q /\
  (0 <= area95 ev <= total_sky_area ev)%Q /\
  (0 <= area99 ev <= total_sky_area ev)%Q.
Proof.
  intros Hev Hsorted Hlen.
  apply vital_statistics_Done_inv in Hev.
  destruct Hev as (table & t & ns & _ & _ & _ & _ & _ & _ & Hpix & H68 & H95 & H99 & _).
  assert (Hpos : (0 <= pix_size ev)%Q) by (rewrite Hpix; apply nside2pixarea_nonneg).
  unfold area68, area95, area99, total_sky_area.
  rewrite H68, H95, H99, <- Hlen.
  repeat split;
    try (apply region_area_nonneg; exact Hpos);
    apply region_area_monotone;
    try exact Hpos;
    try apply searchsorted_range;
    apply searchsorted_monotone; try exact Hsorted; discriminate.
Qed.

(** C7 on event 0 of the toy run. *)
Lemma credible_areas_monotone_witness :
  (area68 Toy.event0 <= area95 Toy.event0)%Q /\
  (area95 Toy.event0 <= area99 Toy.event0)%Q /\
  (0 <= area68 Toy.event0 <= total_sky_area Toy.event0)%Q /\
  (0 <= area99 Toy.event0 <= total_sky_area Toy.event0)%Q.
Proof.
  destruct (credible_areas_monotone Toy.ext Toy.inj "hlv/0/post/0.fits.gz"
              (Toy.empty_world Toy.disk)
              (print_line (ProcessingEvent 0) (Toy.empty_world Toy.disk))
              Toy.event0)
    as (H1 & H2 & H3 & _ & H5).
  - vm_compute. reflexivity.
  - apply is_nondecreasing_sound. reflexivity.
  - reflexivity.
  - split; [exact H1|]. split; [exact H2|]. split; [exact H3 | exact H5].
Defined.

(** ** The stages, one by one *)

Lemma read_snr_Done_inv (ext : externals) (filename : string) (w w' : world)
    (snrs : gmap string Q) :
  read_snr ext filename w = Done snrs w' ->
  exists lines d network_snr,
    files w !! snr_path filename = Some (TextFile lines) /\
    snr_dict ∅ lines = Some d /\
    float_values ext d = Some snrs /\
    snrs !! "Network" = Some network_snr /\
    w' = print_line (PrintNetwork network_snr) (print_line (PrintSnrs snrs) w).
Proof.
  unfold read_snr. intros H.
  step_inv H as w0 Hstep. apply get_Done_inv in Hstep as [-> ->].
  destruct (files w !! snr_path filename) as [[lines| |]|] eqn:Hfile;
    try discriminate.
  step_inv H as d Hstep. apply expect_Done_inv in Hstep as [Hd ->].
  step_inv H as snrs' Hstep. apply expect_Done_inv in Hstep as [Hf ->].
  step_inv H as u Hstep. apply modify_Done_inv in Hstep as ->.
  step_inv H as ns Hstep. apply expect_Done_inv in Hstep as [Hn ->].
  step_inv H as u' Hstep. apply modify_Done_inv in Hstep as ->.
  inversion H; subst; clear H.
  exists lines, d, ns. repeat split; assumption.
Qed.

(** What [select_linecolor] leaves behind: the colour of the label's
    quantity, or the name untouched when the label has neither quantity. *)
Lemma select_linecolor_Done_inv (cspecs : gmap string Plottable) (label : string)
    (ev : event) (snrs : gmap string Q) (w w' : world) :
  select_linecolor cspecs label ev snrs w = Done tt w' ->
  exists cmap, cspecs !! label = Some cmap /\
    ((quant cmap = Some "error_region" /\
      exists c, call_Plottable cmap (area68 ev) = inr c /\ w' = set_linecolor c w) \/
     (quant cmap = Some "snr" /\
      exists network_snr c, snrs !! "Network" = Some network_snr /\
        call_Plottable cmap network_snr = inr c /\ w' = set_linecolor c w) \/
     (quant cmap <> Some "error_region" /\ quant cmap <> Some "snr" /\ w' = w)).
Proof.
  unfold select_linecolor. intros H.
  step_inv H as cmap Hstep. apply expect_Done_inv in Hstep as [Hc ->].
  exists cmap. split; [exact Hc|].
  destruct (bool_decide (quant cmap = Some "error_region")) eqn:E1.
  - apply bool_decide_eq_true in E1. left. split; [exact E1|].
    step_inv H as c Hstep. apply lift_Done_inv in Hstep as [Hcall ->].
    inversion H; subst. exists c. auto.
  - apply bool_decide_eq_false in E1.
    destruct (bool_decide (quant cmap = Some "snr")) eqn:E2.
    + apply bool_decide_eq_true in E2. right; left. split; [exact E2|].
      step_inv H as ns Hstep. apply expect_Done_inv in Hstep as [Hn ->].
      step_inv H as c Hstep. apply lift_Done_inv in Hstep as [Hcall ->].
      inversion H; subst. exists ns, c. auto.
    + apply bool_decide_eq_false in E2. right; right.
      inversion H; subst. auto.
Qed.

Lemma rotate_Done_inv (fuel : nat) (gmst : Q) (ra_int prob_int ra' prob' : grid)
    (w w' : world) :
  rotate fuel gmst ra_int prob_int w = Done (ra', prob') w' ->
  w' = w /\
  exists rolled,
    roll_loop fuel (shift_and_wrap gmst ra_int) prob_int = Exits rolled prob' /\
    ra' = map_grid flip_sign rolled.
Proof.
  unfold rotate.
  destruct (roll_loop fuel (shift_and_wrap gmst ra_int) prob_int) as [r p|e|];
    try discriminate.
  unfold ret. intros H. inversion H; subst. split; [reflexivity|].
  exists r. auto.
Qed.

Lemma draw_contour_Done_inv (ev : event) (ra_int dec_int prob_int : grid)
    (w w' : world) :
  draw_contour ev ra_int dec_int prob_int w = Done tt w' ->
  exists level c,
    prob (sky_data ev) !! prb68 ev = Some level /\
    linecolor w = Some c /\
    w' = add_contour (Contour ra_int dec_int prob_int level c) w.
Proof.
  unfold draw_contour. intros H.
  step_inv H as level Hstep. apply expect_Done_inv in Hstep as [Hl ->].
  step_inv H as w0 Hstep. apply get_Done_inv in Hstep as [-> ->].
  step_inv H as c Hstep. apply expect_Done_inv in Hstep as [Hc ->].
  inversion H; subst. exists level, c. auto.
Qed.

Lemma locate_peak_Done_inv (ra_int dec_int prob_int : grid) (ra_max dec_max : Q)
    (w w' : world) :
  locate_peak ra_int dec_int prob_int w = Done (ra_max, dec_max) w' ->
  w' = w /\
  exists k, argmax prob_int = Some k /\
    at_index ra_int (unravel_index k prob_int) = Some ra_max /\
    at_index dec_int (unravel_index k prob_int) = Some dec_max.
Proof.
  unfold locate_peak. intros H.
  step_inv H as k Hstep. apply expect_Done_inv in Hstep as [Hk ->].
  step_inv H as r Hstep. apply expect_Done_inv in Hstep as [Hr ->].
  step_inv H as d Hstep. apply expect_Done_inv in Hstep as [Hd ->].
  inversion H; subst. split; [reflexivity|]. exists k. auto.
Qed.

Lemma emit_Done_inv (ext : externals) (network : list string) (label : string)
    (ev : event) (snrs : gmap string Q) (ra_max dec_max : Q) (w w' : world) :
  emit ext network label ev snrs ra_max dec_max w = Done tt w' ->
  exists network_snr,
    snrs !! "Network" = Some network_snr /\
    w' = append_record label
           (Aggregate (area68 ev) network_snr
              (net_antenna_pattern_point ext (gmst ev) network ra_max dec_max)) w.
Proof.
  unfold emit. intros H.
  step_inv H as ns Hstep. apply expect_Done_inv in Hstep as [Hn ->].
  inversion H; subst. exists ns. auto.
Qed.

Lemma savefig_Done_inv (ext : externals) (fname : string) (w w' : world) :
  savefig ext fname w = Done tt w' ->
  can_save ext fname = true /\ w' = add_figure fname w.
Proof.
  unfold savefig. destruct (can_save ext fname); [|discriminate].
  intros H. apply modify_Done_inv in H. auto.
Qed.

(** ** The interpolation cache *)

Lemma string_append_assoc (a b c : string) :
  (a ++ (b ++ c))%string = ((a ++ b) ++ c)%string.
Proof.
  induction a as [|x a IH]; [reflexivity|].
  change (String x a ++ (b ++ c))%string with (String x (a ++ (b ++ c))%string).
  rewrite IH. reflexivity.
Qed.

Lemma endswith_app (suf out s : string) :
  Py.endswith suf s = true -> Py.endswith suf (out ++ s)%string = true.
Proof.
  intros H. induction out as [|c out IH]; [exact H|].
  change (String c out ++ s)%string with (String c (out ++ s)%string).
  cbn [Py.endswith]. rewrite IH. apply orb_true_r.
Qed.

Lemma endswith_inv (suf s : string) :
  Py.endswith suf s = true -> exists pre, s = (pre ++ suf)%string.
Proof.
  induction s as [|c s IH]; cbn [Py.endswith]; intros H.
  - rewrite orb_false_r in H. apply String.eqb_eq in H. exists "". simpl. auto.
  - apply orb_true_iff in H. destruct H as [H|H].
    + apply String.eqb_eq in H. exists "". simpl. auto.
    + destruct (IH H) as [pre ->]. exists (String c pre). reflexivity.
Qed.

(** No proper end of ["fits.gz"] is also a start of it, so an occurrence
    cannot begin within the last six characters before the suffix. *)
Lemma no_match_across_suffix (c : ascii) (pre : string) :
  (String.length pre < 6)%nat ->
  String.prefix "fits.gz" (String c (pre ++ "fits.gz")%string) = false.
Proof.
  intros Hlen.
  do 6 (try destruct pre as [|? pre]); simpl in Hlen; try lia;
    cbv beta iota delta [String.append];
    repeat (cbn [String.prefix];
            match goal with
            | |- context [ascii_dec ?a ?b] => destruct (ascii_dec a b)
            end; try reflexivity; try discriminate).
Qed.

(** Replacing within a name that ends in ["fits.gz"] gives a name that
    ends in ["intrp.npz"]. *)
Lemma replace_from_suffix (pre : string) :
  forall skip, (skip <= String.length pre)%nat ->
    exists out,
      Py.replace_from "fits.gz" "intrp.npz" skip (pre ++ "fits.gz")%string =
      (out ++ "intrp.npz")%string.
Proof.
  induction pre as [|c pre IH]; intros skip Hskip.
  - simpl in Hskip. assert (skip = 0%nat) by lia. subst. exists "". reflexivity.
  - change (String c pre ++ "fits.gz")%string with (String c (pre ++ "fits.gz")%string).
    destruct skip as [|k].
    + cbn [Py.replace_from].
      destruct (String.prefix "fits.gz" (String c (pre ++ "fits.gz")%string)) eqn:Hp.
      * destruct (Nat.lt_ge_cases (String.length pre) 6) as [Hshort|Hlong].
        -- rewrite no_match_across_suffix in Hp by exact Hshort. discriminate.
        -- destruct (IH 6%nat Hlong) as [out Hout].
           change (String.length "fits.gz" - 1)%nat with 6%nat.
           rewrite Hout. exists ("intrp.npz" ++ out)%string.
           rewrite string_append_assoc. reflexivity.
      * destruct (IH 0%nat ltac:(lia)) as [out Hout].
        rewrite Hout. exists (String c out). reflexivity.
    + cbn [Py.replace_from]. apply IH. simpl in Hskip. lia.
Qed.

Lemma cache_fname_has_npz_suffix (filename : string) :
  Py.endswith "fits.gz" filename = true ->
  Py.endswith ".npz" (cache_fname filename) = true.
Proof.
  intros H. apply endswith_inv in H. destruct H as [pre ->].
  unfold cache_fname, Py.replace.
  destruct (replace_from_suffix pre 0 ltac:(lia)) as [out ->].
  apply endswith_app. reflexivity.
Qed.

Lemma savez_target_of_cache_fname (filename : string) :
  Py.endswith "fits.gz" filename = true ->
  savez_target (cache_fname filename) = cache_fname filename.
Proof.
  intros H. unfold savez_target.
  rewrite cache_fname_has_npz_suffix by exact H. reflexivity.
Qed.

(** What a miss does: the kernel runs once, its three grids are written
    where [savez] puts them, and they are returned. *)
Lemma interpolated_map_miss (ext : externals) (filename : string)
    (tbl : sky_table) (sm : list Q) (w : world) :
  files w !! cache_fname filename = None ->
  interpolated_map ext filename tbl sm w =
  let '(ra_int, dec_int, prob_int) :=
    interpolate_healpix_map ext (ra tbl) (dec tbl) sm in
  Done (ra_int, dec_int, prob_int)
       (set_files (insert (savez_target (cache_fname filename))
                          (NpzFile [ra_int; dec_int; prob_int]))
                  (log_kernel_call filename w)).
Proof.
  intros Hmiss. unfold interpolated_map, bind, get.
  rewrite Hmiss.
  rewrite bool_decide_eq_false_2 by (intros [x Hx]; discriminate).
  unfold modify.
  destruct (interpolate_healpix_map ext (ra tbl) (dec tbl) sm) as [[a b] c].
  reflexivity.
Qed.

(** What a hit does: the stored grids are returned, the kernel is not
    called, nothing is written. *)
Lemma interpolated_map_hit (ext : externals) (filename : string)
    (tbl : sky_table) (sm : list Q) (w : world) (a b c : grid) :
  files w !! cache_fname filename = Some (NpzFile [a; b; c]) ->
  interpolated_map ext filename tbl sm w =
  Done (a, b, c) (print_line (LoadingCached (cache_fname filename)) w).
Proof.
  intros Hhit. unfold interpolated_map, bind, get.
  rewrite Hhit.
  rewrite bool_decide_eq_true_2 by (eexists; reflexivity).
  unfold print, modify, load_triple, bind, get. simpl.
  rewrite Hhit. reflexivity.
Qed.

(** A start of [a ++ b] as long as [a] at most is a start of [a]. *)
Lemma prefix_append_long (old a b : string) :
  (String.length old <= String.length a)%nat ->
  String.prefix old (a ++ b)%string = String.prefix old a.
Proof.
  revert a. induction old as [|x old IH]; intros a Hlen.
  { destruct a, b; reflexivity. }
  destruct a as [|y a]; [simpl in Hlen; lia|].
  change (String y a ++ b)%string with (String y (a ++ b)%string).
  cbn [String.prefix]. destruct (ascii_dec x y); [|reflexivity].
  apply IH. simpl in Hlen. lia.
Qed.

Lemma contains_cons (old : string) (c : ascii) (s : string) :
  contains old (String c s) = false ->
  String.prefix old (String c s) = false /\ contains old s = false.
Proof.
  cbn [contains]. intros H. apply orb_false_iff in H. exact H.
Qed.

(** When ["fits.gz"] occurs at the end of a name and nowhere else, the
    replacement changes the suffix and nothing more. *)
Lemma replace_suffix_only (stem : string) :
  contains "fits.gz" stem = false ->
  Py.replace "fits.gz" "intrp.npz" (stem ++ "fits.gz")%string =
  (stem ++ "intrp.npz")%string.
Proof.
  unfold Py.replace. induction stem as [|c stem IH]; intros Hno; [reflexivity|].
  apply contains_cons in Hno. destruct Hno as [Hhere Hrest].
  change (String c stem ++ "fits.gz")%string with (String c (stem ++ "fits.gz")%string).
  change (String c stem ++ "intrp.npz")%string with (String c (stem ++ "intrp.npz")%string).
  cbn [Py.replace_from].
  assert (Hp : String.prefix "fits.gz" (String c (stem ++ "fits.gz")%string) = false).
  { destruct (Nat.lt_ge_cases (String.length stem) 6) as [Hshort|Hlong].
    - apply no_match_across_suffix. exact Hshort.
    - change (String c (stem ++ "fits.gz")%string)
        with (String c stem ++ "fits.gz")%string.
      rewrite prefix_append_long; [exact Hhere|]. simpl. lia. }
  rewrite Hp, (IH Hrest). reflexivity.
Qed.

(** C6, as the claim words it, fails for a map file whose name does not
    end in ["fits.gz"]: for a name with a further suffix the cache name
    has the suffix too, [np.savez] writes under that name with [".npz"]
    added, and the second lookup of the same map file finds no cache file
    and calls the kernel again. *)
Lemma second_lookup_of_odd_name_misses :
  files (Toy.empty_world (<["hlv/0/post/0.fits.gz.old" := MapFile]> Toy.disk))
    !! cache_fname "hlv/0/post/0.fits.gz.old" = None /\
  exists w1 w2,
    interpolated_map Toy.ext "hlv/0/post/0.fits.gz.old" Toy.wide Toy.smap12
      (Toy.empty_world (<["hlv/0/post/0.fits.gz.old" := MapFile]> Toy.disk)) =
      Done (Toy.ra_grid, Toy.dec_grid, Toy.prob_grid) w1 /\
    files w1 !! cache_fname "hlv/0/post/0.fits.gz.old" = None /\
    files w1 !! "hlv/0/post/0.intrp.npz.old.npz" =
      Some (NpzFile [Toy.ra_grid; Toy.dec_grid; Toy.prob_grid]) /\
    interpolated_map Toy.ext "hlv/0/post/0.fits.gz.old" Toy.wide Toy.smap12 w1 =
      Done (Toy.ra_grid, Toy.dec_grid, Toy.prob_grid) w2 /\
    kernel_calls w2 = ["hlv/0/post/0.fits.gz.old"; "hlv/0/post/0.fits.gz.old"].
Proof.
  split; [vm_compute; reflexivity|].
  eexists. eexists.
  split; [vm_compute; reflexivity|].
  split; [vm_compute; reflexivity|].
  split; [vm_compute; reflexivity|].
  split; vm_compute; reflexivity.
Qed.

(** C6, amended: for a map file whose name ends in ["fits.gz"] and holds
    ["fits.gz"] nowhere else, the cache name is the name of the map file
    with that suffix replaced by ["intrp.npz"].  A lookup that finds no
    cache file calls the interpolation kernel, stores its three grids
    under the cache name and returns them; the next lookup of the same
    file, whatever table it is given, returns the same three grids from
    the store, without a call of the kernel and without a write. *)
Theorem cache_miss_then_hit (ext : externals) (stem filename : string)
    (tbl : sky_table) (sm : list Q) (w : world) :
  filename = (stem ++ "fits.gz")%string ->
  contains "fits.gz" stem = false ->
  files w !! cache_fname filename = None ->
  cache_fname filename = (stem ++ "intrp.npz")%string /\
  exists ra_int dec_int prob_int w1,
    interpolate_healpix_map ext (ra tbl) (dec tbl) sm = (ra_int, dec_int, prob_int) /\
    interpolated_map ext filename tbl sm w = Done (ra_int, dec_int, prob_int) w1 /\
    files w1 = <[cache_fname filename := NpzFile [ra_int; dec_int; prob_int]]> (files w) /\
    kernel_calls w1 = kernel_calls w ++ [filename] /\
    forall tbl' sm', exists w2,
      interpolated_map ext filename tbl' sm' w1 = Done (ra_int, dec_int, prob_int) w2 /\
      kernel_calls w2 = kernel_calls w1 /\
      files w2 = files w1.
Proof.
  intros Hname Hstem Hmiss.
  assert (Hsuffix : Py.endswith "fits.gz" filename = true)
    by (rewrite Hname; apply endswith_app; reflexivity).
  split; [rewrite Hname; apply replace_suffix_only; exact Hstem|].
  pose proof (interpolated_map_miss ext filename tbl sm w Hmiss) as Hrun.
  destruct (interpolate_healpix_map ext (ra tbl) (dec tbl) sm) as [[a b] c].
  rewrite savez_target_of_cache_fname in Hrun by exact Hsuffix.
  eexists a, b, c, _. split; [reflexivity|]. split; [exact Hrun|].
  assert (Hstored :
    files (set_files (insert (cache_fname filename) (NpzFile [a; b; c]))
                     (log_kernel_call filename w)) !! cache_fname filename =
    Some (NpzFile [a; b; c])).
  { simpl. apply lookup_insert_eq. }
  split; [reflexivity|]. split; [reflexivity|].
  intros tbl' sm'. eexists. split.
  - apply interpolated_map_hit. exact Hstored.
  - split; reflexivity.
Qed.

(** The amended C6 on the first map of the toy run. *)
Lemma cache_miss_then_hit_witness :
  cache_fname "hlv/0/post/0.fits.gz" = "hlv/0/post/0.intrp.npz" /\
  exists w1 w2,
    interpolated_map Toy.ext "hlv/0/post/0.fits.gz" Toy.wide Toy.smap12
      (Toy.empty_world Toy.disk) =
      Done (Toy.ra_grid, Toy.dec_grid, Toy.prob_grid) w1 /\
    files w1 !! "hlv/0/post/0.intrp.npz" =
      Some (NpzFile [Toy.ra_grid; Toy.dec_grid; Toy.prob_grid]) /\
    kernel_calls w1 = ["hlv/0/post/0.fits.gz"] /\
    interpolated_map Toy.ext "hlv/0/post/0.fits.gz" Toy.wide Toy.smap12 w1 =
      Done (Toy.ra_grid, Toy.dec_grid, Toy.prob_grid) w2 /\
    kernel_calls w2 = ["hlv/0/post/0.fits.gz"].
Proof.
  destruct (cache_miss_then_hit Toy.ext "hlv/0/post/0." "hlv/0/post/0.fits.gz"
              Toy.wide Toy.smap12 (Toy.empty_world Toy.disk))
    as (Hname & a & b & c & w1 & Hk & Hrun & Hfiles & Hcalls & Hnext).
  - reflexivity.
  - reflexivity.
  - vm_compute. reflexivity.
  - destruct (Hnext Toy.wide Toy.smap12) as (w2 & Hrun2 & Hcalls2 & _).
    simpl in Hk. inversion Hk; subst a b c.
    split; [exact Hname|].
    exists w1, w2. split; [exact Hrun|].
    split; [rewrite Hfiles, Hname; apply lookup_insert_eq|].
    split; [exact Hcalls|].
    split; [exact Hrun2|]. rewrite Hcalls2. exact Hcalls.
Defined.

(** Without the suffix [savez] writes under another name than the one
    looked up, and the second lookup is a miss again. *)
Example cache_name_without_npz_suffix :
  cache_fname "hlv/0/post/0.fits" = "hlv/0/post/0.fits" /\
  savez_target "hlv/0/post/0.fits" = "hlv/0/post/0.fits.npz".
Proof. split; reflexivity. Qed.

(** The cache stage touches the files, the console and the log of kernel
    calls only. *)
Lemma interpolated_map_Done_inv (ext : externals) (filename : string)
    (tbl : sky_table) (sm : list Q) (w w' : world) (r : grid * grid * grid) :
  interpolated_map ext filename tbl sm w = Done r w' ->
  linecolor w' = linecolor w /\
  config_information w' = config_information w /\
  contours w' = contours w.
Proof.
  unfold interpolated_map. intros H.
  step_inv H as w0 Hstep. apply get_Done_inv in Hstep as [-> ->].
  destruct (bool_decide (is_Some (files w !! cache_fname filename))).
  - step_inv H as u Hstep. apply modify_Done_inv in Hstep as ->.
    unfold load_triple in H.
    step_inv H as w0 Hstep. apply get_Done_inv in Hstep as [-> ->].
    destruct (files _ !! cache_fname filename) as [[|[|a [|b [|c [|]]]]|]|];
      try discriminate.
    inversion H; subst. auto.
  - step_inv H as u Hstep. apply modify_Done_inv in Hstep as ->.
    destruct (interpolate_healpix_map ext (ra tbl) (dec tbl) sm) as [[a b] c].
    step_inv H as u' Hstep. apply modify_Done_inv in Hstep as ->.
    inversion H; subst. auto.
Qed.

(** The state in which the SNR file is read: after the check. *)
Lemma process_event_Done_inv (ext : externals) (network : list string)
    (inj : option (list Q)) (cspecs : gmap string Plottable) (fuel : nat)
    (label filename : string) (w w' : world) :
  process_event ext network inj cspecs fuel label filename w = Done tt w' ->
  exists ev w1 w1' snrs w2 w3 w4 ra_c dec_c prob_c rolled prob_r ra_p dec_p,
    vital_statistics ext inj filename w = Done ev w1 /\
    nonconvergence_check ev w1 = Done tt w1' /\
    read_snr ext filename w1' = Done snrs w2 /\
    select_linecolor cspecs label ev snrs w2 = Done tt w3 /\
    interpolated_map ext filename (sky_data ev) (smap ev) w3 =
      Done (ra_c, dec_c, prob_c) w4 /\
    roll_loop fuel (shift_and_wrap (gmst ev) ra_c) prob_c = Exits rolled prob_r /\
    basemap ext (map_grid flip_sign rolled) dec_c = (ra_p, dec_p) /\
    exists level c k ra_max dec_max network_snr,
      prob (sky_data ev) !! prb68 ev = Some level /\
      linecolor w4 = Some c /\
      argmax prob_r = Some k /\
      at_index ra_p (unravel_index k prob_r) = Some ra_max /\
      at_index dec_p (unravel_index k prob_r) = Some dec_max /\
      snrs !! "Network" = Some network_snr /\
      w' = add_figure "test_map.png"
             (append_record label
                (Aggregate (area68 ev) network_snr
                   (net_antenna_pattern_point ext (gmst ev) network ra_max dec_max))
                (add_contour (Contour ra_p dec_p prob_r level c) w4)).
Proof.
  unfold process_event. intros H.
  step_inv H as ev Hev.
  step_inv H as u Hcheck. destruct u.
  step_inv H as snrs Hsnr.
  step_inv H as u Hcol. destruct u.
  step_inv H as [[ra_c dec_c] prob_c] Hcache.
  step_inv H as [ra_r prob_r] Hrot.
  apply rotate_Done_inv in Hrot. destruct Hrot as [-> (rolled & Hloop & ->)].
  destruct (basemap ext (map_grid flip_sign rolled) dec_c) as [ra_p dec_p] eqn:Hproj.
  step_inv H as u Hdraw. destruct u.
  apply draw_contour_Done_inv in Hdraw. destruct Hdraw as (level & c & Hlevel & Hc & ->).
  step_inv H as [ra_max dec_max] Hpeak.
  apply locate_peak_Done_inv in Hpeak. destruct Hpeak as [-> (k & Hk & Hra & Hdec)].
  step_inv H as u Hemit. destruct u.
  apply emit_Done_inv in Hemit. destruct Hemit as (ns & Hns & ->).
  apply savefig_Done_inv in H. destruct H as [_ ->].
  do 14 eexists.
  repeat (split; [eassumption|]).
  exists level, c, k, ra_max, dec_max, ns.
  repeat (split; [assumption|]). reflexivity.
Qed.

(** The other way round: an event whose stages succeed one after the
    other is processed to its end, and the world it leaves is the one the
    last three stages build, the contour first, then the record, then the
    figure. *)
Lemma process_event_Done (ext : externals) (network : list string)
    (inj : option (list Q)) (cspecs : gmap string Plottable) (fuel : nat)
    (label filename : string) (w w1 w1' w2 w3 w4 : world) (ev : event)
    (snrs : gmap string Q) (ra_c dec_c prob_c rolled prob_r ra_p dec_p : grid)
    (level : Q) (c : colour) (k : nat) (ra_max dec_max network_snr : Q) :
  vital_statistics ext inj filename w = Done ev w1 ->
  nonconvergence_check ev w1 = Done tt w1' ->
  read_snr ext filename w1' = Done snrs w2 ->
  select_linecolor cspecs label ev snrs w2 = Done tt w3 ->
  interpolated_map ext filename (sky_data ev) (smap ev) w3 =
    Done (ra_c, dec_c, prob_c) w4 ->
  roll_loop fuel (shift_and_wrap (gmst ev) ra_c) prob_c = Exits rolled prob_r ->
  basemap ext (map_grid flip_sign rolled) dec_c = (ra_p, dec_p) ->
  prob (sky_data ev) !! prb68 ev = Some level ->
  linecolor w4 = Some c ->
  argmax prob_r = Some k ->
  at_index ra_p (unravel_index k prob_r) = Some ra_max ->
  at_index dec_p (unravel_index k prob_r) = Some dec_max ->
  snrs !! "Network" = Some network_snr ->
  can_save ext "test_map.png" = true ->
  process_event ext network inj cspecs fuel label filename w =
  Done tt
    (add_figure "test_map.png"
       (append_record label
          (Aggregate (area68 ev) network_snr
             (net_antenna_pattern_point ext (gmst ev) network ra_max dec_max))
          (add_contour (Contour ra_p dec_p prob_r level c) w4))).
Proof.
  intros Hev Hcheck Hsnr Hcol Hcache Hloop Hproj Hlevel Hc Hk Hra Hdec Hnet Hsave.
  assert (Hrot : rotate fuel (gmst ev) ra_c prob_c w4 =
                 Done (map_grid flip_sign rolled, prob_r) w4)
    by (unfold rotate; rewrite Hloop; reflexivity).
  assert (Hdraw : draw_contour ev ra_p dec_p prob_r w4 =
                  Done tt (add_contour (Contour ra_p dec_p prob_r level c) w4)).
  { unfold draw_contour, bind, get. rewrite Hlevel. cbn [expect ret].
    rewrite Hc. reflexivity. }
  assert (Hpeak : forall w0, locate_peak ra_p dec_p prob_r w0 = Done (ra_max, dec_max) w0).
  { intros w0. unfold locate_peak, bind. rewrite Hk. cbn [expect ret].
    rewrite Hra. cbn [expect ret]. rewrite Hdec. reflexivity. }
  assert (Hemit : forall w0,
    emit ext network label ev snrs ra_max dec_max w0 =
    Done tt (append_record label
               (Aggregate (area68 ev) network_snr
                  (net_antenna_pattern_point ext (gmst ev) network ra_max dec_max)) w0)).
  { intros w0. unfold emit, bind. rewrite Hnet. reflexivity. }
  unfold process_event.
  rewrite (bind_Done _ _ _ _ _ Hev).
  rewrite (bind_Done _ _ _ _ _ Hcheck).
  rewrite (bind_Done _ _ _ _ _ Hsnr).
  rewrite (bind_Done _ _ _ _ _ Hcol).
  rewrite (bind_Done _ _ _ _ _ Hcache).
  rewrite (bind_Done _ _ _ _ _ Hrot).
  rewrite Hproj.
  rewrite (bind_Done _ _ _ _ _ Hdraw).
  rewrite (bind_Done _ _ _ _ _ (Hpeak _)).
  rewrite (bind_Done _ _ _ _ _ (Hemit _)).
  unfold savefig. rewrite Hsave. reflexivity.
Qed.

(** ** Loops over files and labels *)

Lemma for_each_app {A} (l1 l2 : list A) (body : A -> M unit) (w : world) :
  for_each (l1 ++ l2) body w = bind (for_each l1 body) (fun _ => for_each l2 body) w.
Proof.
  revert w. induction l1 as [|x l1 IH]; intros w; [reflexivity|].
  simpl. unfold bind. unfold bind in IH.
  destruct (body x w) as [u w1|e w1|]; try reflexivity.
  apply IH.
Qed.

(** An exception in the body ends the loop: the items after it are not
    visited. *)
Lemma for_each_raise {A} (pre rest : list A) (x : A) (body : A -> M unit)
    (w0 w w' : world) (e : exn) :
  for_each pre body w0 = Done tt w ->
  body x w = Raise e w' ->
  for_each (pre ++ x :: rest) body w0 = Raise e w'.
Proof.
  intros Hpre Hx. rewrite for_each_app.
  rewrite (bind_Done _ _ _ _ _ Hpre). simpl.
  apply bind_Raise. exact Hx.
Qed.

(** ** The SNR file *)

(** What reading a missing or malformed SNR file does: an exception, and
    nothing recorded. *)
Lemma read_snr_fails (ext : externals) (filename : string) (w : world) :
  (files w !! snr_path filename = None \/
   exists lines, files w !! snr_path filename = Some (TextFile lines) /\
     forall d snrs, snr_dict ∅ lines = Some d -> float_values ext d = Some snrs ->
       snrs !! "Network" = None) ->
  exists e w',
    read_snr ext filename w = Raise e w' /\
    config_information w' = config_information w /\
    contours w' = contours w /\
    (files w !! snr_path filename = None -> e = IOError (snr_path filename)).
Proof.
  unfold read_snr, bind, get.
  intros [Hmiss|(lines & Hfile & Hbad)].
  - rewrite Hmiss. eexists _, _. split; [reflexivity|]. auto.
  - rewrite Hfile.
    destruct (snr_dict ∅ lines) as [d|] eqn:Hd; simpl.
    + destruct (float_values ext d) as [snrs|] eqn:Hf; simpl.
      * rewrite (Hbad d snrs eq_refl Hf). simpl.
        eexists _, _. split; [reflexivity|].
        split; [reflexivity|]. split; [reflexivity|]. discriminate.
      * eexists _, _. split; [reflexivity|].
        split; [reflexivity|]. split; [reflexivity|]. discriminate.
    + eexists _, _. split; [reflexivity|].
      split; [reflexivity|]. split; [reflexivity|]. discriminate.
Qed.

Lemma vital_statistics_world (ext : externals) (inj : option (list Q))
    (filename : string) (w w1 : world) (ev : event) :
  vital_statistics ext inj filename w = Done ev w1 ->
  w1 = print_line (ProcessingEvent (enum ev)) w.
Proof.
  intros H. apply vital_statistics_Done_inv in H.
  destruct H as (? & ? & ? & _ & _ & _ & _ & _ & _ & _ & _ & _ & _ & ->).
  reflexivity.
Qed.

(** The world in which the SNR file of an event is read. *)
Lemma checked_world (ev : event) (w w1 w1' : world) :
  w1 = print_line (ProcessingEvent (enum ev)) w ->
  nonconvergence_check ev w1 = Done tt w1' ->
  files w1' = files w /\ linecolor w1' = linecolor w /\
  config_information w1' = config_information w /\ contours w1' = contours w.
Proof.
  intros -> H. rewrite nonconvergence_check_Done in H.
  inversion H; subst. destruct (Np.ltb 64 (area68 ev)); auto.
Qed.

(** ** The claim on the SNR file *)

(** C2, as the specification words it, fails: with the SNR file of event 0
    missing the loop ends in an [IOError]; event 1, which is processed
    without error when taken alone, is never reached, and no record is
    left. *)
Lemma missing_snr_file_ends_the_run :
  Toy.raised Toy.run_without_snr0 = Some (IOError "hlv/0/snr.txt") /\
  (exists w', process_event Toy.ext Toy.network Toy.inj Toy.cspecs 8 "hlv"
                "hlv/1/post/1.fits.gz" (Toy.empty_world Toy.disk_without_snr0) =
              Done tt w') /\
  ~ In (ProcessingEvent 1) (stdout (Toy.final_world Toy.run_without_snr0)) /\
  config_information (Toy.final_world Toy.run_without_snr0) = ∅.
Proof.
  split; [vm_compute; reflexivity|].
  split; [eexists; vm_compute; reflexivity|].
  split; [|vm_compute; reflexivity].
  intros H. vm_compute in H.
  repeat (destruct H as [H|H]; [discriminate|]). exact H.
Qed.

(** C2, amended: when the SNR file of an event is missing, or holds no
    parseable "Network" entry, processing the event raises an exception
    ([IOError] for a missing file) before anything is drawn or recorded
    for it, and nothing catches the exception: the loop over the files of
    the label ends there without visiting the files that follow, and so
    does the loop over the labels. *)
Theorem snr_failure_ends_the_run (ext : externals) (network : list string)
    (inj : option (list Q)) (cspecs : gmap string Plottable) (fuel : nat)
    (label filename : string) (w w1 : world) (ev : event) :
  vital_statistics ext inj filename w = Done ev w1 ->
  (files w !! snr_path filename = None \/
   exists lines, files w !! snr_path filename = Some (TextFile lines) /\
     forall d snrs, snr_dict ∅ lines = Some d -> float_values ext d = Some snrs ->
       snrs !! "Network" = None) ->
  exists e w',
    process_event ext network inj cspecs fuel label filename w = Raise e w' /\
    (files w !! snr_path filename = None -> e = IOError (snr_path filename)) /\
    config_information w' = config_information w /\
    contours w' = contours w /\
    (forall pre rest w0,
       for_each pre (process_event ext network inj cspecs fuel label) w0 = Done tt w ->
       for_each (pre ++ filename :: rest)
         (process_event ext network inj cspecs fuel label) w0 = Raise e w') /\
    (forall before globpat later pre rest w00 wA,
       event_loop ext network inj cspecs fuel before w00 = Done tt wA ->
       glob ext globpat = pre ++ filename :: rest ->
       for_each pre (process_event ext network inj cspecs fuel label)
         (print_line (Globbed (length (pre ++ filename :: rest)) globpat)
            (print_line (PrintLabel label globpat) wA)) = Done tt w ->
       event_loop ext network inj cspecs fuel
         (before ++ (label, globpat) :: later) w00 = Raise e w').
Proof.
  intros Hev Hsnr.
  pose proof (vital_statistics_world _ _ _ _ _ _ Hev) as Hw1.
  pose proof (nonconvergence_check_Done ev w1) as Hcheck.
  destruct (checked_world ev w w1 _ Hw1 Hcheck) as (Hfiles & _ & Hconf & Hcont).
  destruct (read_snr_fails ext filename _
              ltac:(rewrite Hfiles; exact Hsnr)) as (e & w' & Hread & Hc & Hd & He).
  assert (Hrun : process_event ext network inj cspecs fuel label filename w = Raise e w').
  { unfold process_event.
    rewrite (bind_Done _ _ _ _ _ Hev).
    rewrite (bind_Done _ _ _ _ _ Hcheck).
    apply bind_Raise. exact Hread. }
  exists e, w'. split; [exact Hrun|].
  split; [intros Hmiss; apply He; rewrite Hfiles; exact Hmiss|].
  split; [congruence|]. split; [congruence|].
  split.
  - intros pre rest w0 Hpre. eapply for_each_raise; eassumption.
  - intros before globpat later pre rest w00 wA Hbefore Hglob Hpre.
    unfold event_loop in *.
    eapply for_each_raise; [exact Hbefore|].
    simpl. unfold bind at 1. rewrite print_Done.
    unfold bind at 1. rewrite print_Done.
    rewrite Hglob. eapply for_each_raise; eassumption.
Qed.

(** The amended C2 on the toy run without the SNR file of event 0. *)
Lemma snr_failure_ends_the_run_witness :
  exists w', Toy.run_without_snr0 = Raise (IOError "hlv/0/snr.txt") w'.
Proof.
  pose (w0 := Toy.empty_world Toy.disk_without_snr0).
  pose (w := print_line (Globbed 2 "hlv/*/post/*.fits.gz")
               (print_line (PrintLabel "hlv" "hlv/*/post/*.fits.gz") w0)).
  destruct (snr_failure_ends_the_run Toy.ext Toy.network Toy.inj Toy.cspecs 8
              "hlv" "hlv/0/post/0.fits.gz" w
              (print_line (ProcessingEvent 0) w) Toy.event0)
    as (e & w' & _ & He & _ & _ & _ & Hloop).
  - vm_compute. reflexivity.
  - left. vm_compute. reflexivity.
  - assert (E : e = IOError "hlv/0/snr.txt") by (apply He; vm_compute; reflexivity).
    exists w'. rewrite <- E.
    apply (Hloop [] "hlv/*/post/*.fits.gz" [("hklv", "hklv/*/post/*.fits.gz")]
             [] ["hlv/1/post/1.fits.gz"] w0 w0); reflexivity.
Defined.

(** ** From the check to the record *)

(** Up to the contour nothing is drawn or recorded, and only
    [select_linecolor] touches [linecolor]. *)
Lemma untouched_until_contour (ext : externals) (inj : option (list Q))
    (cspecs : gmap string Plottable) (label filename : string)
    (w w1 w1' w2 w3 w4 : world) (ev : event) (snrs : gmap string Q)
    (r : grid * grid * grid) :
  vital_statistics ext inj filename w = Done ev w1 ->
  nonconvergence_check ev w1 = Done tt w1' ->
  read_snr ext filename w1' = Done snrs w2 ->
  select_linecolor cspecs label ev snrs w2 = Done tt w3 ->
  interpolated_map ext filename (sky_data ev) (smap ev) w3 = Done r w4 ->
  config_information w4 = config_information w /\
  contours w4 = contours w /\
  linecolor w2 = linecolor w /\
  linecolor w4 = linecolor w3.
Proof.
  intros Hev Hcheck Hsnr Hcol Hcache.
  pose proof (vital_statistics_world _ _ _ _ _ _ Hev) as Hw1.
  destruct (checked_world ev w w1 w1' Hw1 Hcheck) as (_ & Hl1 & Hc1 & Hd1).
  apply read_snr_Done_inv in Hsnr.
  destruct Hsnr as (lines & d & ns & _ & _ & _ & _ & ->).
  apply interpolated_map_Done_inv in Hcache. destruct Hcache as (Hl4 & Hc4 & Hd4).
  apply select_linecolor_Done_inv in Hcol.
  destruct Hcol as (cmap & _ & [(_ & c & _ & ->)|[(_ & n & c & _ & _ & ->)|(_ & _ & ->)]]);
    simpl in *; repeat split; congruence.
Qed.

(** What an event that is processed to its end leaves under its label:
    the records that were there, and its own. *)
Lemma process_event_Done_record (ext : externals) (network : list string)
    (inj : option (list Q)) (cspecs : gmap string Plottable) (fuel : nat)
    (label filename : string) (w w' : world) :
  process_event ext network inj cspecs fuel label filename w = Done tt w' ->
  exists ev w1 network_snr antenna c,
    vital_statistics ext inj filename w = Done ev w1 /\
    config_information w' =
      <[label := default [] (config_information w !! label) ++
                 [Aggregate (area68 ev) network_snr antenna]]>
        (config_information w) /\
    contours w' = contours w ++ [c].
Proof.
  intros H. apply process_event_Done_inv in H.
  destruct H as (ev & w1 & w1' & snrs & w2 & w3 & w4 & ra_c & dec_c & prob_c &
                 rolled & prob_r & ra_p & dec_p &
                 Hev & Hcheck & Hsnr & Hcol & Hcache & _ & _ &
                 level & c & k & ra_max & dec_max & ns & _ & _ & _ & _ & _ & _ & ->).
  destruct (untouched_until_contour _ _ _ _ _ _ _ _ _ _ _ _ _ _
              Hev Hcheck Hsnr Hcol Hcache) as (Hconf & Hcont & _ & _).
  eexists ev, w1, ns, _, _. split; [exact Hev|].
  simpl. rewrite Hconf, Hcont. split; reflexivity.
Qed.

(** ** The claim on the non-convergence flag *)

(** What the stages from the SNR file to the cache print: the values
    read, and at most the note on the cache. *)
Lemma console_until_contour (ext : externals) (cspecs : gmap string Plottable)
    (label filename : string) (w1' w2 w3 w4 : world) (ev : event)
    (snrs : gmap string Q) (r : grid * grid * grid) (network_snr : Q) :
  read_snr ext filename w1' = Done snrs w2 ->
  select_linecolor cspecs label ev snrs w2 = Done tt w3 ->
  interpolated_map ext filename (sky_data ev) (smap ev) w3 = Done r w4 ->
  snrs !! "Network" = Some network_snr ->
  exists more,
    stdout w4 = stdout w1' ++ [PrintSnrs snrs; PrintNetwork network_snr] ++ more.
Proof.
  intros Hsnr Hcol Hcache Hnet.
  apply read_snr_Done_inv in Hsnr.
  destruct Hsnr as (lines & d & ns & _ & _ & _ & Hns & ->).
  rewrite Hnet in Hns. inversion Hns; subst ns.
  assert (H3 : stdout w3 = stdout w1' ++ [PrintSnrs snrs; PrintNetwork network_snr]).
  { apply select_linecolor_Done_inv in Hcol.
    destruct Hcol as (cmap & _ & [(_ & c & _ & ->)|[(_ & n & c & _ & _ & ->)|(_ & _ & ->)]]);
      simpl; rewrite <- app_assoc; reflexivity. }
  unfold interpolated_map in Hcache.
  step_inv Hcache as w0 Hstep. apply get_Done_inv in Hstep as [-> ->].
  destruct (bool_decide (is_Some (files w3 !! cache_fname filename))).
  - step_inv Hcache as u Hstep. apply modify_Done_inv in Hstep as ->.
    unfold load_triple in Hcache.
    step_inv Hcache as w0 Hstep. apply get_Done_inv in Hstep as [-> ->].
    destruct (files _ !! cache_fname filename) as [[|[|a [|b [|c [|]]]]|]|];
      try discriminate.
    inversion Hcache; subst. exists [LoadingCached (cache_fname filename)].
    simpl. rewrite H3, <- app_assoc. reflexivity.
  - step_inv Hcache as u Hstep. apply modify_Done_inv in Hstep as ->.
    destruct (interpolate_healpix_map ext (ra (sky_data ev)) (dec (sky_data ev)) (smap ev))
      as [[a b] c].
    step_inv Hcache as u' Hstep. apply modify_Done_inv in Hstep as ->.
    inversion Hcache; subst. exists []. simpl. rewrite H3. reflexivity.
Qed.

(** C3: for an event whose 68% area exceeds 64 square degrees the check
    prints the area and the warning and changes nothing else: the event
    goes through the stages that remain like any other.  When these
    succeed from the world the check leaves (the SNR file is read, the
    colour selected, the map interpolated or loaded, the roll loop exits,
    the level and the peak are found, the figure can be written) the
    event is processed to its end: its contour is drawn, and the record
    of its area, the network SNR of its file and the antenna response at
    its peak is appended to the records of its label, after those that
    were there; the records of the other labels are as they were, and the
    console shows the warning followed by the values read. *)
Theorem flagged_event_is_still_recorded (ext : externals) (network : list string)
    (inj : option (list Q)) (cspecs : gmap string Plottable) (fuel : nat)
    (label filename : string) (w w1 w2 w3 w4 : world) (ev : event)
    (snrs : gmap string Q) (ra_c dec_c prob_c rolled prob_r ra_p dec_p : grid)
    (level : Q) (c : colour) (k : nat) (ra_max dec_max network_snr : Q) :
  vital_statistics ext inj filename w = Done ev w1 ->
  (64 < area68 ev)%Q ->
  read_snr ext filename
    (print_line (SkippingEvent (enum ev)) (print_line (PrintArea (area68 ev)) w1)) =
    Done snrs w2 ->
  select_linecolor cspecs label ev snrs w2 = Done tt w3 ->
  interpolated_map ext filename (sky_data ev) (smap ev) w3 =
    Done (ra_c, dec_c, prob_c) w4 ->
  roll_loop fuel (shift_and_wrap (gmst ev) ra_c) prob_c = Exits rolled prob_r ->
  basemap ext (map_grid flip_sign rolled) dec_c = (ra_p, dec_p) ->
  prob (sky_data ev) !! prb68 ev = Some level ->
  linecolor w4 = Some c ->
  argmax prob_r = Some k ->
  at_index ra_p (unravel_index k prob_r) = Some ra_max ->
  at_index dec_p (unravel_index k prob_r) = Some dec_max ->
  snrs !! "Network" = Some network_snr ->
  can_save ext "test_map.png" = true ->
  nonconvergence_check ev w1 =
    Done tt (print_line (SkippingEvent (enum ev))
               (print_line (PrintArea (area68 ev)) w1)) /\
  exists w',
    process_event ext network inj cspecs fuel label filename w = Done tt w' /\
    config_information w' !! label =
      Some (default [] (config_information w !! label) ++
            [Aggregate (area68 ev) network_snr
               (net_antenna_pattern_point ext (gmst ev) network ra_max dec_max)]) /\
    (forall other, other <> label ->
       config_information w' !! other = config_information w !! other) /\
    contours w' = contours w ++ [Contour ra_p dec_p prob_r level c] /\
    saved_figures w' = saved_figures w4 ++ ["test_map.png"] /\
    exists more,
      stdout w' =
      stdout w ++ [ProcessingEvent (enum ev); PrintArea (area68 ev);
                   SkippingEvent (enum ev); PrintSnrs snrs;
                   PrintNetwork network_snr] ++ more.
Proof.
  intros Hev Harea Hsnr Hcol Hcache Hloop Hproj Hlevel Hc Hk Hra Hdec Hnet Hsave.
  assert (Hcheck : nonconvergence_check ev w1 =
                   Done tt (print_line (SkippingEvent (enum ev))
                              (print_line (PrintArea (area68 ev)) w1))).
  { rewrite nonconvergence_check_Done.
    assert (E : Np.ltb 64 (area68 ev) = true) by (apply ltb_spec; exact Harea).
    rewrite E. reflexivity. }
  split; [exact Hcheck|].
  eexists. split.
  { exact (process_event_Done ext network inj cspecs fuel label filename
             w w1 _ w2 w3 w4 ev snrs ra_c dec_c prob_c rolled prob_r ra_p dec_p
             level c k ra_max dec_max network_snr
             Hev Hcheck Hsnr Hcol Hcache Hloop Hproj Hlevel Hc Hk Hra Hdec Hnet Hsave). }
  destruct (untouched_until_contour _ _ _ _ _ _ _ _ _ _ _ _ _ _
              Hev Hcheck Hsnr Hcol Hcache) as (Hconf & Hcont & _ & _).
  destruct (console_until_contour _ _ _ _ _ _ _ _ _ _ _ _
              Hsnr Hcol Hcache Hnet) as (more & Hout).
  pose proof (vital_statistics_world _ _ _ _ _ _ Hev) as Hw1.
  cbn [config_information contours saved_figures stdout
       add_figure append_record add_contour].
  rewrite Hconf, Hcont.
  split; [apply lookup_insert_eq|].
  split; [intros other Hne; apply lookup_insert_ne; congruence|].
  split; [reflexivity|]. split; [reflexivity|].
  exists more. rewrite Hout, Hw1. cbn [stdout print_line].
  rewrite <- !app_assoc. reflexivity.
Qed.

(** C3 on event 0 of the toy run, whose 68% region is a twelfth of the
    sky: the event is processed to its end, and its record holds its
    area, the network SNR of its file and the response at its peak. *)
Lemma flagged_event_is_still_recorded_witness :
  (64 < area68 Toy.event0)%Q /\
  exists w' ra_max dec_max,
    Toy.run_event0 = Done tt w' /\
    (ra_max == 135000)%Q /\ (dec_max == 135000)%Q /\
    config_information w' !! "hlv" =
      Some [Aggregate (area68 Toy.event0) 12
              (net_antenna_pattern_point Toy.ext (gmst Toy.event0) Toy.network
                 ra_max dec_max)] /\
    length (contours w') = 1%nat.
Proof.
  assert (Harea : (64 < area68 Toy.event0)%Q) by (vm_compute; reflexivity).
  split; [exact Harea|].
  pose (file := "hlv/0/post/0.fits.gz").
  pose (w := Toy.empty_world Toy.disk).
  pose (w1 := print_line (ProcessingEvent 0) w).
  pose (flagged := print_line (SkippingEvent 0)
                     (print_line (PrintArea (area68 Toy.event0)) w1)).
  pose (snrs := Toy.result ∅ (read_snr Toy.ext file flagged)).
  pose (w2 := Toy.final_world (read_snr Toy.ext file flagged)).
  pose (w3 := Toy.final_world (select_linecolor Toy.cspecs "hlv" Toy.event0 snrs w2)).
  pose (w4 := Toy.final_world
                (interpolated_map Toy.ext file Toy.wide Toy.smap12 w3)).
  pose (rolled := Toy.rolled_ra
                    (roll_loop 8 (shift_and_wrap (gmst Toy.event0) Toy.ra_grid)
                       Toy.prob_grid)).
  pose (prob_r := Toy.rolled_prob
                    (roll_loop 8 (shift_and_wrap (gmst Toy.event0) Toy.ra_grid)
                       Toy.prob_grid)).
  pose (ra_p := fst (Toy.project (map_grid flip_sign rolled) Toy.dec_grid)).
  pose (dec_p := snd (Toy.project (map_grid flip_sign rolled) Toy.dec_grid)).
  pose (ra_max := default 0%Q (at_index ra_p (unravel_index 4 prob_r))).
  pose (dec_max := default 0%Q (at_index dec_p (unravel_index 4 prob_r))).
  destruct (flagged_event_is_still_recorded Toy.ext Toy.network Toy.inj Toy.cspecs 8
              "hlv" file w w1 w2 w3 w4 Toy.event0 snrs
              Toy.ra_grid Toy.dec_grid Toy.prob_grid rolled prob_r ra_p dec_p
              (4 # 10) (ColourOf "viridis" (2 # 10)) 4 ra_max dec_max 12)
    as [_ (w' & Hrun & Hrecord & _ & Hcontours & _)].
  - vm_compute. reflexivity.
  - exact Harea.
  - vm_compute. reflexivity.
  - vm_compute. reflexivity.
  - vm_compute. reflexivity.
  - vm_compute. reflexivity.
  - reflexivity.
  - reflexivity.
  - vm_compute. reflexivity.
  - vm_compute. reflexivity.
  - vm_compute. reflexivity.
  - vm_compute. reflexivity.
  - vm_compute. reflexivity.
  - reflexivity.
  - exists w', ra_max, dec_max.
    split; [exact Hrun|].
    split; [vm_compute; reflexivity|]. split; [vm_compute; reflexivity|].
    split; [exact Hrecord|].
    rewrite Hcontours. reflexivity.
Defined.

(** ** The claim on the line colour *)

Lemma select_linecolor_skips (cspecs : gmap string Plottable) (label : string)
    (ev : event) (snrs : gmap string Q) (w : world) (cmap : Plottable) :
  cspecs !! label = Some cmap ->
  quant cmap <> Some "error_region" -> quant cmap <> Some "snr" ->
  select_linecolor cspecs label ev snrs w = Done tt w.
Proof.
  intros Hc H1 H2. unfold select_linecolor, bind. rewrite Hc. simpl.
  rewrite bool_decide_eq_false_2 by exact H1.
  rewrite bool_decide_eq_false_2 by exact H2.
  reflexivity.
Qed.

(** C10, as the claim words it, fails when an earlier event has assigned
    [linecolor]: in the toy run the label [hklv] has a bare colour, its
    first event comes after the two events of [hlv], and it is processed
    to its end, its contour drawn in the colour left by the event before
    it, its record appended. *)
Lemma stale_linecolor_is_reused :
  quant <$> (Toy.cspecs !! "hklv") = Some None /\
  exists w' r,
    Toy.run_all = Done tt w' /\
    config_information w' !! "hklv" = Some [r] /\
    map contour_colour (contours w') =
      [ColourOf "viridis" (2 # 10); ColourOf "viridis" (2 # 10);
       ColourOf "viridis" (2 # 10)].
Proof.
  split; [vm_compute; reflexivity|].
  eexists. eexists.
  split; [vm_compute; reflexivity|].
  split; vm_compute; reflexivity.
Qed.

(** C10, amended: for a label whose colour specification names neither
    "error_region" nor "snr", an event processed while [linecolor] is
    still unbound, as it is when no earlier event of the run has assigned
    it, is never processed to its end; when the stages before the contour
    succeed, the event fails with the unbound name at the contour call,
    with no contour drawn and no record appended.  When an earlier event
    has assigned [linecolor], the name keeps that value: an event of such
    a label whose other stages succeed is processed to its end, its
    contour drawn in that colour and its record appended, and the name
    still holds the colour afterwards. *)
Theorem unbound_linecolor_fails_the_event (ext : externals) (network : list string)
    (inj : option (list Q)) (cspecs : gmap string Plottable) (fuel : nat)
    (label filename : string) (cmap : Plottable) :
  cspecs !! label = Some cmap ->
  quant cmap <> Some "error_region" -> quant cmap <> Some "snr" ->
  (forall w, linecolor w = None ->
     (forall w', process_event ext network inj cspecs fuel label filename w <> Done tt w') /\
     (forall ev w1 w1' snrs w2 ra_c dec_c prob_c w4 ra_r prob_r level,
        vital_statistics ext inj filename w = Done ev w1 ->
        nonconvergence_check ev w1 = Done tt w1' ->
        read_snr ext filename w1' = Done snrs w2 ->
        interpolated_map ext filename (sky_data ev) (smap ev) w2 =
          Done (ra_c, dec_c, prob_c) w4 ->
        rotate fuel (gmst ev) ra_c prob_c w4 = Done (ra_r, prob_r) w4 ->
        prob (sky_data ev) !! prb68 ev = Some level ->
        process_event ext network inj cspecs fuel label filename w =
          Raise (NameError "linecolor") w4 /\
        contours w4 = contours w /\
        config_information w4 = config_information w)) /\
  (forall w stale, linecolor w = Some stale ->
     forall ev w1 w1' snrs w2 ra_c dec_c prob_c w4 rolled prob_r ra_p dec_p
            level k ra_max dec_max network_snr,
       vital_statistics ext inj filename w = Done ev w1 ->
       nonconvergence_check ev w1 = Done tt w1' ->
       read_snr ext filename w1' = Done snrs w2 ->
       interpolated_map ext filename (sky_data ev) (smap ev) w2 =
         Done (ra_c, dec_c, prob_c) w4 ->
       roll_loop fuel (shift_and_wrap (gmst ev) ra_c) prob_c = Exits rolled prob_r ->
       basemap ext (map_grid flip_sign rolled) dec_c = (ra_p, dec_p) ->
       prob (sky_data ev) !! prb68 ev = Some level ->
       argmax prob_r = Some k ->
       at_index ra_p (unravel_index k prob_r) = Some ra_max ->
       at_index dec_p (unravel_index k prob_r) = Some dec_max ->
       snrs !! "Network" = Some network_snr ->
       can_save ext "test_map.png" = true ->
       exists w',
         process_event ext network inj cspecs fuel label filename w = Done tt w' /\
         contours w' = contours w ++ [Contour ra_p dec_p prob_r level stale] /\
         config_information w' !! label =
           Some (default [] (config_information w !! label) ++
                 [Aggregate (area68 ev) network_snr
                    (net_antenna_pattern_point ext (gmst ev) network ra_max dec_max)]) /\
         linecolor w' = Some stale).
Proof.
  intros Hc Hq1 Hq2. split.
  - intros w Hunbound. split.
    + intros w' Hrun. apply process_event_Done_inv in Hrun.
      destruct Hrun as (ev & w1 & w1' & snrs & w2 & w3 & w4 & ra_c & dec_c & prob_c &
                        rolled & prob_r & ra_p & dec_p &
                        Hev & Hcheck & Hsnr & Hcol & Hcache & _ & _ &
                        level & c & k & ra_max & dec_max & ns & _ & Hbound & _).
      destruct (untouched_until_contour _ _ _ _ _ _ _ _ _ _ _ _ _ _
                  Hev Hcheck Hsnr Hcol Hcache) as (_ & _ & Hl2 & Hl4).
      rewrite (select_linecolor_skips _ _ _ _ _ _ Hc Hq1 Hq2) in Hcol.
      inversion Hcol; subst w3. congruence.
    + intros ev w1 w1' snrs w2 ra_c dec_c prob_c w4 ra_r prob_r level
             Hev Hcheck Hsnr Hcache Hrot Hlevel.
      pose proof (select_linecolor_skips _ _ ev snrs w2 _ Hc Hq1 Hq2) as Hcol.
      destruct (untouched_until_contour _ _ _ _ _ _ _ _ _ _ _ _ _ _
                  Hev Hcheck Hsnr Hcol Hcache) as (Hconf & Hcont & Hl2 & Hl4).
      split; [|split; assumption].
      unfold process_event.
      rewrite (bind_Done _ _ _ _ _ Hev).
      rewrite (bind_Done _ _ _ _ _ Hcheck).
      rewrite (bind_Done _ _ _ _ _ Hsnr).
      rewrite (bind_Done _ _ _ _ _ Hcol).
      rewrite (bind_Done _ _ _ _ _ Hcache).
      rewrite (bind_Done _ _ _ _ _ Hrot).
      destruct (basemap ext ra_r dec_c) as [ra_p dec_p].
      apply bind_Raise.
      unfold draw_contour, bind, get. rewrite Hlevel. simpl.
      rewrite Hl4, Hl2, Hunbound. reflexivity.
  - intros w stale Hbound ev w1 w1' snrs w2 ra_c dec_c prob_c w4 rolled prob_r
           ra_p dec_p level k ra_max dec_max network_snr
           Hev Hcheck Hsnr Hcache Hloop Hproj Hlevel Hk Hra Hdec Hnet Hsave.
    pose proof (select_linecolor_skips _ _ ev snrs w2 _ Hc Hq1 Hq2) as Hcol.
    destruct (untouched_until_contour _ _ _ _ _ _ _ _ _ _ _ _ _ _
                Hev Hcheck Hsnr Hcol Hcache) as (Hconf & Hcont & Hl2 & Hl4).
    assert (Hcolour : linecolor w4 = Some stale) by congruence.
    eexists. split.
    { exact (process_event_Done ext network inj cspecs fuel label filename
               w w1 w1' w2 w2 w4 ev snrs ra_c dec_c prob_c rolled prob_r ra_p dec_p
               level stale k ra_max dec_max network_snr
               Hev Hcheck Hsnr Hcol Hcache Hloop Hproj Hlevel Hcolour Hk Hra Hdec
               Hnet Hsave). }
    cbn [config_information contours linecolor add_figure append_record add_contour].
    rewrite Hconf, Hcont.
    split; [reflexivity|]. split; [apply lookup_insert_eq | exact Hcolour].
Qed.

(** The amended C10 on the event of [hklv]: processed first it fails on
    the unbound name; processed after an event has left its colour it is
    drawn in that colour and recorded. *)
Lemma unbound_linecolor_fails_the_event_witness :
  (forall w', Toy.run_hklv_first <> Done tt w') /\
  Toy.raised Toy.run_hklv_first = Some (NameError "linecolor") /\
  contours (Toy.final_world Toy.run_hklv_first) = [] /\
  config_information (Toy.final_world Toy.run_hklv_first) = ∅ /\
  exists w' record,
    process_event Toy.ext Toy.network Toy.inj Toy.cspecs 8 "hklv"
      "hklv/1/post/1.fits.gz"
      (set_linecolor (ColourName "red") (Toy.empty_world Toy.disk)) = Done tt w' /\
    map contour_colour (contours w') = [ColourName "red"] /\
    config_information w' !! "hklv" = Some [record] /\
    linecolor w' = Some (ColourName "red").
Proof.
  pose (file := "hklv/1/post/1.fits.gz").
  destruct (unbound_linecolor_fails_the_event Toy.ext Toy.network Toy.inj Toy.cspecs 8
              "hklv" file (MkPlottable (ColorStr "yellow") None None))
    as [Hunbound Hstale].
  - vm_compute. reflexivity.
  - discriminate.
  - discriminate.
  - destruct (Hunbound (Toy.empty_world Toy.disk) eq_refl) as [Hnever _].
    split; [exact Hnever|].
    split; [vm_compute; reflexivity|].
    split; [vm_compute; reflexivity|].
    split; [vm_compute; reflexivity|].
    pose (w := set_linecolor (ColourName "red") (Toy.empty_world Toy.disk)).
    pose (ev := Toy.result Toy.event0 (vital_statistics Toy.ext Toy.inj file w)).
    pose (w1 := print_line (ProcessingEvent 1) w).
    pose (w1' := Toy.final_world (nonconvergence_check ev w1)).
    pose (snrs := Toy.result ∅ (read_snr Toy.ext file w1')).
    pose (w2 := Toy.final_world (read_snr Toy.ext file w1')).
    pose (w4 := Toy.final_world
                  (interpolated_map Toy.ext file Toy.wide Toy.smap12 w2)).
    pose (rolled := Toy.rolled_ra
                      (roll_loop 8 (shift_and_wrap (gmst ev) Toy.ra_grid)
                         Toy.prob_grid)).
    pose (prob_r := Toy.rolled_prob
                      (roll_loop 8 (shift_and_wrap (gmst ev) Toy.ra_grid)
                         Toy.prob_grid)).
    pose (ra_p := fst (Toy.project (map_grid flip_sign rolled) Toy.dec_grid)).
    pose (dec_p := snd (Toy.project (map_grid flip_sign rolled) Toy.dec_grid)).
    pose (k := default 0%nat (argmax prob_r)).
    pose (ra_max := default 0%Q (at_index ra_p (unravel_index k prob_r))).
    pose (dec_max := default 0%Q (at_index dec_p (unravel_index k prob_r))).
    destruct (Hstale w (ColourName "red") eq_refl ev w1 w1' snrs w2
                Toy.ra_grid Toy.dec_grid Toy.prob_grid w4 rolled prob_r ra_p dec_p
                (4 # 10)%Q k ra_max dec_max 12%Q)
      as (w' & Hrun & Hcontours & Hrecord & Hcolour).
    + vm_compute. reflexivity.
    + vm_compute. reflexivity.
    + vm_compute. reflexivity.
    + vm_compute. reflexivity.
    + vm_compute. reflexivity.
    + reflexivity.
    + reflexivity.
    + vm_compute. reflexivity.
    + vm_compute. reflexivity.
    + vm_compute. reflexivity.
    + vm_compute. reflexivity.
    + reflexivity.
    + exists w'. eexists.
      split; [exact Hrun|].
      split; [rewrite Hcontours; reflexivity|].
      split; [exact Hrecord | exact Hcolour].
Defined.

(** ** The peak *)

(** [argmax_from] returns the first position of the largest entry. *)
Lemma argmax_from_spec (l : list Q) :
  forall (pre : list Q) (best : Q) (besti : nat),
    (besti < length pre)%nat ->
    nth besti pre 0%Q = best ->
    (forall j, (j < length pre)%nat -> (nth j pre 0 <= best)%Q) ->
    (forall j, (j < besti)%nat -> (nth j pre 0 < best)%Q) ->
    let r := argmax_from best besti (length pre) l in
    (r < length (pre ++ l))%nat /\
    (forall j, (j < length (pre ++ l))%nat ->
       (nth j (pre ++ l) 0 <= nth r (pre ++ l) 0)%Q) /\
    (forall j, (j < r)%nat -> (nth j (pre ++ l) 0 < nth r (pre ++ l) 0)%Q).
Proof.
  induction l as [|x t IH]; intros pre best besti Hbi Hbest Hle Hlt; cbv zeta.
  - simpl. rewrite app_nil_r, Hbest. auto.
  - cbn [argmax_from].
    assert (Hlen : length (pre ++ [x]) = S (length pre))
      by (rewrite length_app; simpl; lia).
    assert (Hx : nth (length pre) (pre ++ [x]) 0%Q = x)
      by (rewrite app_nth2 by lia; rewrite Nat.sub_diag; reflexivity).
    assert (Happ : pre ++ x :: t = (pre ++ [x]) ++ t)
      by (rewrite <- app_assoc; reflexivity).
    rewrite Happ.
    destruct (Np.ltb best x) eqn:Hcmp.
    + apply ltb_spec in Hcmp.
      rewrite <- Hlen. apply IH.
      * lia.
      * exact Hx.
      * intros j Hj. rewrite Hlen in Hj.
        destruct (Nat.eq_dec j (length pre)) as [->|Hne].
        -- rewrite Hx. apply Qle_refl.
        -- rewrite app_nth1 by lia.
           apply Qle_trans with best; [apply Hle; lia | apply Qlt_le_weak; exact Hcmp].
      * intros j Hj. rewrite app_nth1 by lia.
        apply Qle_lt_trans with best; [apply Hle; lia | exact Hcmp].
    + apply ltb_false in Hcmp.
      rewrite <- Hlen. apply IH.
      * lia.
      * rewrite app_nth1 by lia. exact Hbest.
      * intros j Hj. rewrite Hlen in Hj.
        destruct (Nat.eq_dec j (length pre)) as [->|Hne].
        -- rewrite Hx. exact Hcmp.
        -- rewrite app_nth1 by lia. apply Hle. lia.
      * intros j Hj. rewrite app_nth1 by lia. apply Hlt. exact Hj.
Qed.

(** The index [np.argmax] returns holds the largest entry of the
    flattened grid, and no earlier entry is as large. *)
Lemma argmax_spec (g : grid) (k : nat) :
  argmax g = Some k ->
  (k < length (concat g))%nat /\
  (forall j, (j < length (concat g))%nat ->
     (nth j (concat g) 0 <= nth k (concat g) 0)%Q) /\
  (forall j, (j < k)%nat -> (nth j (concat g) 0 < nth k (concat g) 0)%Q).
Proof.
  unfold argmax. destruct (concat g) as [|x t]; [discriminate|].
  intros H. inversion H; subst k.
  apply (argmax_from_spec t [x] x 0%nat).
  - simpl. lia.
  - reflexivity.
  - intros j Hj. simpl in Hj. assert (j = 0%nat) by lia. subst. apply Qle_refl.
  - intros j Hj. lia.
Qed.

(** In a grid whose rows all have [W] entries, the entry at the unravelled
    index is the entry of the flattened grid. *)
Lemma at_index_flat (W : nat) (g : grid) :
  (0 < W)%nat -> Forall (fun row => length row = W) g ->
  forall k, (k < length (concat g))%nat ->
    at_index g (k / W, k mod W)%nat = Some (nth k (concat g) 0%Q).
Proof.
  intros HW Hrect. induction Hrect as [|row rest Hrow Hrest IH]; intros k Hk.
  - simpl in Hk. lia.
  - simpl in Hk. rewrite length_app in Hk. simpl concat.
    destruct (Nat.lt_ge_cases k W) as [Hlt|Hge].
    + rewrite Nat.div_small, Nat.mod_small by exact Hlt.
      unfold at_index. simpl.
      rewrite app_nth1 by lia.
      destruct (lookup_lt_is_Some_2 row k ltac:(lia)) as [x Hx].
      rewrite Hx. f_equal. symmetry. apply nth_lookup_Some with (d := 0%Q). exact Hx.
    + replace k with ((k - W) + 1 * W)%nat at 1 2 by lia.
      rewrite Nat.div_add by lia. rewrite Nat.Div0.mod_add.
      rewrite app_nth2 by lia. rewrite Hrow.
      replace ((k - W) / W + 1)%nat with (S ((k - W) / W)) by lia.
      unfold at_index in *. simpl. apply IH. lia.
Qed.

(** The peak of a rectangular grid: the entry at the unravelled [argmax]
    is the largest of the grid. *)
Lemma peak_is_maximum (g : grid) (k : nat) :
  (0 < grid_width g)%nat -> Forall (fun row => length row = grid_width g) g ->
  argmax g = Some k ->
  exists peak, at_index g (unravel_index k g) = Some peak /\
    forall row x, In row g -> In x row -> (x <= peak)%Q.
Proof.
  intros HW Hrect Hk. apply argmax_spec in Hk. destruct Hk as (Hlt & Hmax & _).
  exists (nth k (concat g) 0%Q). split.
  - unfold unravel_index. apply at_index_flat; assumption.
  - intros row x Hrow Hx.
    assert (Hin : In x (concat g)) by (apply in_concat; exists row; auto).
    apply (In_nth _ _ 0%Q) in Hin. destruct Hin as (j & Hj & <-).
    apply Hmax. exact Hj.
Qed.

(** What is handed to the antenna pattern: the entries, at the peak, of
    the two arrays the projection returned. *)
Lemma recorded_antenna_response (ext : externals) (network : list string)
    (inj : option (list Q)) (cspecs : gmap string Plottable) (fuel : nat)
    (label filename : string) (w w' : world) :
  process_event ext network inj cspecs fuel label filename w = Done tt w' ->
  exists ev w1 w3 w4 ra_c dec_c prob_c rolled prob_r ra_p dec_p k x_max y_max network_snr,
    vital_statistics ext inj filename w = Done ev w1 /\
    interpolated_map ext filename (sky_data ev) (smap ev) w3 =
      Done (ra_c, dec_c, prob_c) w4 /\
    roll_loop fuel (shift_and_wrap (gmst ev) ra_c) prob_c = Exits rolled prob_r /\
    basemap ext (map_grid flip_sign rolled) dec_c = (ra_p, dec_p) /\
    argmax prob_r = Some k /\
    at_index ra_p (unravel_index k prob_r) = Some x_max /\
    at_index dec_p (unravel_index k prob_r) = Some y_max /\
    config_information w' !! label =
      Some (default [] (config_information w !! label) ++
            [Aggregate (area68 ev) network_snr
               (net_antenna_pattern_point ext (gmst ev) network x_max y_max)]).
Proof.
  intros H. apply process_event_Done_inv in H.
  destruct H as (ev & w1 & w1' & snrs & w2 & w3 & w4 & ra_c & dec_c & prob_c &
                 rolled & prob_r & ra_p & dec_p &
                 Hev & Hcheck & Hsnr & Hcol & Hcache & Hloop & Hproj &
                 level & c & k & ra_max & dec_max & ns & _ & _ & Hk & Hra & Hdec & _ & ->).
  destruct (untouched_until_contour _ _ _ _ _ _ _ _ _ _ _ _ _ _
              Hev Hcheck Hsnr Hcol Hcache) as (Hconf & _ & _ & _).
  exists ev, w1, w3, w4, ra_c, dec_c, prob_c, rolled, prob_r, ra_p, dec_p, k,
    ra_max, dec_max, ns.
  repeat (split; [assumption|]).
  simpl. rewrite Hconf. apply lookup_insert_eq.
Qed.

(** C4 fails on the code.  In the toy run the peak of event 0 sits at row
    1, column 0 of the rolled grid, where the rotated RA is 45 degrees and
    the declination 45 degrees; the arrays indexed at the peak are the ones
    the projection returned, which hold 135000 and 135000 there, and the
    recorded response is the antenna pattern at that pair, not at the RA
    and declination of the peak, with either sign of the RA. *)
Theorem response_is_evaluated_in_map_coordinates :
  exists w' r rolled prob_r ra_p dec_p ra_peak dec_peak x_peak y_peak,
    Toy.run_event0 = Done tt w' /\
    config_information w' !! "hlv" = Some [r] /\
    roll_loop 8 (shift_and_wrap (gmst Toy.event0) Toy.ra_grid) Toy.prob_grid =
      Exits rolled prob_r /\
    argmax prob_r = Some 4%nat /\
    unravel_index 4 prob_r = (1, 0)%nat /\
    at_index rolled (1, 0)%nat = Some ra_peak /\
    at_index Toy.dec_grid (1, 0)%nat = Some dec_peak /\
    (ra_peak == 45)%Q /\ (dec_peak == 45)%Q /\
    basemap Toy.ext (map_grid flip_sign rolled) Toy.dec_grid = (ra_p, dec_p) /\
    at_index ra_p (1, 0)%nat = Some x_peak /\
    at_index dec_p (1, 0)%nat = Some y_peak /\
    (x_peak == 135000)%Q /\ (y_peak == 135000)%Q /\
    (antenna_response r ==
       net_antenna_pattern_point Toy.ext (gmst Toy.event0) Toy.network x_peak y_peak)%Q /\
    ~ (antenna_response r ==
       net_antenna_pattern_point Toy.ext (gmst Toy.event0) Toy.network ra_peak dec_peak)%Q /\
    ~ (antenna_response r ==
       net_antenna_pattern_point Toy.ext (gmst Toy.event0) Toy.network (- ra_peak) dec_peak)%Q.
Proof.
  do 10 eexists.
  repeat (split; [vm_compute; reflexivity|]).
  split; intros H; vm_compute in H; discriminate.
Qed.


(** * Further properties of the script *)

(** ** Splitting and joining *)

Lemma split_nonempty (c : ascii) (s : string) : Py.split c s <> [].
Proof.
  destruct s as [|a s]; simpl; [discriminate|].
  destruct (Ascii.eqb a c); [discriminate|].
  destruct (Py.split c s); discriminate.
Qed.

Lemma split_cons (c a : ascii) (s : string) :
  Ascii.eqb a c = false ->
  exists w ws, Py.split c s = w :: ws /\ Py.split c (String a s) = String a w :: ws.
Proof.
  intros Hne. destruct (Py.split c s) as [|w ws] eqn:E.
  - exfalso. exact (split_nonempty c s E).
  - exists w, ws. split; [reflexivity|]. simpl. rewrite Hne, E. reflexivity.
Qed.

(** A string without the separator is its own single part. *)
Lemma split_without_separator (c : ascii) (s : string) :
  count_char c s = 0%nat -> Py.split c s = [s].
Proof.
  induction s as [|a s IH]; intros H; [reflexivity|].
  simpl in H. destruct (Ascii.eqb a c) eqn:E; [discriminate|].
  simpl. rewrite E, (IH H). reflexivity.
Qed.

(** The parts of a string cut at a separator are the parts of its two
    sides. *)
Lemma split_at_separator (c : ascii) (x y : string) :
  Py.split c (x ++ String c y)%string = Py.split c x ++ Py.split c y.
Proof.
  induction x as [|a x IH].
  - simpl. rewrite Ascii.eqb_refl. reflexivity.
  - change (String a x ++ String c y)%string with (String a (x ++ String c y)%string).
    destruct (Ascii.eqb a c) eqn:E.
    + simpl. rewrite E, IH. reflexivity.
    + destruct (split_cons c a x E) as (w & ws & Hx & Hax).
      rewrite Hax. simpl. rewrite E, IH, Hx. reflexivity.
Qed.

Lemma length_split (c : ascii) (s : string) :
  length (Py.split c s) = S (count_char c s).
Proof.
  induction s as [|a s IH]; [reflexivity|].
  destruct (Ascii.eqb a c) eqn:E.
  - simpl. rewrite E. simpl. rewrite IH. reflexivity.
  - destruct (split_cons c a s E) as (w & ws & Hs & Has).
    rewrite Has. simpl. rewrite E. rewrite Hs in IH. simpl in IH. exact IH.
Qed.

(** Joining the parts with the separator gives the string back. *)
Lemma join_split (c : ascii) (s : string) :
  Py.join (String c EmptyString) (Py.split c s) = s.
Proof.
  induction s as [|a s IH]; [reflexivity|].
  destruct (Ascii.eqb a c) eqn:E.
  - apply Ascii.eqb_eq in E. subst a. simpl. rewrite Ascii.eqb_refl.
    destruct (Py.split c s) as [|w ws] eqn:Hs.
    + exfalso. exact (split_nonempty c s Hs).
    + rewrite <- IH. reflexivity.
  - destruct (split_cons c a s E) as (w & ws & Hs & Has).
    rewrite Has. rewrite Hs in IH. rewrite <- IH.
    destruct ws as [|w2 ws]; reflexivity.
Qed.

(** ** The path of the SNR file *)

(** The SNR file of a map is looked for two directories above the map:
    for a map [d/a/b], with no slash in [a] and [b], it is [d/snr.txt]. *)
Theorem snr_path_two_levels_up (d a b : string) :
  count_char "/" a = 0%nat -> count_char "/" b = 0%nat ->
  snr_path (d ++ "/" ++ a ++ "/" ++ b)%string = (d ++ "/snr.txt")%string.
Proof.
  intros Ha Hb. unfold snr_path.
  change (d ++ "/" ++ a ++ "/" ++ b)%string
    with (d ++ String "/" (a ++ String "/" b))%string.
  rewrite !split_at_separator.
  rewrite (split_without_separator _ a Ha), (split_without_separator _ b Hb).
  rewrite length_app. simpl length.
  replace (length (Py.split "/" d) + 2 - 2)%nat with (length (Py.split "/" d)) by lia.
  rewrite take_app_length.
  change "/"%string with (String "/"%char EmptyString).
  rewrite join_split. reflexivity.
Qed.

Lemma snr_path_two_levels_up_witness :
  snr_path "runs/hlv/7/post/skymap_7.fits.gz" = "runs/hlv/7/snr.txt".
Proof.
  apply (snr_path_two_levels_up "runs/hlv/7" "post" "skymap_7.fits.gz"); reflexivity.
Defined.

(** A map named with fewer than two slashes has its SNR file looked for
    at the root: [/snr.txt]. *)
Theorem snr_path_of_shallow_name (filename : string) :
  (count_char "/" filename <= 1)%nat -> snr_path filename = "/snr.txt".
Proof.
  intros H. unfold snr_path.
  rewrite length_split.
  replace (S (count_char "/" filename) - 2)%nat with 0%nat by lia.
  rewrite take_0. reflexivity.
Qed.

Lemma snr_path_of_shallow_name_witness :
  snr_path "post/0.fits.gz" = "/snr.txt".
Proof. apply snr_path_of_shallow_name. simpl. lia. Defined.

(** ** The lines of the SNR file *)

(** A line is an item of the dictionary exactly when it has one colon. *)
Lemma snr_item_Some_iff (l : string) :
  is_Some (snr_item l) <-> count_char ":" l = 1%nat.
Proof.
  unfold snr_item.
  pose proof (length_split ":" l) as Hlen.
  destruct (Py.split ":" l) as [|k [|v [|x rest]]]; simpl in *; split; intros H;
    try lia; try (destruct H; discriminate); eauto.
Qed.

Lemma snr_dict_Some_iff (lines : list string) :
  forall d, is_Some (snr_dict d lines) <->
            Forall (fun l => count_char ":" l = 1%nat) lines.
Proof.
  induction lines as [|l rest IH]; intros d; simpl.
  - split; [constructor | eauto].
  - pose proof (snr_item_Some_iff l) as Hitem.
    destruct (snr_item l) as [[k v]|].
    + rewrite IH. split.
      * intros Hrest. constructor; [apply Hitem; eauto | exact Hrest].
      * intros Hall. inversion Hall; assumption.
    + split.
      * intros [? H]. discriminate.
      * intros Hall. inversion Hall; subst.
        destruct Hitem as [_ Hitem]. destruct (Hitem ltac:(assumption)) as [? ?].
        discriminate.
Qed.

(** One line of the SNR file without a colon, or with more than one (a
    blank line, a time of day), makes the read fail with a [ValueError];
    nothing is printed. *)
Theorem snr_file_needs_one_colon_per_line (ext : externals) (filename : string)
    (w : world) (lines : list string) (l : string) :
  files w !! snr_path filename = Some (TextFile lines) ->
  In l lines -> count_char ":" l <> 1%nat ->
  read_snr ext filename w = Raise (ValueError "dict") w.
Proof.
  intros Hfile Hin Hbad. unfold read_snr, bind, get. rewrite Hfile.
  destruct (snr_dict ∅ lines) as [d|] eqn:Hd; [|reflexivity].
  exfalso.
  assert (Hall : Forall (fun l => count_char ":" l = 1%nat) lines)
    by (apply (snr_dict_Some_iff lines ∅); eauto).
  rewrite Forall_forall in Hall. apply Hbad, Hall.
  apply list_elem_of_In. exact Hin.
Qed.

Lemma snr_file_needs_one_colon_per_line_witness :
  read_snr Toy.ext "hlv/0/post/0.fits.gz"
    (Toy.empty_world {["hlv/0/snr.txt" := TextFile ["Network: 12"; ""]]}) =
  Raise (ValueError "dict")
    (Toy.empty_world {["hlv/0/snr.txt" := TextFile ["Network: 12"; ""]]}).
Proof.
  apply (snr_file_needs_one_colon_per_line _ _ _ ["Network: 12"; ""] "").
  - vm_compute. reflexivity.
  - simpl. tauto.
  - discriminate.
Defined.

(** ** The event number of a file name *)

(** Past the last digit the scan only closes the run it was reading. *)
Lemma digit_runs_without_digit (t : string) :
  has_digit t = false ->
  forall cur done_,
    Py.digit_runs cur done_ t =
    match cur with Some n => n :: done_ | None => done_ end.
Proof.
  induction t as [|c t IH]; intros H cur done_; [reflexivity|].
  simpl in H. apply orb_false_iff in H. destruct H as [Hc Ht].
  simpl. rewrite Hc. rewrite (IH Ht). reflexivity.
Qed.

Lemma digit_runs_app_without_digit (s t : string) :
  has_digit t = false ->
  forall cur done_,
    Py.digit_runs cur done_ (s ++ t)%string = Py.digit_runs cur done_ s.
Proof.
  intros Ht. induction s as [|c s IH]; intros cur done_.
  - simpl. apply digit_runs_without_digit. exact Ht.
  - change (String c s ++ t)%string with (String c (s ++ t)%string).
    simpl. destruct (Py.is_digit c); apply IH.
Qed.

(** The scan never forgets a run. *)
Lemma digit_runs_length (s : string) :
  forall (cur : option nat) (done_ : list nat),
    (length done_ + match cur with Some _ => 1 | None => 0 end
     + (if has_digit s then match cur with Some _ => 0 | None => 1 end else 0)
     <= length (Py.digit_runs cur done_ s))%nat.
Proof.
  induction s as [|c s IH]; intros cur done_.
  - simpl. destruct cur; simpl; lia.
  - simpl. destruct (Py.is_digit c) eqn:Hc; simpl.
    + specialize (IH (Some (match cur with
                            | Some n => 10 * n + (nat_of_ascii c - 48)
                            | None => nat_of_ascii c - 48
                            end)%nat) done_).
      simpl in IH. destruct cur; destruct (has_digit s); simpl in *; lia.
    + specialize (IH None (match cur with Some n => n :: done_ | None => done_ end)).
      destruct cur; destruct (has_digit s); simpl in *; lia.
Qed.

(** A name has an event number exactly when it has a digit: without one,
    [m[-1]] is an [IndexError]. *)
Theorem get_event_num_needs_a_digit (fname : string) :
  get_event_num fname = None <-> has_digit fname = false.
Proof.
  unfold get_event_num. split.
  - intros H. destruct (has_digit fname) eqn:Hd; [|reflexivity].
    pose proof (digit_runs_length fname None []) as Hlen.
    rewrite Hd in Hlen. simpl in Hlen.
    destruct (Py.digit_runs None [] fname); [simpl in Hlen; lia | discriminate].
  - intros H. rewrite (digit_runs_without_digit fname H). reflexivity.
Qed.

(** What follows the last digit of a name has no say in its event number:
    the suffix of the map files does not matter. *)
Theorem get_event_num_ignores_tail (s t : string) :
  has_digit t = false -> get_event_num (s ++ t)%string = get_event_num s.
Proof.
  intros Ht. unfold get_event_num.
  rewrite digit_runs_app_without_digit by exact Ht. reflexivity.
Qed.

Lemma get_event_num_ignores_tail_witness :
  get_event_num "run3/post/skymap_42.fits.gz" = Some 42%nat.
Proof.
  transitivity (get_event_num "run3/post/skymap_42"); [|reflexivity].
  exact (get_event_num_ignores_tail "run3/post/skymap_42" ".fits.gz" eq_refl).
Defined.

(** A file name without a digit ends the event, and with it the run, at
    its first line. *)
Theorem event_without_number_fails (ext : externals) (network : list string)
    (inj : option (list Q)) (cspecs : gmap string Plottable) (fuel : nat)
    (label filename : string) (w : world) :
  has_digit filename = false ->
  process_event ext network inj cspecs fuel label filename w =
  Raise (IndexError "m[-1]") w.
Proof.
  intros H. apply get_event_num_needs_a_digit in H.
  unfold process_event, vital_statistics, bind. rewrite H. reflexivity.
Qed.

Lemma event_without_number_fails_witness :
  process_event Toy.ext Toy.network Toy.inj Toy.cspecs 8 "hlv" "post/skymap.fits.gz"
    (Toy.empty_world Toy.disk) =
  Raise (IndexError "m[-1]") (Toy.empty_world Toy.disk).
Proof. apply event_without_number_fails. reflexivity. Defined.

(** ** Colour and path specifications *)

(** What [Plottable.__init__] builds: a colormap comes with the scale of
    its quantity, a plain colour with none. *)
Lemma new_Plottable_inv (ext : externals) (name : string) (q : option string)
    (p : Plottable) :
  new_Plottable ext name q = inr p ->
  quant p = q /\
  ((is_cmap ext name = true /\ colors p = Colormap name /\
    exists scale, _scales q = Some scale /\ _norm p = Some scale) \/
   (is_cmap ext name = false /\ colors p = ColorStr name /\ _norm p = None)).
Proof.
  unfold new_Plottable. destruct (is_cmap ext name) eqn:Hc.
  - destruct (_scales q) as [scale|] eqn:Hs; [|discriminate].
    intros H. inversion H; subst. simpl. split; [reflexivity|].
    left. split; [reflexivity|]. split; [reflexivity|]. eauto.
  - intros H. inversion H; subst. simpl. split; [reflexivity|].
    right. auto.
Qed.

Lemma parse_colorspecs_from_invariant (ext : externals) (P : Plottable -> Prop) :
  (forall name q p, new_Plottable ext name q = inr p -> P p) ->
  forall specs out d,
    (forall label p, out !! label = Some p -> P p) ->
    parse_colorspecs_from ext out specs = inr d ->
    forall label p, d !! label = Some p -> P p.
Proof.
  intros Hnew. induction specs as [|ps rest IH]; intros out d Hout H.
  - simpl in H. inversion H; subst. exact Hout.
  - simpl in H.
    destruct (Py.split "=" ps) as [|label [|cmap [|x xs]]]; try discriminate.
    destruct (match Py.split "," cmap with
              | [quant; cmap'] => new_Plottable ext cmap' (Some quant)
              | _ => new_Plottable ext cmap None
              end) as [e|p0] eqn:Hmade; [discriminate|].
    refine (IH _ _ _ H).
    intros l p Hl. destruct (decide (label = l)) as [->|Hne].
    + rewrite lookup_insert_eq in Hl. inversion Hl; subst.
      destruct (Py.split "," cmap) as [|q [|c [|y ys]]];
        eapply Hnew; exact Hmade.
    + rewrite lookup_insert_ne in Hl by exact Hne. eapply Hout. exact Hl.
Qed.

(** Every colour specification that [parse_colorspecs] accepts can be
    called: a colormap always has the scale of its quantity, which is one
    of the three [_scales] knows, and a plain colour answers with its
    name whatever the value. *)
Theorem parsed_Plottable_is_callable (ext : externals) (specs : list string)
    (d : gmap string Plottable) (label : string) (p : Plottable) (val : Q) :
  parse_colorspecs ext specs = inr d ->
  d !! label = Some p ->
  (exists c, call_Plottable p val = inr c) /\
  (forall name, colors p = ColorStr name ->
     call_Plottable p val = inr (ColourName name)) /\
  (forall name, colors p = Colormap name ->
     is_cmap ext name = true /\
     (quant p = None \/ quant p = Some "snr" \/ quant p = Some "error_region")).
Proof.
  intros Hparse Hlabel.
  pose (P := fun p : Plottable =>
    exists name, (is_cmap ext name = true /\ colors p = Colormap name /\
       exists scale, _scales (quant p) = Some scale /\ _norm p = Some scale) \/
      (is_cmap ext name = false /\ colors p = ColorStr name /\ _norm p = None)).
  assert (HP : P p).
  { apply (parse_colorspecs_from_invariant ext P) with (specs := specs) (out := ∅)
      (d := d) (label := label).
    - intros name q p0 H0. apply new_Plottable_inv in H0.
      destruct H0 as [<- H0]. exists name. exact H0.
    - intros l p0 Hl. rewrite lookup_empty in Hl. discriminate.
    - exact Hparse.
    - exact Hlabel. }
  destruct HP as [name [(Hc & Hcol & scale & Hs & Hn)|(Hc & Hcol & Hn)]].
  - split; [|split].
    + unfold call_Plottable. rewrite Hcol, Hn. destruct scale. eauto.
    + intros name' H'. congruence.
    + intros name' H'. rewrite Hcol in H'. inversion H'; subst name'.
      split; [exact Hc|].
      unfold _scales in Hs. destruct (quant p) as [q|]; [|auto].
      destruct (String.eqb q "snr") eqn:E1.
      * apply String.eqb_eq in E1. subst. auto.
      * destruct (String.eqb q "error_region") eqn:E2; [|discriminate].
        apply String.eqb_eq in E2. subst. auto.
  - split; [|split].
    + unfold call_Plottable. rewrite Hcol. eauto.
    + intros name' H'. unfold call_Plottable. rewrite H'. reflexivity.
    + intros name' H'. congruence.
Qed.

Lemma parsed_Plottable_is_callable_witness :
  exists c, call_Plottable (MkPlottable (Colormap "viridis") (Some "snr") (Some (10, 20)%Q)) 12
            = inr c.
Proof.
  apply (parsed_Plottable_is_callable Toy.ext ["hlv=snr,viridis"; "hklv=yellow"]
           Toy.cspecs "hlv" _ 12).
  - vm_compute. reflexivity.
  - vm_compute. reflexivity.
Defined.

Lemma count_char_app (c : ascii) (a b : string) :
  count_char c (a ++ b)%string = (count_char c a + count_char c b)%nat.
Proof.
  induction a as [|x a IH]; [reflexivity|].
  change (String x a ++ b)%string with (String x (a ++ b)%string).
  simpl. rewrite IH. lia.
Qed.

(** A string with one separator, cut there: two parts. *)
Lemma split_in_two (c : ascii) (a b : string) :
  count_char c a = 0%nat -> count_char c b = 0%nat ->
  Py.split c (a ++ String c b)%string = [a; b].
Proof.
  intros Ha Hb. rewrite split_at_separator.
  rewrite (split_without_separator c a Ha), (split_without_separator c b Hb).
  reflexivity.
Qed.

(** The three ways a colour specification [label=colorspec] is read.
    - [label=name]: no quantity; [name] is a colormap scaled from 0 to 64
      if matplotlib knows it, a plain colour otherwise.
    - [label=quantity,name] with a name matplotlib does not know: a plain
      colour that keeps the quantity, known or not.
    - [label=quantity,name] with a colormap and a quantity other than
      "snr" and "error_region": the [KeyError] of the scale lookup, which
      the handlers for [ValueError] let through. *)
Theorem colorspec_forms (ext : externals) (out : gmap string Plottable)
    (rest : list string) (label q name : string) :
  count_char "=" label = 0%nat -> count_char "=" q = 0%nat ->
  count_char "=" name = 0%nat ->
  count_char "," q = 0%nat -> count_char "," name = 0%nat ->
  parse_colorspecs_from ext out ((label ++ "=" ++ name)%string :: rest) =
    parse_colorspecs_from ext
      (<[label := if is_cmap ext name
                  then MkPlottable (Colormap name) None (Some (0, 64)%Q)
                  else MkPlottable (ColorStr name) None None]> out) rest /\
  (is_cmap ext name = false ->
   parse_colorspecs_from ext out ((label ++ "=" ++ q ++ "," ++ name)%string :: rest) =
     parse_colorspecs_from ext
       (<[label := MkPlottable (ColorStr name) (Some q) None]> out) rest) /\
  (is_cmap ext name = true -> q <> "snr" -> q <> "error_region" ->
   parse_colorspecs_from ext out ((label ++ "=" ++ q ++ "," ++ name)%string :: rest) =
     inl (KeyError q)).
Proof.
  intros Hl Hq Hn Hq' Hn'.
  assert (Hbare : Py.split "=" (label ++ "=" ++ name)%string = [label; name])
    by (apply split_in_two; assumption).
  assert (Hpair : Py.split "=" (label ++ "=" ++ q ++ "," ++ name)%string =
                  [label; (q ++ "," ++ name)%string]).
  { apply (split_in_two "=" label (q ++ "," ++ name)%string); [exact Hl|].
    rewrite count_char_app. change ("," ++ name)%string with (String "," name).
    simpl. rewrite Hq, Hn. reflexivity. }
  assert (Hname : Py.split "," name = [name])
    by (apply split_without_separator; exact Hn').
  assert (Hqn : Py.split "," (q ++ "," ++ name)%string = [q; name])
    by (apply split_in_two; assumption).
  split; [|split].
  - cbn [parse_colorspecs_from]. rewrite Hbare, Hname.
    unfold new_Plottable. destruct (is_cmap ext name); reflexivity.
  - intros Hc. cbn [parse_colorspecs_from]. rewrite Hpair, Hqn.
    unfold new_Plottable. rewrite Hc. reflexivity.
  - intros Hc H1 H2. cbn [parse_colorspecs_from]. rewrite Hpair, Hqn.
    unfold new_Plottable, _scales. rewrite Hc.
    apply String.eqb_neq in H1, H2. rewrite H1, H2. reflexivity.
Qed.

Lemma colorspec_forms_witness :
  parse_colorspecs Toy.ext ["hlv=area,viridis"] = inl (KeyError "area") /\
  parse_colorspecs Toy.ext ["hlv=area,yellow"] =
    inr {["hlv" := MkPlottable (ColorStr "yellow") (Some "area") None]}.
Proof.
  destruct (colorspec_forms Toy.ext ∅ [] "hlv" "area" "viridis") as (_ & _ & H3);
    try reflexivity.
  destruct (colorspec_forms Toy.ext ∅ [] "hlv" "area" "yellow") as (_ & H2 & _);
    try reflexivity.
  split.
  - apply H3; [reflexivity | discriminate | discriminate].
  - apply H2. reflexivity.
Defined.

(** A path specification needs exactly one ["="]: without one, or with a
    second one inside the glob pattern, the unpacking of the split fails;
    with one, the label is bound to the pattern. *)
Theorem pathspec_needs_one_equals (out : gmap string string) (rest : list string)
    (ps : string) :
  (count_char "=" ps <> 1%nat ->
   parse_pathspecs_from out (ps :: rest) = inl (ValueError "unpack")) /\
  (count_char "=" ps = 1%nat ->
   exists label globpat,
     ps = (label ++ "=" ++ globpat)%string /\
     parse_pathspecs_from out (ps :: rest) =
       parse_pathspecs_from (<[label := globpat]> out) rest).
Proof.
  pose proof (length_split "=" ps) as Hlen.
  pose proof (join_split "=" ps) as Hjoin.
  cbn [parse_pathspecs_from].
  destruct (Py.split "=" ps) as [|label [|globpat [|x xs]]]; simpl in Hlen;
    (split; intros H; [try reflexivity; lia | try lia]).
  exists label, globpat. split; [|reflexivity].
  rewrite <- Hjoin. reflexivity.
Qed.

Lemma parse_pathspecs_from_app (xs ys : list string) :
  forall out,
    parse_pathspecs_from out (xs ++ ys) =
    match parse_pathspecs_from out xs with
    | inr d => parse_pathspecs_from d ys
    | inl e => inl e
    end.
Proof.
  induction xs as [|ps xs IH]; intros out; [reflexivity|].
  simpl. destruct (Py.split "=" ps) as [|label [|globpat [|x rest]]];
    try reflexivity.
  apply IH.
Qed.

(** The path specifications fill a dictionary: a specification given
    later for a label replaces the earlier one, and leaves the other
    labels alone. *)
Theorem pathspec_last_wins (specs : list string) (d0 : gmap string string)
    (label globpat : string) :
  parse_pathspecs specs = inr d0 ->
  count_char "=" label = 0%nat -> count_char "=" globpat = 0%nat ->
  exists d,
    parse_pathspecs (specs ++ [(label ++ "=" ++ globpat)%string]) = inr d /\
    d !! label = Some globpat /\
    forall l, l <> label -> d !! l = d0 !! l.
Proof.
  intros Hparse Hl Hg. unfold parse_pathspecs in *.
  rewrite parse_pathspecs_from_app, Hparse.
  cbn [parse_pathspecs_from].
  assert (Hsplit : Py.split "=" (label ++ "=" ++ globpat)%string = [label; globpat])
    by (apply split_in_two; assumption).
  rewrite Hsplit.
  exists (<[label := globpat]> d0). split; [reflexivity|]. split.
  - apply lookup_insert_eq.
  - intros l Hne. apply lookup_insert_ne. congruence.
Qed.

Lemma pathspec_last_wins_witness :
  exists d,
    parse_pathspecs ["HLV=old/*"; "HKLV=runs/*"; "HLV=new/*"] = inr d /\
    d !! "HLV" = Some "new/*" /\
    d !! "HKLV" = Some "runs/*".
Proof.
  destruct (pathspec_last_wins ["HLV=old/*"; "HKLV=runs/*"]
              (<["HKLV" := "runs/*"]> (<["HLV" := "old/*"]> ∅)) "HLV" "new/*")
    as (d & Hd & Hlast & Hother); try reflexivity.
  exists d. split; [exact Hd|]. split; [exact Hlast|].
  rewrite Hother by discriminate. reflexivity.
Defined.

(** ** More on the interpolation cache *)

(** When a file stands under the cache name, whatever it holds, the
    interpolation kernel is not called and no file is written: the stage
    returns what is stored or raises. *)
Theorem existing_cache_file_is_never_recomputed (ext : externals)
    (filename : string) (tbl : sky_table) (sm : list Q) (w : world) :
  is_Some (files w !! cache_fname filename) ->
  match interpolated_map ext filename tbl sm w with
  | Done _ w' => kernel_calls w' = kernel_calls w /\ files w' = files w
  | Raise _ w' => kernel_calls w' = kernel_calls w /\ files w' = files w
  | Spin => False
  end.
Proof.
  intros Hsome. unfold interpolated_map, bind, get.
  rewrite bool_decide_eq_true_2 by exact Hsome.
  unfold print, modify, load_triple, bind, get. simpl.
  destruct Hsome as [f Hf]. rewrite Hf.
  destruct f as [lines|[|a [|b [|c [|x xs]]]]|]; simpl; auto.
Qed.

Lemma existing_cache_file_is_never_recomputed_witness :
  match interpolated_map Toy.ext "hlv/0/post/0.fits.gz" Toy.wide Toy.smap12
          (Toy.empty_world {["hlv/0/post/0.intrp.npz" := TextFile ["half written"]]})
  with
  | Done _ w' | Raise _ w' =>
      kernel_calls w' = [] /\
      files w' = {["hlv/0/post/0.intrp.npz" := TextFile ["half written"]]}
  | Spin => False
  end.
Proof.
  assert (Hsome : is_Some
    (files (Toy.empty_world {["hlv/0/post/0.intrp.npz" := TextFile ["half written"]]})
       !! cache_fname "hlv/0/post/0.fits.gz"))
    by (eexists; vm_compute; reflexivity).
  exact (existing_cache_file_is_never_recomputed Toy.ext "hlv/0/post/0.fits.gz"
           Toy.wide Toy.smap12 _ Hsome).
Defined.

(** Replacing leaves a name alone in which the old text does not occur. *)
Lemma replace_without_occurrence (old new s : string) :
  contains old s = false -> Py.replace old new s = s.
Proof.
  unfold Py.replace. induction s as [|c s IH]; intros H; [reflexivity|].
  cbn [contains] in H. apply orb_false_iff in H. destruct H as [Hp Hs].
  cbn [Py.replace_from]. rewrite Hp, (IH Hs). reflexivity.
Qed.

(** A map whose name does not contain ["fits.gz"], such as an uncompressed
    [.fits] map, is its own cache name: the map file itself is taken for
    the cache, loading it fails, and the kernel is never called. *)
Theorem map_without_suffix_is_taken_for_its_cache (ext : externals)
    (filename : string) (tbl : sky_table) (sm : list Q) (w : world) :
  contains "fits.gz" filename = false ->
  files w !! filename = Some MapFile ->
  cache_fname filename = filename /\
  interpolated_map ext filename tbl sm w =
    Raise (IOError filename) (print_line (LoadingCached filename) w).
Proof.
  intros Hno Hfile.
  assert (Hname : cache_fname filename = filename)
    by (apply replace_without_occurrence; exact Hno).
  split; [exact Hname|].
  unfold interpolated_map, bind, get. rewrite Hname, Hfile.
  rewrite bool_decide_eq_true_2 by eauto.
  unfold print, modify, load_triple, bind, get. simpl. rewrite Hfile. reflexivity.
Qed.

Lemma map_without_suffix_is_taken_for_its_cache_witness :
  interpolated_map Toy.ext "hlv/0/post/0.fits" Toy.wide Toy.smap12
    (Toy.empty_world {["hlv/0/post/0.fits" := MapFile]}) =
  Raise (IOError "hlv/0/post/0.fits")
    (print_line (LoadingCached "hlv/0/post/0.fits")
       (Toy.empty_world {["hlv/0/post/0.fits" := MapFile]})).
Proof.
  apply (map_without_suffix_is_taken_for_its_cache Toy.ext "hlv/0/post/0.fits").
  - reflexivity.
  - vm_compute. reflexivity.
Defined.

Lemma string_length_append (s t : string) :
  String.length (s ++ t)%string = (String.length s + String.length t)%nat.
Proof.
  induction s as [|c s IH]; [reflexivity|].
  change (String c s ++ t)%string with (String c (s ++ t)%string).
  simpl. rewrite IH. reflexivity.
Qed.

Lemma append_longer (s t : string) : t <> EmptyString -> (s ++ t)%string <> s.
Proof.
  intros Ht E. apply (f_equal String.length) in E.
  rewrite string_length_append in E.
  destruct t; [contradiction|]. simpl in E. lia.
Qed.

(** When the cache name does not end in [".npz"], [savez] writes beside
    it: after a miss the cache name is still free, the next lookup is a
    miss again, and the kernel is called a second time. *)
Theorem cache_name_without_npz_is_never_hit (ext : externals) (filename : string)
    (tbl : sky_table) (sm : list Q) (w : world) :
  Py.endswith ".npz" (cache_fname filename) = false ->
  files w !! cache_fname filename = None ->
  exists r w1 w2,
    interpolated_map ext filename tbl sm w = Done r w1 /\
    files w1 !! cache_fname filename = None /\
    interpolated_map ext filename tbl sm w1 = Done r w2 /\
    kernel_calls w2 = kernel_calls w ++ [filename; filename].
Proof.
  intros Hsuffix Hmiss.
  pose proof (interpolated_map_miss ext filename tbl sm w Hmiss) as Hrun.
  destruct (interpolate_healpix_map ext (ra tbl) (dec tbl) sm) as [[a b] c] eqn:Hk.
  unfold savez_target in Hrun. rewrite Hsuffix in Hrun.
  set (w1 := set_files (insert (cache_fname filename ++ ".npz")%string
                               (NpzFile [a; b; c]))
                       (log_kernel_call filename w)) in *.
  assert (Hmiss1 : files w1 !! cache_fname filename = None).
  { unfold w1. simpl. rewrite lookup_insert_ne; [exact Hmiss|].
    apply append_longer. discriminate. }
  pose proof (interpolated_map_miss ext filename tbl sm w1 Hmiss1) as Hrun1.
  rewrite Hk in Hrun1.
  eexists (a, b, c), w1, _. split; [exact Hrun|]. split; [exact Hmiss1|].
  split; [exact Hrun1|].
  simpl. rewrite <- app_assoc. reflexivity.
Qed.

Lemma cache_name_without_npz_is_never_hit_witness :
  exists r w1 w2,
    interpolated_map Toy.ext "hlv/0/post/0.fits.gz.bak" Toy.wide Toy.smap12
      (Toy.empty_world Toy.disk) = Done r w1 /\
    interpolated_map Toy.ext "hlv/0/post/0.fits.gz.bak" Toy.wide Toy.smap12 w1 =
      Done r w2 /\
    kernel_calls w2 = ["hlv/0/post/0.fits.gz.bak"; "hlv/0/post/0.fits.gz.bak"].
Proof.
  destruct (cache_name_without_npz_is_never_hit Toy.ext "hlv/0/post/0.fits.gz.bak"
              Toy.wide Toy.smap12 (Toy.empty_world Toy.disk))
    as (r & w1 & w2 & H1 & _ & H2 & Hcalls).
  - reflexivity.
  - vm_compute. reflexivity.
  - exists r, w1, w2. split; [exact H1|]. split; [exact H2 | exact Hcalls].
Defined.

(** ** More on the roll loop *)

(** Whenever the loop exits, both arrays have been rolled by the same
    number of columns, fewer than the tests it was given, and the test
    fails on the RA grid it returns. *)
Theorem roll_loop_rolls_both_alike (fuel : nat) :
  forall ra_int prob_int rolled prob_rolled,
    roll_loop fuel ra_int prob_int = Exits rolled prob_rolled ->
    exists k, (k < fuel)%nat /\
      rolled = Nat.iter k roll ra_int /\
      prob_rolled = Nat.iter k roll prob_int /\
      roll_test rolled = inr false.
Proof.
  induction fuel as [|fuel IH]; intros ra_int prob_int rolled prob_rolled H;
    [discriminate|].
  simpl in H. destruct (roll_test ra_int) as [e|[|]] eqn:Htest; try discriminate.
  - destruct (IH _ _ _ _ H) as (k & Hk & Hr & Hp & Ht).
    exists (S k). split; [lia|]. rewrite !Nat.iter_succ_r. auto.
  - inversion H; subst. exists 0%nat. split; [lia|]. auto.
Qed.

Lemma roll_loop_rolls_both_alike_witness :
  exists k, (k < 8)%nat /\
    [[10; 100; -170; -80]%Q] = Nat.iter k roll [[-80; 10; 100; -170]%Q] /\
    [[2; 3; 4; 1]%Q] = Nat.iter k roll [[1; 2; 3; 4]%Q].
Proof.
  destruct (roll_loop_rolls_both_alike 8 [[-80; 10; 100; -170]%Q] [[1; 2; 3; 4]%Q]
              [[10; 100; -170; -80]%Q] [[2; 3; 4; 1]%Q]) as (k & Hk & Hr & Hp & _).
  - vm_compute. reflexivity.
  - exists k. auto.
Defined.

(** Rolling only moves the entries of a row around. *)
Lemma roll_row_Permutation (row : list Q) : roll_row row ≡ₚ row.
Proof.
  destruct row as [|x t]; [reflexivity|].
  simpl. symmetry. apply Permutation_cons_append.
Qed.

Lemma iter_roll_Permutation (k : nat) (g : grid) :
  Forall2 (fun rolled row => rolled ≡ₚ row) (Nat.iter k roll g) g.
Proof.
  induction k as [|k IH]; simpl.
  - apply Forall2_same_length_lookup_2; [reflexivity|].
    intros i x y Hx Hy. rewrite Hx in Hy. inversion Hy. reflexivity.
  - unfold roll at 1.
    apply Forall2_fmap_l. eapply Forall2_impl; [exact IH|].
    intros rolled row Hperm. simpl. rewrite roll_row_Permutation. exact Hperm.
Qed.

(** The loop only moves columns: the grids it returns have, row by row,
    the entries of the grids it was given, and the same width. *)
Theorem roll_loop_permutes_rows (fuel : nat) (ra_int prob_int rolled prob_rolled : grid) :
  roll_loop fuel ra_int prob_int = Exits rolled prob_rolled ->
  Forall2 (fun r row => r ≡ₚ row) rolled ra_int /\
  Forall2 (fun r row => r ≡ₚ row) prob_rolled prob_int /\
  grid_width rolled = grid_width ra_int.
Proof.
  intros H. apply roll_loop_rolls_both_alike in H.
  destruct H as (k & _ & -> & -> & _).
  split; [apply iter_roll_Permutation|]. split; [apply iter_roll_Permutation|].
  destruct ra_int as [|row rest].
  - assert (Hnil : Nat.iter k roll ([] : grid) = []).
    { clear. induction k as [|k IH]; [reflexivity|]. simpl. rewrite IH. reflexivity. }
    rewrite Hnil. reflexivity.
  - rewrite iter_roll_cons. simpl. apply length_iter_roll_row.
Qed.

Lemma roll_loop_permutes_rows_witness :
  Forall2 (fun r row => r ≡ₚ row) [[10; 100; -170; -80]%Q] [[-80; 10; 100; -170]%Q].
Proof.
  apply (roll_loop_permutes_rows 8 [[-80; 10; 100; -170]%Q] [[1; 2; 3; 4]%Q]
           [[10; 100; -170; -80]%Q] [[2; 3; 4; 1]%Q]).
  vm_compute. reflexivity.
Defined.

Lemma roll_test_error (ra_int : grid) (e : exn) :
  roll_test ra_int = inl e ->
  first_corner ra_int = None /\ e = IndexError "ra_int[0,0]".
Proof.
  unfold roll_test.
  destruct ra_int as [|row rest]; simpl; [intros H; inversion H; auto|].
  destruct row as [|x t]; simpl; [intros H; inversion H; auto|].
  destruct (last (x :: t)) eqn:E; [discriminate|].
  apply last_None in E. discriminate.
Qed.

(** The loop raises only at its first test, and only on a grid that has
    no first entry: an [IndexError], before anything is rolled. *)
Theorem roll_loop_fails_iff (fuel : nat) (ra_int prob_int : grid) (e : exn) :
  roll_loop fuel ra_int prob_int = Fails e <->
  (0 < fuel)%nat /\ first_corner ra_int = None /\ e = IndexError "ra_int[0,0]".
Proof.
  split.
  - revert ra_int prob_int.
    induction fuel as [|fuel IH]; intros ra_int prob_int H; [discriminate|].
    simpl in H. destruct (roll_test ra_int) as [e'|[|]] eqn:Htest; try discriminate.
    + inversion H; subst e'. apply roll_test_error in Htest.
      split; [lia|]. exact Htest.
    + destruct (IH _ _ H) as (_ & Hfirst & He). exfalso.
      unfold roll_test in Htest.
      destruct ra_int as [|[|x t] rest]; simpl in *; try discriminate.
      destruct t; discriminate.
  - intros (Hfuel & Hfirst & ->). destruct fuel as [|fuel]; [lia|].
    simpl. unfold roll_test. rewrite Hfirst. reflexivity.
Qed.

(** The entries at the two ends of a rolled row are entries of the row. *)
Lemma rolled_corners_in_row (k : nat) (row : list Q) (a b : Q) :
  head (Nat.iter k roll_row row) = Some a ->
  last (Nat.iter k roll_row row) = Some b ->
  In a row /\ In b row.
Proof.
  intros Ha Hb.
  assert (Hperm : Nat.iter k roll_row row ≡ₚ row).
  { clear. induction k as [|k IH]; [reflexivity|].
    simpl. rewrite roll_row_Permutation. exact IH. }
  split; apply list_elem_of_In; rewrite <- Hperm.
  - apply head_Some_elem_of. exact Ha.
  - apply last_Some_elem_of. exact Hb.
Qed.

Lemma Qlt_decide (x y : Q) : {(x < y)%Q} + {~ (x < y)%Q}.
Proof.
  destruct (Qlt_le_dec x y) as [H|H]; [left; exact H|].
  right. apply Qle_not_lt. exact H.
Qed.

(** The loop never exits exactly on a first row that is not empty and
    whose entries are all above zero, or all below. *)
Theorem roll_loop_never_exits_iff (row : list Q) (rest prob_int : grid) :
  (forall fuel, roll_loop fuel (row :: rest) prob_int = Running) <->
  row <> [] /\
  (List.Forall (fun x => (0 < x)%Q) row \/ List.Forall (fun x => (x < 0)%Q) row).
Proof.
  split.
  - intros Hrun.
    assert (Hne : row <> []).
    { intros ->. specialize (Hrun 1%nat). discriminate. }
    split; [exact Hne|].
    destruct (List.Forall_Exists_dec (fun x => (0 < x)%Q) (fun x => Qlt_decide 0 x) row)
      as [Hpos|Hnp]; [left; exact Hpos|].
    destruct (List.Forall_Exists_dec (fun x => (x < 0)%Q) (fun x => Qlt_decide x 0) row)
      as [Hneg|Hnn]; [right; exact Hneg|].
    exfalso.
    apply List.Exists_exists in Hnp, Hnn.
    destruct Hnp as (x & Hx & Hx0). destruct Hnn as (y & Hy & Hy0).
    assert (Hstr : straddles_zero row).
    { split; [exists x | exists y]; split; try assumption.
      - apply Qnot_lt_le. exact Hx0.
      - apply Qnot_lt_le. exact Hy0. }
    destruct (straddling_row_has_exit row rest Hstr) as (k0 & _ & Hexit).
    destruct (roll_loop_exits_within k0 (row :: rest) prob_int) as (k & _ & _ & Hloop).
    + intros j _. apply roll_test_iter_defined. exact Hne.
    + exact Hexit.
    + specialize (Hloop (S k) ltac:(lia)). rewrite Hrun in Hloop. discriminate.
  - intros [Hne Hsign] fuel. apply roll_loop_running.
    intros j. rewrite iter_roll_cons.
    destruct (head (Nat.iter j roll_row row)) as [a|] eqn:Ha.
    2:{ exfalso. apply head_None in Ha. apply (f_equal (@length Q)) in Ha.
        rewrite length_iter_roll_row in Ha. destruct row; [contradiction|discriminate]. }
    destruct (last (Nat.iter j roll_row row)) as [b|] eqn:Hb.
    2:{ exfalso. apply last_None in Hb. apply (f_equal (@length Q)) in Hb.
        rewrite length_iter_roll_row in Hb. destruct row; [contradiction|discriminate]. }
    rewrite (roll_test_corners _ _ a b Ha Hb). f_equal.
    destruct (rolled_corners_in_row j row a b Ha Hb) as [Hina Hinb].
    apply ratio_positive_iff.
    destruct Hsign as [Hpos|Hneg].
    + rewrite List.Forall_forall in Hpos. left.
      split; [apply Hpos; exact Hina | apply Qlt_le_weak, Hpos; exact Hinb].
    + rewrite List.Forall_forall in Hneg. right.
      split; apply Hneg; assumption.
Qed.

(** ** The hour of the event, and wrapping twice *)

(** [np.mod] by a positive modulus lands in [0, m). *)
Lemma mod_range (x m : Q) : (0 < m)%Q -> (0 <= Np.mod_ x m < m)%Q.
Proof.
  intros Hm. unfold Np.mod_.
  pose proof (Qfloor_le (x / m)) as Hlo.
  pose proof (Qlt_floor (x / m)) as Hhi.
  rewrite inject_Z_plus in Hhi. change (inject_Z 1) with 1%Q in Hhi.
  set (f := inject_Z (Qfloor (x / m))) in *.
  assert (Hx : (x == m * (x / m))%Q) by (field; lra).
  assert (H1 : (m * f <= m * (x / m))%Q) by (apply Qmult_le_l; assumption).
  assert (H2 : (m * (x / m) < m * (f + 1))%Q) by (apply Qmult_lt_l; assumption).
  assert (H3 : (m * (f + 1) == m * f + m)%Q) by ring.
  split; lra.
Qed.

(** The hour an event is rotated by lies between 0 and 24, below 24. *)
Theorem event_hour_in_day (ext : externals) (inj : option (list Q))
    (filename : string) (w w1 : world) (ev : event) :
  vital_statistics ext inj filename w = Done ev w1 ->
  (0 <= gmst ev < 24)%Q.
Proof.
  intros H. apply vital_statistics_Done_inv in H.
  destruct H as (table & t & ns & _ & _ & _ & _ & _ & Hg & _).
  rewrite Hg. apply mod_range. reflexivity.
Qed.

Lemma event_hour_in_day_witness : (0 <= gmst Toy.event0 < 24)%Q.
Proof.
  apply (event_hour_in_day Toy.ext Toy.inj "hlv/0/post/0.fits.gz"
           (Toy.empty_world Toy.disk)
           (print_line (ProcessingEvent 0) (Toy.empty_world Toy.disk))).
  vm_compute. reflexivity.
Defined.

(** Within a turn of the range, wrapping twice is wrapping once. *)
Theorem wraparound_idempotent (x : Q) :
  (-540 <= x <= 540)%Q -> wraparound (wraparound x) = wraparound x.
Proof.
  intros Hx. apply wraparound_inside.
  destruct (wraparound_cases x) as [[H E]|[[H E]|[H E]]]; rewrite E; lra.
Qed.

Lemma wraparound_idempotent_witness :
  wraparound (wraparound 270) = wraparound 270.
Proof. apply wraparound_idempotent. split; discriminate. Defined.

(** ** The two ends of the credible-region search *)

(** When the first pixel alone holds 68% of the mass, the 68% rank is 0:
    the event reports an area of zero and is not flagged. *)
Theorem dominant_pixel_gives_zero_area (ext : externals) (inj : option (list Q))
    (filename : string) (w w1 : world) (ev : event) :
  vital_statistics ext inj filename w = Done ev w1 ->
  nondecreasing (cumul (sky_data ev)) ->
  (68 # 100 <= nth 0 (cumul (sky_data ev)) 0)%Q ->
  prb68 ev = 0%nat /\ (area68 ev == 0)%Q /\
  nonconvergence_check ev w1 = Done tt w1.
Proof.
  intros Hev Hsorted Hfirst.
  apply vital_statistics_Done_inv in Hev.
  destruct Hev as (table & t & ns & _ & _ & _ & _ & _ & _ & _ & H68 & _).
  destruct (searchsorted_spec (cumul (sky_data ev)) (68 # 100) Hsorted) as (_ & Hbelow & _).
  assert (Hrank : prb68 ev = 0%nat).
  { rewrite H68. destruct (searchsorted (cumul (sky_data ev)) (68 # 100)) as [|r] eqn:E;
      [reflexivity|].
    specialize (Hbelow 0%nat ltac:(lia)). lra. }
  assert (Harea : (area68 ev == 0)%Q).
  { unfold area68, region_area. rewrite Hrank. simpl. ring. }
  split; [exact Hrank|]. split; [exact Harea|].
  rewrite nonconvergence_check_Done.
  assert (E : Np.ltb 64 (area68 ev) = false) by (apply ltb_false; lra).
  rewrite E. reflexivity.
Qed.

Lemma dominant_pixel_gives_zero_area_witness :
  (region_area (searchsorted (cumul narrow) (68 # 100)) (Healpy.nside2pixarea 1) == 0)%Q.
Proof.
  pose (ext := Externals (fun _ => inr (narrow, Toy.smap12))
                 (interpolate_healpix_map Toy.ext) (net_antenna_pattern_point Toy.ext)
                 (basemap Toy.ext) (float_of_string Toy.ext) (is_cmap Toy.ext)
                 (glob Toy.ext) (can_save Toy.ext)).
  pose (ev := Event 0 (Np.mod_ (10800 / 3600) 24) narrow Toy.smap12
                (Healpy.nside2pixarea 1) 0 2 2).
  destruct (dominant_pixel_gives_zero_area ext Toy.inj "hlv/0/post/0.fits.gz"
              (Toy.empty_world Toy.disk)
              (print_line (ProcessingEvent 0) (Toy.empty_world Toy.disk)) ev)
    as (_ & Harea & _).
  - vm_compute. reflexivity.
  - apply is_nondecreasing_sound. reflexivity.
  - vm_compute. discriminate.
  - exact Harea.
Defined.

(** When no entry of the cumulative sequence reaches 68%, the rank is the
    length of the sequence, one past the last pixel: the contour level
    [prob[prb68]] does not exist, and drawing the contour raises an
    [IndexError] before the line colour is looked at. *)
Theorem unreached_mass_fails_the_contour (ext : externals) (inj : option (list Q))
    (filename : string) (w w1 w2 : world) (ev : event)
    (ra_int dec_int prob_int : grid) :
  vital_statistics ext inj filename w = Done ev w1 ->
  nondecreasing (cumul (sky_data ev)) ->
  (forall j, (j < length (cumul (sky_data ev)))%nat ->
     (nth j (cumul (sky_data ev)) 0 < 68 # 100)%Q) ->
  (length (prob (sky_data ev)) <= length (cumul (sky_data ev)))%nat ->
  prb68 ev = length (cumul (sky_data ev)) /\
  draw_contour ev ra_int dec_int prob_int w2 = Raise (IndexError "prob[prb68]") w2.
Proof.
  intros Hev Hsorted Hlow Hlen.
  apply vital_statistics_Done_inv in Hev.
  destruct Hev as (table & t & ns & _ & _ & _ & _ & _ & _ & _ & H68 & _).
  destruct (searchsorted_spec (cumul (sky_data ev)) (68 # 100) Hsorted)
    as (Hrange & _ & Habove).
  assert (Hrank : prb68 ev = length (cumul (sky_data ev))).
  { rewrite H68.
    destruct (Nat.eq_dec (searchsorted (cumul (sky_data ev)) (68 # 100))
                         (length (cumul (sky_data ev)))) as [E|E]; [exact E|].
    exfalso.
    specialize (Habove (searchsorted (cumul (sky_data ev)) (68 # 100)) ltac:(lia)).
    specialize (Hlow (searchsorted (cumul (sky_data ev)) (68 # 100)) ltac:(lia)).
    lra. }
  split; [exact Hrank|].
  unfold draw_contour, bind.
  rewrite (lookup_ge_None_2 (prob (sky_data ev)) (prb68 ev)) by lia.
  reflexivity.
Qed.

Lemma unreached_mass_fails_the_contour_witness :
  draw_contour
    (Event 0 (Np.mod_ (10800 / 3600) 24)
       (SkyTable [3 # 10; 5 # 10]%Q [3 # 10; 2 # 10]%Q [] []) Toy.smap12
       (Healpy.nside2pixarea 1) 2 2 2)
    Toy.ra_grid Toy.dec_grid Toy.prob_grid (Toy.empty_world ∅) =
  Raise (IndexError "prob[prb68]") (Toy.empty_world ∅).
Proof.
  pose (tbl := SkyTable [3 # 10; 5 # 10]%Q [3 # 10; 2 # 10]%Q [] []).
  pose (ext := Externals (fun _ => inr (tbl, Toy.smap12))
                 (interpolate_healpix_map Toy.ext) (net_antenna_pattern_point Toy.ext)
                 (basemap Toy.ext) (float_of_string Toy.ext) (is_cmap Toy.ext)
                 (glob Toy.ext) (can_save Toy.ext)).
  apply (unreached_mass_fails_the_contour ext Toy.inj "hlv/0/post/0.fits.gz"
           (Toy.empty_world Toy.disk)
           (print_line (ProcessingEvent 0) (Toy.empty_world Toy.disk))).
  - vm_compute. reflexivity.
  - apply is_nondecreasing_sound. reflexivity.
  - intros j Hj. simpl in Hj. destruct j as [|[|j]]; [reflexivity | reflexivity | lia].
  - simpl. lia.
Defined.

(** ** The peak, on an example *)

Lemma peak_is_maximum_witness :
  exists peak,
    at_index Toy.prob_grid (unravel_index 5 Toy.prob_grid) = Some peak /\
    forall row x, In row Toy.prob_grid -> In x row -> (x <= peak)%Q.
Proof.
  apply (peak_is_maximum Toy.prob_grid 5).
  - simpl. lia.
  - repeat constructor.
  - reflexivity.
Defined.

(** ** What every stage leaves alone *)

Lemma preserves_bind {A B} (R : world -> world -> Prop) (m : M A) (k : A -> M B) :
  (forall w1 w2 w3, R w1 w2 -> R w2 w3 -> R w1 w3) ->
  preserves R m -> (forall a, preserves R (k a)) -> preserves R (bind m k).
Proof.
  intros Htrans Hm Hk w. unfold bind. specialize (Hm w).
  destruct (m w) as [a w1|e w1|]; [|exact Hm|exact I].
  specialize (Hk a w1). destruct (k a w1) as [b w2|e w2|]; eauto.
Qed.

Lemma same_records_trans (w1 w2 w3 : world) :
  same_records w1 w2 -> same_records w2 w3 -> same_records w1 w3.
Proof. unfold same_records. congruence. Qed.

(** Destruct whatever the goal branches on. *)
Ltac break_match :=
  match goal with
  | |- context [match ?x with _ => _ end] =>
      lazymatch x with
      | context [match _ with _ => _ end] => fail
      | _ => destruct x eqn:?
      end
  end.










Lemma raise_keeps_bind {A B} (m : M A) (k : A -> M B) :
  preserves same_records m ->
  (forall a w1 e w', k a w1 = Raise e w' -> same_records w1 w') ->
  forall w e w', bind m k w = Raise e w' -> same_records w w'.
Proof.
  intros Hm Hk w e w' H. unfold bind in H. specialize (Hm w).
  destruct (m w) as [a w1|e1 w1|]; [|inversion H; subst; exact Hm|discriminate].
  eapply same_records_trans; [exact Hm|]. eapply Hk. exact H.
Qed.

(** ** Records and failures *)




(** With a figure that cannot be written, event 0 of the toy run fails
    after its record was appended. *)
Example record_survives_failed_savefig :
  let run := process_event ext_without_savefig Toy.network Toy.inj Toy.cspecs 8
               "hlv" "hlv/0/post/0.fits.gz" (Toy.empty_world Toy.disk) in
  Toy.raised run = Some (IOError "test_map.png") /\
  length (default [] (config_information (Toy.final_world run) !! "hlv")) = 1%nat /\
  saved_figures (Toy.final_world run) = [].
Proof. vm_compute. repeat split; reflexivity. Qed.

(** A loop over the files of a label that runs to its end leaves one more
    record under the label for every file, keeps the records that were
    there in front, and leaves the records of the other labels alone. *)
Theorem one_record_per_file (ext : externals) (network : list string)
    (inj : option (list Q)) (cspecs : gmap string Plottable) (fuel : nat)
    (label : string) (found : list string) :
  forall w w',
    for_each found (process_event ext network inj cspecs fuel label) w = Done tt w' ->
    (exists added,
       length added = length found /\
       default [] (config_information w' !! label) =
         default [] (config_information w !! label) ++ added) /\
    (forall other, other <> label ->
       config_information w' !! other = config_information w !! other).
Proof.
  induction found as [|filename rest IH]; intros w w' H.
  - simpl in H. inversion H; subst. split.
    + exists []. split; [reflexivity|]. rewrite app_nil_r. reflexivity.
    + reflexivity.
  - simpl in H. apply bind_Done_inv in H. destruct H as ([] & w1 & Hfirst & Hrest).
    apply process_event_Done_record in Hfirst.
    destruct Hfirst as (ev & w0 & ns & antenna & c & _ & Hconf & _).
    destruct (IH _ _ Hrest) as [(added & Hlen & Hadded) Hother].
    split.
    + exists (Aggregate (area68 ev) ns antenna :: added).
      split; [simpl; rewrite Hlen; reflexivity|].
      rewrite Hadded, Hconf, lookup_insert_eq. simpl.
      rewrite <- app_assoc. reflexivity.
    + intros other Hne. rewrite (Hother other Hne), Hconf.
      apply lookup_insert_ne. congruence.
Qed.

Lemma one_record_per_file_witness :
  exists added,
    length added = 2%nat /\
    default [] (config_information
                  (Toy.final_world
                     (for_each ["hlv/0/post/0.fits.gz"; "hlv/1/post/1.fits.gz"]
                        (process_event Toy.ext Toy.network Toy.inj Toy.cspecs 8 "hlv")
                        (Toy.empty_world Toy.disk))) !! "hlv") = [] ++ added.
Proof.
  apply (one_record_per_file Toy.ext Toy.network Toy.inj Toy.cspecs 8 "hlv"
           ["hlv/0/post/0.fits.gz"; "hlv/1/post/1.fits.gz"] (Toy.empty_world Toy.disk)).
  vm_compute. reflexivity.
Defined.

(** ** Labels and line colours *)

(** A label of the path specifications without a colour specification
    fails its events with a [KeyError] on the label: after the SNR file
    was read, and before the cache is looked at, so that no file is
    written and the kernel is not called. *)
Theorem label_without_colorspec_fails (ext : externals) (network : list string)
    (inj : option (list Q)) (cspecs : gmap string Plottable) (fuel : nat)
    (label filename : string) (w w1 w1' w2 : world) (ev : event)
    (snrs : gmap string Q) :
  cspecs !! label = None ->
  vital_statistics ext inj filename w = Done ev w1 ->
  nonconvergence_check ev w1 = Done tt w1' ->
  read_snr ext filename w1' = Done snrs w2 ->
  process_event ext network inj cspecs fuel label filename w = Raise (KeyError label) w2 /\
  files w2 = files w /\ kernel_calls w2 = kernel_calls w.
Proof.
  intros Hnone Hev Hcheck Hsnr. split.
  - unfold process_event.
    rewrite (bind_Done _ _ _ _ _ Hev).
    rewrite (bind_Done _ _ _ _ _ Hcheck).
    rewrite (bind_Done _ _ _ _ _ Hsnr).
    apply bind_Raise. unfold select_linecolor, bind. rewrite Hnone. reflexivity.
  - pose proof (vital_statistics_world _ _ _ _ _ _ Hev) as ->.
    rewrite nonconvergence_check_Done in Hcheck. inversion Hcheck; subst w1'.
    apply read_snr_Done_inv in Hsnr.
    destruct Hsnr as (lines & d & ns & _ & _ & _ & _ & ->).
    destruct (Np.ltb 64 (area68 ev)); split; reflexivity.
Qed.

Lemma label_without_colorspec_fails_witness :
  Toy.raised
    (process_event Toy.ext Toy.network Toy.inj ∅ 8 "hlv" "hlv/0/post/0.fits.gz"
       (Toy.empty_world Toy.disk)) = Some (KeyError "hlv").
Proof.
  pose (w := Toy.empty_world Toy.disk).
  pose (w1 := print_line (ProcessingEvent 0) w).
  pose (w1' := Toy.final_world (nonconvergence_check Toy.event0 w1)).
  pose (o := read_snr Toy.ext "hlv/0/post/0.fits.gz" w1').
  destruct (label_without_colorspec_fails Toy.ext Toy.network Toy.inj ∅ 8
              "hlv" "hlv/0/post/0.fits.gz" w w1 w1' (Toy.final_world o) Toy.event0
              (match o with Done snrs _ => snrs | _ => ∅ end)) as [Hrun _].
  - reflexivity.
  - vm_compute. reflexivity.
  - vm_compute. reflexivity.
  - vm_compute. reflexivity.
  - fold w. rewrite Hrun. reflexivity.
Defined.

Lemma never_unbound_bind {A B} (m : M A) (k : A -> M B) :
  never_unbound m -> (forall a, never_unbound (k a)) -> never_unbound (bind m k).
Proof.
  intros Hm Hk w Hw. unfold bind. specialize (Hm w Hw).
  destruct (m w) as [a w1|e w1|]; [|exact Hm|exact I].
  apply Hk. exact Hm.
Qed.

Lemma vital_statistics_never_unbound (ext : externals) (inj : option (list Q))
    (filename : string) :
  (forall f, create_table ext f <> inl (NameError "linecolor")) ->
  never_unbound (vital_statistics ext inj filename).
Proof.
  intros Hext w Hw.
  unfold vital_statistics, bind, expect, lift, ret, raise, print, modify.
  destruct (get_event_num filename); [|discriminate].
  destruct inj as [table|]; [|discriminate].
  destruct (table !! n); [|discriminate].
  destruct (create_table ext filename) as [e|[tbl sm]] eqn:Hct.
  - intros ->. exact (Hext filename Hct).
  - destruct (Healpy.npix2nside (length sm)) as [ns|]; [|discriminate].
    destruct (Healpy.nside2pixarea_defined ns); [exact Hw | discriminate].
Qed.

Lemma nonconvergence_check_never_unbound (ev : event) :
  never_unbound (nonconvergence_check ev).
Proof.
  intros w Hw. rewrite nonconvergence_check_Done.
  destruct (Np.ltb 64 (area68 ev)); exact Hw.
Qed.

Lemma read_snr_never_unbound (ext : externals) (filename : string) :
  never_unbound (read_snr ext filename).
Proof.
  intros w Hw.
  unfold read_snr, bind, get, expect, ret, raise, print, modify.
  repeat (cbv beta; try exact Hw; try discriminate; break_match).
Qed.

Lemma call_Plottable_error (p : Plottable) (val : Q) (e : exn) :
  call_Plottable p val = inl e -> e = TypeError "_norm".
Proof.
  unfold call_Plottable. destruct (colors p); [discriminate|].
  destruct (_norm p) as [[? ?]|]; [discriminate|]. intros H. inversion H. reflexivity.
Qed.

Lemma select_linecolor_never_unbound (cspecs : gmap string Plottable) (label : string)
    (ev : event) (snrs : gmap string Q) :
  never_unbound (select_linecolor cspecs label ev snrs).
Proof.
  intros w Hw.
  unfold select_linecolor, bind, expect, lift, ret, raise, modify.
  destruct (cspecs !! label) as [cmap|]; [|discriminate].
  destruct (bool_decide (quant cmap = Some "error_region")).
  - destruct (call_Plottable cmap (area68 ev)) as [e|c] eqn:E.
    + apply call_Plottable_error in E. subst. discriminate.
    + simpl. eauto.
  - destruct (bool_decide (quant cmap = Some "snr")); [|exact Hw].
    destruct (snrs !! "Network") as [ns|]; [|discriminate].
    destruct (call_Plottable cmap ns) as [e|c] eqn:E.
    + apply call_Plottable_error in E. subst. discriminate.
    + simpl. eauto.
Qed.

Lemma interpolated_map_never_unbound (ext : externals) (filename : string)
    (tbl : sky_table) (sm : list Q) :
  never_unbound (interpolated_map ext filename tbl sm).
Proof.
  intros w Hw.
  unfold interpolated_map, load_triple, savez, bind, get, expect, ret, raise,
    print, modify.
  repeat (cbv beta; try exact Hw; try discriminate; break_match).
Qed.

Lemma rotate_never_unbound (fuel : nat) (g : Q) (ra_int prob_int : grid) :
  never_unbound (rotate fuel g ra_int prob_int).
Proof.
  intros w Hw. unfold rotate, ret, raise.
  destruct (roll_loop fuel (shift_and_wrap g ra_int) prob_int) as [r p|e|] eqn:E;
    [exact Hw| |exact I].
  apply roll_loop_fails_iff in E. destruct E as (_ & _ & ->). discriminate.
Qed.

Lemma draw_contour_never_unbound (ev : event) (ra_int dec_int prob_int : grid) :
  never_unbound (draw_contour ev ra_int dec_int prob_int).
Proof.
  intros w Hw.
  unfold draw_contour, bind, get, expect, ret, raise, modify.
  destruct (prob (sky_data ev) !! prb68 ev); [|discriminate].
  destruct Hw as [c Hc]. rewrite Hc. simpl. eauto.
Qed.

Lemma locate_peak_never_unbound (ra_int dec_int prob_int : grid) :
  never_unbound (locate_peak ra_int dec_int prob_int).
Proof.
  intros w Hw.
  unfold locate_peak, bind, get, expect, ret, raise, modify.
  repeat (cbv beta; try exact Hw; try discriminate; break_match).
Qed.

Lemma emit_never_unbound (ext : externals) (network : list string) (label : string)
    (ev : event) (snrs : gmap string Q) (ra_max dec_max : Q) :
  never_unbound (emit ext network label ev snrs ra_max dec_max).
Proof.
  intros w Hw. unfold emit, bind, expect, ret, raise, modify.
  destruct (snrs !! "Network"); [exact Hw | discriminate].
Qed.

Lemma process_event_never_unbound (ext : externals) (network : list string)
    (inj : option (list Q)) (cspecs : gmap string Plottable) (fuel : nat)
    (label filename : string) :
  (forall f, create_table ext f <> inl (NameError "linecolor")) ->
  never_unbound (process_event ext network inj cspecs fuel label filename).
Proof.
  intros Hext. unfold process_event.
  apply never_unbound_bind; [apply vital_statistics_never_unbound; exact Hext|]. intros ev.
  apply never_unbound_bind; [apply nonconvergence_check_never_unbound|]. intros _.
  apply never_unbound_bind; [apply read_snr_never_unbound|]. intros snrs.
  apply never_unbound_bind; [apply select_linecolor_never_unbound|]. intros _.
  apply never_unbound_bind; [apply interpolated_map_never_unbound|].
  intros [[ra_c dec_c] prob_c].
  apply never_unbound_bind; [apply rotate_never_unbound|]. intros [ra_r prob_r].
  destruct (basemap ext ra_r dec_c) as [ra_p dec_p].
  apply never_unbound_bind; [apply draw_contour_never_unbound|]. intros _.
  apply never_unbound_bind; [apply locate_peak_never_unbound|]. intros [ra_max dec_max].
  apply never_unbound_bind; [apply emit_never_unbound|]. intros _.
  intros w Hw. unfold savefig.
  destruct (can_save ext "test_map.png"); [exact Hw | discriminate].
Qed.

(** Once [linecolor] is bound it stays bound: from a world in which it is
    bound, no event of the loop over the files of any label fails on the
    unbound name, and the loop ends with the name still bound (provided
    [create_table] does not itself raise that name). *)
Theorem bound_linecolor_is_never_missed (ext : externals) (network : list string)
    (inj : option (list Q)) (cspecs : gmap string Plottable) (fuel : nat)
    (label : string) (found : list string) (w : world) :
  (forall f, create_table ext f <> inl (NameError "linecolor")) ->
  is_Some (linecolor w) ->
  match for_each found (process_event ext network inj cspecs fuel label) w with
  | Done _ w' => is_Some (linecolor w')
  | Raise e _ => e <> NameError "linecolor"
  | Spin => True
  end.
Proof.
  intros Hext. revert w.
  change (never_unbound (for_each found (process_event ext network inj cspecs fuel label))).
  induction found as [|filename rest IH].
  - intros w Hw. exact Hw.
  - simpl. apply never_unbound_bind.
    + apply process_event_never_unbound. exact Hext.
    + intros _. exact IH.
Qed.

Lemma bound_linecolor_is_never_missed_witness :
  match for_each ["hklv/1/post/1.fits.gz"]
          (process_event Toy.ext Toy.network Toy.inj Toy.cspecs 8 "hklv")
          (set_linecolor (ColourName "red") (Toy.empty_world Toy.disk))
  with
  | Done _ w' => is_Some (linecolor w')
  | Raise e _ => e <> NameError "linecolor"
  | Spin => True
  end.
Proof.
  apply (bound_linecolor_is_never_missed Toy.ext Toy.network Toy.inj Toy.cspecs 8
           "hklv" ["hklv/1/post/1.fits.gz"]
           (set_linecolor (ColourName "red") (Toy.empty_world Toy.disk))).
  - intros f. discriminate.
  - eexists. reflexivity.
Defined.

(** ** Values of the SNR file and of the record *)

(** Every value of the SNR file is converted, not only the one of the
    network: a single value that [float] rejects, under any key, fails
    the read with a [ValueError]. *)
Theorem one_bad_value_fails_the_read (ext : externals) (filename : string)
    (w : world) (lines : list string) (d : gmap string string) (k v : string) :
  files w !! snr_path filename = Some (TextFile lines) ->
  snr_dict ∅ lines = Some d ->
  d !! k = Some v -> float_of_string ext v = None ->
  read_snr ext filename w = Raise (ValueError "float") w.
Proof.
  intros Hfile Hd Hk Hv. unfold read_snr, bind, get. rewrite Hfile, Hd. simpl.
  unfold float_values.
  rewrite bool_decide_eq_false_2; [reflexivity|].
  intros Hall. specialize (Hall k v Hk). simpl in Hall.
  rewrite Hv in Hall. destruct Hall as [? ?]. discriminate.
Qed.

Lemma one_bad_value_fails_the_read_witness :
  read_snr Toy.ext "hlv/0/post/0.fits.gz"
    (Toy.empty_world {["hlv/0/snr.txt" := TextFile ["H1: n/a"; "Network: 12"]]}) =
  Raise (ValueError "float")
    (Toy.empty_world {["hlv/0/snr.txt" := TextFile ["H1: n/a"; "Network: 12"]]}).
Proof.
  apply (one_bad_value_fails_the_read Toy.ext "hlv/0/post/0.fits.gz" _
           ["H1: n/a"; "Network: 12"]
           (<["Network" := "12"]> (<["H1" := "n/a"]> ∅)) "H1" "n/a").
  - vm_compute. reflexivity.
  - vm_compute. reflexivity.
  - vm_compute. reflexivity.
  - reflexivity.
Defined.

Lemma recorded_antenna_response_witness :
  exists ev x_max y_max network_snr,
    config_information (Toy.final_world Toy.run_event0) !! "hlv" =
    Some (default [] (config_information (Toy.empty_world Toy.disk) !! "hlv") ++
          [Aggregate (area68 ev) network_snr
             (net_antenna_pattern_point Toy.ext (gmst ev) Toy.network x_max y_max)]).
Proof.
  destruct (recorded_antenna_response Toy.ext Toy.network Toy.inj Toy.cspecs 8
              "hlv" "hlv/0/post/0.fits.gz" (Toy.empty_world Toy.disk)
              (Toy.final_world Toy.run_event0))
    as (ev & w1 & w3 & w4 & ra_c & dec_c & prob_c & rolled & prob_r & ra_p & dec_p &
        k & x_max & y_max & ns & _ & _ & _ & _ & _ & _ & _ & Hrec).
  - vm_compute. reflexivity.
  - exists ev, x_max, y_max, ns. exact Hrec.
Defined.
